(** * Spectrometer control panel: device abstraction and operator path

    A shallow embedding of [Spectrometer-Control-App.py]: the two
    spectrometer classes ([PhysicalSpectrometer], [DemoSpectrometer]), the
    [Control] registry and the [update_spec_params] callback, followed by
    the properties of the device abstraction.

    Conventions of the embedding.
    - A method is a function from the object's state to an outcome and the
      state it leaves behind: Python keeps every assignment made before an
      exception is raised, so the state is returned in all three cases.
    - A [dict] is an association list in insertion order, which is the order
      Python iterates it in.
    - The value of a control is an integer (the integration time is a
      number of microseconds).
    - Python floats are idealised as real numbers, with one exception kept:
      an integer too large for a float raises [OverflowError] where Python
      makes a float of it; [random.random()] reads the next element of a
      stream of reals carried by the object.
    - A text file is read with its line endings turned into newlines.
    - The seabreeze driver is outside the repository: it is a record of
      operations over an abstract hardware state. *)

From Stdlib Require Import ZArith List String Ascii Bool Lia.
From Stdlib Require Import DecimalString.
From Stdlib Require Import Reals Lra.
Import ListNotations.

Local Open Scope string_scope.
Local Open Scope Z_scope.

(* ================================================================== *)
(** ** Python values, exceptions and dictionaries                      *)
(* ================================================================== *)

(** The exceptions the program can meet.  [DriverError] stands for
    whatever the driver raises (seabreeze's [SeaBreezeError], a USB error). *)
Inductive exn : Type :=
| KeyError (key : string)
| IndexError (msg : string)
| AttributeError (msg : string)
| ValueError (msg : string)
| RuntimeError (msg : string)
| OverflowError (msg : string)
| DriverError (msg : string).

(** [repr] of a plain identifier such as a control id (no quote, backslash
    or unprintable character in it). *)
Definition repr (s : string) : string := "'" ++ s ++ "'".

(** [str(e)]: a [KeyError] prints the [repr] of its key. *)
Definition str_exn (e : exn) : string :=
  match e with
  | KeyError k => repr k
  | IndexError m | AttributeError m | ValueError m
  | RuntimeError m | OverflowError m | DriverError m => m
  end.

(** [str(v)] for an integer [v]. *)
Definition str (v : Z) : string := NilZero.string_of_int (Z.to_int v).

Fixpoint lstrip (c : ascii) (s : list ascii) : list ascii :=
  match s with
  | x :: s' => if Ascii.eqb x c then lstrip c s' else s
  | [] => []
  end.

(** [s.strip('b')]. *)
Definition strip_b (s : string) : string :=
  let c := "b"%char in
  string_of_list_ascii
    (rev (lstrip c (rev (lstrip c (list_ascii_of_string s))))).

(** [str.upper] on ASCII letters; other bytes are kept, which is what
    Python does to the two non-ASCII characters of the only label. *)
Definition upper_ascii (c : ascii) : ascii :=
  let n := nat_of_ascii c in
  if (andb (Nat.leb 97 n) (Nat.leb n 122)) then ascii_of_nat (n - 32) else c.

Fixpoint upper (s : string) : string :=
  match s with
  | EmptyString => EmptyString
  | String c s' => String (upper_ascii c) (upper s')
  end.

Definition dict (V : Type) : Type := list (string * V).

Fixpoint dict_get {V} (d : dict V) (k : string) : option V :=
  match d with
  | [] => None
  | (k', v) :: d' => if String.eqb k' k then Some v else dict_get d' k
  end.

(** [d[k] = v]: replaces the value of an existing key in place, appends a
    new key at the end. *)
Fixpoint dict_set {V} (d : dict V) (k : string) (v : V) : dict V :=
  match d with
  | [] => [(k, v)]
  | (k', v') :: d' =>
      if String.eqb k' k then (k', v) :: d' else (k', v') :: dict_set d' k v
  end.

Definition dict_keys {V} (d : dict V) : list string := map fst d.

Definition dict_mem {V} (d : dict V) (k : string) : bool :=
  match dict_get d k with Some _ => true | None => false end.

(* ================================================================== *)
(** ** Methods: state, exceptions, locks                               *)
(* ================================================================== *)

(** What a call does: return, raise, or wait for ever on a lock that is
    never released ([Blocked]); the last one is not an exception and no
    handler sees it. *)
Inductive outcome (A : Type) : Type :=
| Ok (a : A)
| Raise (e : exn)
| Blocked.
Arguments Ok {A} a.
Arguments Raise {A} e.
Arguments Blocked {A}.

Definition M (W A : Type) : Type := W -> outcome A * W.

Definition ret {W A} (a : A) : M W A := fun w => (Ok a, w).

Definition raise {W A} (e : exn) : M W A := fun w => (Raise e, w).

Definition bind {W A B} (c : M W A) (k : A -> M W B) : M W B :=
  fun w =>
    match c w with
    | (Ok a, w') => k a w'
    | (Raise e, w') => (Raise e, w')
    | (Blocked, w') => (Blocked, w')
    end.

Notation "x <- c ;; k" := (bind c (fun x => k))
  (at level 61, c at next level, right associativity).
Notation "c ;;; k" := (bind c (fun _ => k))
  (at level 61, right associativity).

Definition gets {W A} (f : W -> A) : M W A := fun w => (Ok (f w), w).

Definition modify {W} (f : W -> W) : M W unit := fun w => (Ok tt, f w).

(** [try: body / except Exception as e: handler e]. *)
Definition try_except {W A} (body : M W A) (handler : exn -> M W A) : M W A :=
  fun w =>
    match body w with
    | (Raise e, w') => handler e w'
    | r => r
    end.

(** [try: body / finally: fin].  An exception of [fin] replaces the
    outcome of [body]. *)
Definition try_finally {W A} (body : M W A) (fin : M W unit) : M W A :=
  fun w =>
    match body w with
    | (Blocked, w') => (Blocked, w')
    | (r, w') =>
        match fin w' with
        | (Ok _, w'') => (r, w'')
        | (Raise e, w'') => (Raise e, w'')
        | (Blocked, w'') => (Blocked, w'')
        end
    end.

(** [d[k]] inside a method. *)
Definition subscript {W V} (d : dict V) (k : string) : M W V :=
  match dict_get d k with
  | Some v => ret v
  | None => raise (KeyError k)
  end.

(** [threading.Lock]: [true] when held.  [acquire] on a held lock waits;
    [release] on a free lock raises [RuntimeError]. *)
Definition acquire {W} (get : W -> bool) (set : bool -> W -> W) : M W unit :=
  fun w => if get w then (Blocked, w) else (Ok tt, set true w).

Definition release {W} (get : W -> bool) (set : bool -> W -> W) : M W unit :=
  fun w => if get w then (Ok tt, set false w)
           else (Raise (RuntimeError "release unlocked lock"), w).

(** The shape both classes give the loop of [send_control_values]: one
    dispatch per id, whose value goes to [succeeded] ([inl]) or to
    [failed] ([inr]). *)
Fixpoint loop {W} (dispatch : string -> M W (string + string))
  (ids : list string) (failed succeeded : dict string)
  : M W (dict string * dict string) :=
  match ids with
  | [] => ret (failed, succeeded)
  | ctrl_id :: rest =>
      r <- dispatch ctrl_id ;;
      match r with
      | inl s => loop dispatch rest failed (dict_set succeeded ctrl_id s)
      | inr e => loop dispatch rest (dict_set failed ctrl_id e) succeeded
      end
  end.

(** A spectrum as the classes hold it: [[wavelengths, intensities]]. *)
Definition spectral_data : Type := (list R * list R)%type.

(** The id of the only control the classes know a setter for. *)
Definition integration_time_input : string := "integration-time-input".

(** The stored expressions of the control-function tables.  The source
    keeps them as strings and hands them to [eval]; each class evaluates
    them against its own [self]. *)
Inductive expr : Type :=
| Spec_integration_time_micros   (* "self._spec.integration_time_micros" *)
| Self_integration_time_demo     (* "self.integration_time_demo" *)
| Self_empty_control_demo.       (* "self.empty_control_demo" *)

(* ================================================================== *)
(** ** The driver boundary (seabreeze)                                 *)
(* ================================================================== *)

Inductive result (A : Type) : Type :=
| Success (a : A)
| Failure (e : exn).
Arguments Success {A} a.
Arguments Failure {A} e.

(** Everything the program asks of the driver.  [HW] is the state of the
    hardware and of the driver library; every operation may change it and
    may fail. *)
Record Driver : Type := {
  HW : Type;
  DevId : Type;
  Handle : Type;
  list_devices : HW -> result (list DevId) * HW;
  Spectrometer : DevId -> HW -> result Handle * HW;
  spec_model : Handle -> HW -> result string * HW;
  integration_time_micros_limits : Handle -> HW -> result (Z * Z) * HW;
  (* spectrum(correct_dark_counts, correct_nonlinearity) *)
  spectrum : Handle -> bool -> bool -> HW -> result spectral_data * HW;
  integration_time_micros : Handle -> Z -> HW -> result unit * HW
}.

(* ================================================================== *)
(** ** class PhysicalSpectrometer(DashOceanOpticsSpectrometer)         *)
(* ================================================================== *)

Module Physical.
Section WithDriver.
Context {drv : Driver}.

(** The fields of the base class, the two locks it is given, and the
    hardware behind the driver. *)
Record PhysicalSpectrometer : Type := {
  _spec : option (Handle drv);
  _specmodel : string;
  _spectralData : spectral_data;
  _controlFunctions : dict expr;
  _int_time_max : Z;
  _int_time_min : Z;
  comm_lock : bool;
  spec_lock : bool;
  hw : HW drv
}.

Definition set_spec (x : option (Handle drv)) (s : PhysicalSpectrometer) :=
  {| _spec := x; _specmodel := _specmodel s;
     _spectralData := _spectralData s;
     _controlFunctions := _controlFunctions s;
     _int_time_max := _int_time_max s; _int_time_min := _int_time_min s;
     comm_lock := comm_lock s; spec_lock := spec_lock s; hw := hw s |}.

Definition set_specmodel (x : string) (s : PhysicalSpectrometer) :=
  {| _spec := _spec s; _specmodel := x;
     _spectralData := _spectralData s;
     _controlFunctions := _controlFunctions s;
     _int_time_max := _int_time_max s; _int_time_min := _int_time_min s;
     comm_lock := comm_lock s; spec_lock := spec_lock s; hw := hw s |}.

Definition set_spectralData (x : spectral_data) (s : PhysicalSpectrometer) :=
  {| _spec := _spec s; _specmodel := _specmodel s;
     _spectralData := x;
     _controlFunctions := _controlFunctions s;
     _int_time_max := _int_time_max s; _int_time_min := _int_time_min s;
     comm_lock := comm_lock s; spec_lock := spec_lock s; hw := hw s |}.

Definition set_controlFunctions (x : dict expr) (s : PhysicalSpectrometer) :=
  {| _spec := _spec s; _specmodel := _specmodel s;
     _spectralData := _spectralData s;
     _controlFunctions := x;
     _int_time_max := _int_time_max s; _int_time_min := _int_time_min s;
     comm_lock := comm_lock s; spec_lock := spec_lock s; hw := hw s |}.

Definition set_int_time_max (x : Z) (s : PhysicalSpectrometer) :=
  {| _spec := _spec s; _specmodel := _specmodel s;
     _spectralData := _spectralData s;
     _controlFunctions := _controlFunctions s;
     _int_time_max := x; _int_time_min := _int_time_min s;
     comm_lock := comm_lock s; spec_lock := spec_lock s; hw := hw s |}.

Definition set_int_time_min (x : Z) (s : PhysicalSpectrometer) :=
  {| _spec := _spec s; _specmodel := _specmodel s;
     _spectralData := _spectralData s;
     _controlFunctions := _controlFunctions s;
     _int_time_max := _int_time_max s; _int_time_min := x;
     comm_lock := comm_lock s; spec_lock := spec_lock s; hw := hw s |}.

Definition set_comm_lock (x : bool) (s : PhysicalSpectrometer) :=
  {| _spec := _spec s; _specmodel := _specmodel s;
     _spectralData := _spectralData s;
     _controlFunctions := _controlFunctions s;
     _int_time_max := _int_time_max s; _int_time_min := _int_time_min s;
     comm_lock := x; spec_lock := spec_lock s; hw := hw s |}.

Definition set_spec_lock (x : bool) (s : PhysicalSpectrometer) :=
  {| _spec := _spec s; _specmodel := _specmodel s;
     _spectralData := _spectralData s;
     _controlFunctions := _controlFunctions s;
     _int_time_max := _int_time_max s; _int_time_min := _int_time_min s;
     comm_lock := comm_lock s; spec_lock := x; hw := hw s |}.

Definition set_hw (x : HW drv) (s : PhysicalSpectrometer) :=
  {| _spec := _spec s; _specmodel := _specmodel s;
     _spectralData := _spectralData s;
     _controlFunctions := _controlFunctions s;
     _int_time_max := _int_time_max s; _int_time_min := _int_time_min s;
     comm_lock := comm_lock s; spec_lock := spec_lock s; hw := x |}.

(** A call into the driver: its failure is a Python exception. *)
Definition call {A} (op : HW drv -> result A * HW drv)
  : M PhysicalSpectrometer A :=
  fun s =>
    match op (hw s) with
    | (Success a, h) => (Ok a, set_hw h s)
    | (Failure e, h) => (Raise e, set_hw h s)
    end.

(** [devices[0]]. *)
Definition first_device {W} (devices : list (DevId drv)) : M W (DevId drv) :=
  match devices with
  | d :: _ => ret d
  | [] => raise (IndexError "list index out of range")
  end.

(** [self._spec.<attr>]: the handle, or the [AttributeError] of [None]. *)
Definition spec_attr (attr : string) : M PhysicalSpectrometer (Handle drv) :=
  fun s =>
    match _spec s with
    | Some h => (Ok h, s)
    | None =>
        (Raise (AttributeError
                  ("'NoneType' object has no attribute '" ++ attr ++ "'")), s)
    end.

(** The [try] block of [assign_spec], lines 63 to 68. *)
Definition assign_spec_try : M PhysicalSpectrometer unit :=
  acquire comm_lock set_comm_lock ;;;
  devices <- call (list_devices drv) ;;
  d <- first_device devices ;;
  h <- call (Spectrometer drv d) ;;
  modify (set_spec (Some h)) ;;;
  h1 <- spec_attr "model" ;;
  m <- call (spec_model drv h1) ;;
  modify (set_specmodel m) ;;;
  h2 <- spec_attr "integration_time_micros_limits" ;;
  lo <- call (integration_time_micros_limits drv h2) ;;
  modify (set_int_time_min (fst lo)) ;;;
  h3 <- spec_attr "integration_time_micros_limits" ;;
  hi <- call (integration_time_micros_limits drv h3) ;;
  modify (set_int_time_max (snd hi)).

(** [assign_spec]: [except Exception: pass], and the lock released in
    [finally] (the [print] that follows it there is not modelled). *)
Definition assign_spec : M PhysicalSpectrometer unit :=
  try_finally
    (try_except assign_spec_try (fun _ => ret tt))
    (release comm_lock set_comm_lock).

(** The first half of [get_spectrum], lines 76 to 83. *)
Definition rebind_if_unbound : M PhysicalSpectrometer unit :=
  fun s =>
    match _spec s with
    | None =>
        try_finally
          (try_except
             (acquire spec_lock set_spec_lock ;;; assign_spec)
             (fun _ => ret tt))
          (release spec_lock set_spec_lock) s
    | Some _ => (Ok tt, s)
    end.

(** The [try] block of the read, lines 85 to 87. *)
Definition read_try : M PhysicalSpectrometer unit :=
  acquire comm_lock set_comm_lock ;;;
  h <- spec_attr "spectrum" ;;
  d <- call (spectrum drv h false true) ;;
  modify (set_spectralData d).

Definition get_spectrum : M PhysicalSpectrometer spectral_data :=
  rebind_if_unbound ;;;
  try_finally
    (try_except read_try (fun _ => ret tt))
    (release comm_lock set_comm_lock) ;;;
  gets _spectralData.

(** [eval(expression)] with [self] a [PhysicalSpectrometer]: the bound
    method, or the [AttributeError] of the attribute lookup. *)
Definition eval (f : expr)
  : M PhysicalSpectrometer (Z -> M PhysicalSpectrometer unit) :=
  match f with
  | Spec_integration_time_micros =>
      h <- spec_attr "integration_time_micros" ;;
      ret (fun v => call (integration_time_micros drv h v))
  | Self_integration_time_demo =>
      raise (AttributeError
        "'PhysicalSpectrometer' object has no attribute 'integration_time_demo'")
  | Self_empty_control_demo =>
      raise (AttributeError
        "'PhysicalSpectrometer' object has no attribute 'empty_control_demo'")
  end.

(** The body of the [try] of one loop iteration, lines 101 to 103; its
    value is the string stored under [succeeded[ctrl_id]]. *)
Definition dispatch_try (commands : dict Z) (ctrl_id : string)
  : M PhysicalSpectrometer string :=
  acquire comm_lock set_comm_lock ;;;
  table <- gets _controlFunctions ;;
  f <- subscript table ctrl_id ;;
  setter <- eval f ;;
  v <- subscript commands ctrl_id ;;
  setter v ;;;
  v' <- subscript commands ctrl_id ;;
  ret (str v').

(** One iteration: [inl] is the entry for [succeeded], [inr] the one for
    [failed]. *)
Definition dispatch (commands : dict Z) (ctrl_id : string)
  : M PhysicalSpectrometer (string + string) :=
  try_finally
    (try_except
       (s <- dispatch_try commands ctrl_id ;; ret (inl s))
       (fun e => ret (inr (strip_b (str_exn e)))))
    (release comm_lock set_comm_lock).

(** The [for ctrl_id in commands] loop over the keys still to visit. *)
Fixpoint send_loop (commands : dict Z) (ids : list string)
  (failed succeeded : dict string)
  : M PhysicalSpectrometer (dict string * dict string) :=
  match ids with
  | [] => ret (failed, succeeded)
  | ctrl_id :: rest =>
      r <- dispatch commands ctrl_id ;;
      match r with
      | inl s => send_loop commands rest failed (dict_set succeeded ctrl_id s)
      | inr e => send_loop commands rest (dict_set failed ctrl_id e) succeeded
      end
  end.

(** Returns [(failed, succeeded)], in that order. *)
Definition send_control_values (commands : dict Z)
  : M PhysicalSpectrometer (dict string * dict string) :=
  send_loop commands (dict_keys commands) [] [].

Definition model : M PhysicalSpectrometer string :=
  acquire spec_lock set_spec_lock ;;;
  assign_spec ;;;
  release spec_lock set_spec_lock ;;;
  gets _specmodel.

Definition int_time_max : M PhysicalSpectrometer Z :=
  acquire spec_lock set_spec_lock ;;;
  assign_spec ;;;
  release spec_lock set_spec_lock ;;;
  gets _int_time_max.

Definition int_time_min : M PhysicalSpectrometer Z :=
  acquire spec_lock set_spec_lock ;;;
  assign_spec ;;;
  release spec_lock set_spec_lock ;;;
  gets _int_time_min.

(** The object as [DashOceanOpticsSpectrometer.__init__] leaves it, with
    two fresh locks, over the hardware state [h]. *)
Definition base_init (h : HW drv) : PhysicalSpectrometer :=
  {| _spec := None; _specmodel := "";
     _spectralData := ([], []);
     _controlFunctions := [];
     _int_time_max := 1; _int_time_min := 0;
     comm_lock := false; spec_lock := false; hw := h |}.

Definition control_table : dict expr :=
  [(integration_time_input, Spec_integration_time_micros)].

(** [PhysicalSpectrometer.__init__] after the base initialiser. *)
Definition init : M PhysicalSpectrometer unit :=
  acquire spec_lock set_spec_lock ;;;
  assign_spec ;;;
  release spec_lock set_spec_lock ;;;
  modify (set_controlFunctions control_table).

(** [spec = PhysicalSpectrometer(spec_lock, comm_lock)]. *)
Definition new (h : HW drv) : outcome unit * PhysicalSpectrometer :=
  init (base_init h).

End WithDriver.
Arguments PhysicalSpectrometer : clear implicits.
End Physical.

(* ================================================================== *)
(** ** class DemoSpectrometer(DashOceanOpticsSpectrometer)             *)
(* ================================================================== *)

(** [numpy.linspace(start, stop, num)]: [num] evenly spaced samples, both
    ends included. *)
Definition linspace (start stop : R) (num : nat) : list R :=
  map (fun i => (start + INR i * ((stop - start) / INR (num - 1)))%R)
      (seq 0 num).

(** An integer met by a float in [*] or [+] is first made a float, and
    that raises [OverflowError] when it rounds to [2 ** 1024] or beyond:
    the integers with a float are those below [2 ** 1024 - 2 ** 970] in
    absolute value.  The float itself is taken for the real number. *)
Definition float_limit : Z := 2 ^ 1024 - 2 ^ 970.

Definition has_float (z : Z) : bool := Z.abs z <? float_limit.

Definition float_of_int {W} (z : Z) : M W R :=
  if has_float z then ret (IZR z)
  else raise (OverflowError "int too large to convert to float").

Module Demo.

(** The fields of the base class (the driver reference is never assigned
    here), those added by [DemoSpectrometer.__init__], and the pending
    output of the random generator. *)
Record DemoSpectrometer : Type := {
  _spec : option Empty_set;
  _specmodel : string;
  _spectralData : spectral_data;
  _controlFunctions : dict expr;
  _int_time_max : Z;
  _int_time_min : Z;
  comm_lock : bool;
  spec_lock : bool;
  controlFunctions : dict expr;
  _sample_data_scale : Z;
  _sample_data_add : Z;
  rng : nat -> R
}.

Definition set_specmodel (x : string) (s : DemoSpectrometer) :=
  {| _spec := _spec s; _specmodel := x; _spectralData := _spectralData s;
     _controlFunctions := _controlFunctions s;
     _int_time_max := _int_time_max s; _int_time_min := _int_time_min s;
     comm_lock := comm_lock s; spec_lock := spec_lock s;
     controlFunctions := controlFunctions s;
     _sample_data_scale := _sample_data_scale s;
     _sample_data_add := _sample_data_add s; rng := rng s |}.

Definition set_spectralData (x : spectral_data) (s : DemoSpectrometer) :=
  {| _spec := _spec s; _specmodel := _specmodel s; _spectralData := x;
     _controlFunctions := _controlFunctions s;
     _int_time_max := _int_time_max s; _int_time_min := _int_time_min s;
     comm_lock := comm_lock s; spec_lock := spec_lock s;
     controlFunctions := controlFunctions s;
     _sample_data_scale := _sample_data_scale s;
     _sample_data_add := _sample_data_add s; rng := rng s |}.

Definition set_spec_lock (x : bool) (s : DemoSpectrometer) :=
  {| _spec := _spec s; _specmodel := _specmodel s;
     _spectralData := _spectralData s;
     _controlFunctions := _controlFunctions s;
     _int_time_max := _int_time_max s; _int_time_min := _int_time_min s;
     comm_lock := comm_lock s; spec_lock := x;
     controlFunctions := controlFunctions s;
     _sample_data_scale := _sample_data_scale s;
     _sample_data_add := _sample_data_add s; rng := rng s |}.

Definition set_controlFunctions (x : dict expr) (s : DemoSpectrometer) :=
  {| _spec := _spec s; _specmodel := _specmodel s;
     _spectralData := _spectralData s;
     _controlFunctions := _controlFunctions s;
     _int_time_max := _int_time_max s; _int_time_min := _int_time_min s;
     comm_lock := comm_lock s; spec_lock := spec_lock s;
     controlFunctions := x;
     _sample_data_scale := _sample_data_scale s;
     _sample_data_add := _sample_data_add s; rng := rng s |}.

Definition set_sample_data_scale (x : Z) (s : DemoSpectrometer) :=
  {| _spec := _spec s; _specmodel := _specmodel s;
     _spectralData := _spectralData s;
     _controlFunctions := _controlFunctions s;
     _int_time_max := _int_time_max s; _int_time_min := _int_time_min s;
     comm_lock := comm_lock s; spec_lock := spec_lock s;
     controlFunctions := controlFunctions s;
     _sample_data_scale := x;
     _sample_data_add := _sample_data_add s; rng := rng s |}.

Definition set_sample_data_add (x : Z) (s : DemoSpectrometer) :=
  {| _spec := _spec s; _specmodel := _specmodel s;
     _spectralData := _spectralData s;
     _controlFunctions := _controlFunctions s;
     _int_time_max := _int_time_max s; _int_time_min := _int_time_min s;
     comm_lock := comm_lock s; spec_lock := spec_lock s;
     controlFunctions := controlFunctions s;
     _sample_data_scale := _sample_data_scale s;
     _sample_data_add := x; rng := rng s |}.

Definition set_rng (x : nat -> R) (s : DemoSpectrometer) :=
  {| _spec := _spec s; _specmodel := _specmodel s;
     _spectralData := _spectralData s;
     _controlFunctions := _controlFunctions s;
     _int_time_max := _int_time_max s; _int_time_min := _int_time_min s;
     comm_lock := comm_lock s; spec_lock := spec_lock s;
     controlFunctions := controlFunctions s;
     _sample_data_scale := _sample_data_scale s;
     _sample_data_add := _sample_data_add s; rng := x |}.

Definition assign_spec : M DemoSpectrometer unit :=
  modify (set_specmodel "USB2000+").

(** [random.random()]: the head of the stream, which moves on by one. *)
Definition random_random : M DemoSpectrometer R :=
  fun s => (Ok (rng s O), set_rng (fun n => rng s (S n)) s).

(** [sample_spectrum(x)]:
    [scale * (numpy.e**(-1 * ((x-500) / 5)**2) + 0.01 * random.random())
     + add * 10],
    in the order Python evaluates it: the scale is read, the bracket is
    computed (one draw), the integer scale is made a float for the
    product, the offset is read, and the integer [add * 10] is made a
    float for the sum. *)
Definition sample_spectrum (x : R) : M DemoSpectrometer R :=
  scale <- gets _sample_data_scale ;;
  r <- random_random ;;
  scale' <- float_of_int scale ;;
  add <- gets _sample_data_add ;;
  offset <- float_of_int (add * 10) ;;
  ret (scale' * (exp (-1 * ((x - 500) / 5) ^ 2) + 0.01 * r) + offset)%R.

Definition integration_time_demo (x : Z) : M DemoSpectrometer unit :=
  modify (set_sample_data_scale x).

Definition empty_control_demo (x : Z) : M DemoSpectrometer unit :=
  ret tt.

(** The list comprehension of [get_spectrum]. *)
Fixpoint sample_all (wls : list R) : M DemoSpectrometer (list R) :=
  match wls with
  | [] => ret []
  | wl :: rest =>
      y <- sample_spectrum wl ;;
      ys <- sample_all rest ;;
      ret (y :: ys)
  end.

(** [get_spectrum]: both rows of [self._spectralData] are replaced, the
    first before the samples are drawn, and the list itself is returned. *)
Definition get_spectrum : M DemoSpectrometer spectral_data :=
  modify (fun s =>
            set_spectralData (linspace 400 900 5000, snd (_spectralData s)) s) ;;;
  wls <- gets (fun s => fst (_spectralData s)) ;;
  ys <- sample_all wls ;;
  modify (fun s => set_spectralData (fst (_spectralData s), ys) s) ;;;
  gets _spectralData.

(** [eval(expression)] with [self] a [DemoSpectrometer]. *)
Definition eval (f : expr)
  : M DemoSpectrometer (Z -> M DemoSpectrometer unit) :=
  match f with
  | Self_integration_time_demo => ret integration_time_demo
  | Self_empty_control_demo => ret empty_control_demo
  | Spec_integration_time_micros =>
      fun s =>
        match _spec s with
        | Some h => match h with end
        | None =>
            (Raise (AttributeError
               "'NoneType' object has no attribute 'integration_time_micros'"),
             s)
        end
  end.

(** The body of the [try] of one loop iteration, lines 162 and 163. *)
Definition dispatch_try (commands : dict Z) (ctrl_id : string)
  : M DemoSpectrometer string :=
  table <- gets controlFunctions ;;
  f <- subscript table ctrl_id ;;
  setter <- eval f ;;
  v <- subscript commands ctrl_id ;;
  setter v ;;;
  v' <- subscript commands ctrl_id ;;
  ret (str v').

Definition dispatch (commands : dict Z) (ctrl_id : string)
  : M DemoSpectrometer (string + string) :=
  try_except
    (s <- dispatch_try commands ctrl_id ;; ret (inl s))
    (fun e => ret (inr (str_exn e))).

Fixpoint send_loop (commands : dict Z) (ids : list string)
  (failed succeeded : dict string)
  : M DemoSpectrometer (dict string * dict string) :=
  match ids with
  | [] => ret (failed, succeeded)
  | ctrl_id :: rest =>
      r <- dispatch commands ctrl_id ;;
      match r with
      | inl s => send_loop commands rest failed (dict_set succeeded ctrl_id s)
      | inr e => send_loop commands rest (dict_set failed ctrl_id e) succeeded
      end
  end.

(** Returns [(failed, succeeded)], in that order. *)
Definition send_control_values (commands : dict Z)
  : M DemoSpectrometer (dict string * dict string) :=
  send_loop commands (dict_keys commands) [] [].

Definition model : M DemoSpectrometer string := gets _specmodel.

Definition int_time_max : M DemoSpectrometer Z := gets _int_time_max.

Definition int_time_min : M DemoSpectrometer Z := gets _int_time_min.

(** The object as [DashOceanOpticsSpectrometer.__init__] leaves it, with
    two fresh locks; [g] is what the random generator will produce.  The
    three fields of the subclass do not exist yet and are filled with the
    values [init] is about to give them. *)
Definition base_init (g : nat -> R) : DemoSpectrometer :=
  {| _spec := None; _specmodel := "";
     _spectralData := ([], []);
     _controlFunctions := [];
     _int_time_max := 1; _int_time_min := 0;
     comm_lock := false; spec_lock := false;
     controlFunctions := [];
     _sample_data_scale := 0; _sample_data_add := 0;
     rng := g |}.

Definition control_table : dict expr :=
  [(integration_time_input, Self_integration_time_demo)].

(** [DemoSpectrometer.__init__] after the base initialiser. *)
Definition init : M DemoSpectrometer unit :=
  try_finally
    (try_except
       (acquire spec_lock set_spec_lock ;;; assign_spec)
       (fun _ => ret tt))
    (release spec_lock set_spec_lock) ;;;
  modify (set_controlFunctions control_table) ;;;
  lo <- gets _int_time_min ;;
  modify (set_sample_data_scale lo) ;;;
  modify (set_sample_data_add 0).

(** [DemoSpectrometer(spec_lock, comm_lock)]. *)
Definition new (g : nat -> R) : outcome unit * DemoSpectrometer :=
  init (base_init g).

End Demo.

(* ================================================================== *)
(** ** The common interface of the two classes                         *)
(* ================================================================== *)

(** The methods [DashOceanOpticsSpectrometer] declares and both
    subclasses override. *)
Class DashOceanOpticsSpectrometer (S : Type) : Type := {
  assign_spec : M S unit;
  get_spectrum : M S spectral_data;
  send_control_values : dict Z -> M S (dict string * dict string);
  model : M S string;
  int_time_max : M S Z;
  int_time_min : M S Z
}.

#[export] Instance Physical_spectrometer (drv : Driver)
  : DashOceanOpticsSpectrometer (Physical.PhysicalSpectrometer drv) := {
  assign_spec := Physical.assign_spec;
  get_spectrum := Physical.get_spectrum;
  send_control_values := Physical.send_control_values;
  model := Physical.model;
  int_time_max := Physical.int_time_max;
  int_time_min := Physical.int_time_min
}.

#[export] Instance Demo_spectrometer
  : DashOceanOpticsSpectrometer Demo.DemoSpectrometer := {
  assign_spec := Demo.assign_spec;
  get_spectrum := Demo.get_spectrum;
  send_control_values := Demo.send_control_values;
  model := Demo.model;
  int_time_max := Demo.int_time_max;
  int_time_min := Demo.int_time_min
}.

(* ================================================================== *)
(** ** class Control, the registry and the submit callback             *)
(* ================================================================== *)

(** [component_attr] of a numeric input: the keys the registry gives it. *)
Record NumericInput : Type := {
  attr_id : string;
  attr_max : Z;
  attr_min : Z;
  attr_size : Z;
  attr_value : Z
}.

Record Control : Type := {
  ctrl_id : string;
  ctrl_name : string;
  component_type : string;
  component_attr : NumericInput
}.

(** [update_value] of a control whose attributes have a ['value']. *)
Definition update_value (new_value : Z) (c : Control) : Control :=
  {| ctrl_id := ctrl_id c; ctrl_name := ctrl_name c;
     component_type := component_type c;
     component_attr :=
       {| attr_id := attr_id (component_attr c);
          attr_max := attr_max (component_attr c);
          attr_min := attr_min (component_attr c);
          attr_size := attr_size (component_attr c);
          attr_value := new_value |} |}.

Definition byte (n : nat) : string := String (ascii_of_nat n) EmptyString.

(** The label of the integration-time control, with the four bytes the
    source file has between the parentheses. *)
Definition int_time_label : string :=
  "int. time (" ++ byte 195 ++ byte 142 ++ byte 194 ++ byte 188 ++ "s)".

(** What a callback puts in a page. *)
Inductive html : Type :=
| Text (s : string)
| Br
| Hr.

Inductive response : Type :=
| Children (items : list html)   (* a bare list *)
| Div (items : list html).       (* html.Div(summary) *)

Definition power_off_message : string :=
  "Press the power button to the top-right of the app, then "
  ++ "            press the " ++ byte 34 ++ "update" ++ byte 34
  ++ " button above to apply your options to "
  ++ "            the spectrometer.".

Definition not_updated_message : string :=
  "The following parameters were not         successfully updated: ".

Definition updated_message : string :=
  "The following parameters were successfully updated: ".

(** The control [int_time], lines 280 to 288, for the bounds and the
    first value the device gave. *)
Definition int_time (hi lo v : Z) : Control :=
  {| ctrl_id := "integration-time";
     ctrl_name := int_time_label;
     component_type := "NumericInput";
     component_attr :=
       {| attr_id := integration_time_input;
          attr_max := hi; attr_min := lo;
          attr_size := 150; attr_value := v |} |}.

Section Callbacks.
Context {S : Type} {spec : DashOceanOpticsSpectrometer S}.

(** The registry, lines 277 to 289: one control, its bounds and first
    value asked of the device in the order the literal lists them. *)
Definition make_controls : M S (list Control) :=
  hi <- int_time_max ;;
  lo <- int_time_min ;;
  v <- int_time_min ;;
  ret [int_time hi lo v].

(** [{controls[i].component_attr['id']: args[i] for i in range(len(controls))}].
    Dash calls the callback with one value per control, then the power
    state; [values] are the former.  A missing value is the [IndexError]
    of [args[i]]. *)
Fixpoint build_commands (controls : list Control) (values : list Z)
  (commands : dict Z) : M S (dict Z) :=
  match controls with
  | [] => ret commands
  | c :: controls' =>
      match values with
      | v :: values' =>
          build_commands controls' values'
            (dict_set commands (attr_id (component_attr c)) v)
      | [] => raise (IndexError "tuple index out of range")
      end
  end.

(** [[ctrlName] = [c.ctrl_name for c in controls
                   if c.component_attr['id'] == f]]. *)
Definition the_ctrl_name (controls : list Control) (f : string) : M S string :=
  match filter (fun c => String.eqb (attr_id (component_attr c)) f) controls with
  | [c] => ret (ctrl_name c)
  | [] => raise (ValueError "not enough values to unpack (expected 1, got 0)")
  | _ => raise (ValueError "too many values to unpack (expected 1)")
  end.

(** The loop [for f in failed] (and [for s in succeeded]) over the entries
    still to report. *)
Fixpoint report (controls : list Control) (entries : dict string)
  (summary : list html) : M S (list html) :=
  match entries with
  | [] => ret summary
  | (f, text) :: rest =>
      ctrlName <- the_ctrl_name controls f ;;
      report controls rest
        (summary ++ [Text (upper ctrlName ++ ": " ++ text); Br])%list
  end.

Definition report_failed (controls : list Control) (failed : dict string)
  (summary : list html) : M S (list html) :=
  match failed with
  | [] => ret summary
  | _ =>
      summary1 <- report controls failed
                    (summary ++ [Text not_updated_message; Br; Br])%list ;;
      ret (summary1 ++ [Br; Hr; Br; Br])%list
  end.

Definition report_succeeded (controls : list Control)
  (succeeded : dict string) (summary : list html) : M S (list html) :=
  match succeeded with
  | [] => ret summary
  | _ =>
      report controls succeeded
        (summary ++ [Text updated_message; Br; Br])%list
  end.

(** [update_spec_params(n_clicks, *args)], with [args] split into the
    control values and the power state that ends it. *)
Definition update_spec_params (controls : list Control) (n_clicks : Z)
  (values : list Z) (power : bool) : M S response :=
  if negb power then ret (Children [Text power_off_message])
  else
    commands <- build_commands controls values [] ;;
    r <- send_control_values commands ;;
    let '(failed, succeeded) := r in
    summary1 <- report_failed controls failed [] ;;
    summary2 <- report_succeeded controls succeeded summary1 ;;
    ret (Div summary2).

End Callbacks.

(* ================================================================== *)
(** ** A poll and a submission running at the same time                *)
(* ================================================================== *)

(** Dash serves callbacks from several threads, so [update_plot] can be
    inside [DemoSpectrometer.get_spectrum] while [update_spec_params] is
    inside [DemoSpectrometer.send_control_values]; neither method takes a
    lock.  Each thread is cut into steps that touch the shared object at
    most once per field: the only field the submission writes is
    [_sample_data_scale], and a step of the poll reads it once, so every
    finer interleaving of the interpreter shows the poll the same values
    as one of these. *)
Module Interleaving.

Inductive thread : Type := Poller | Submitter.

(** Where the poll is: before line 151, inside the comprehension of lines
    152 and 153 with the samples drawn so far, back in the caller with a
    spectrum, or stopped by an exception of [sample_spectrum]. *)
Inductive poll_pc : Type :=
| PollStart
| PollSampling (todo : list R) (drawn : list R)
| PollReturned (spectrum : spectral_data)
| PollStopped.

(** Where the submission is: in the loop with the ids still to visit and
    the two local dictionaries, or back in the caller. *)
Inductive submit_pc : Type :=
| SubmitLoop (ids : list string) (failed succeeded : dict string)
| SubmitReturned (failed succeeded : dict string)
| SubmitStopped.

Record system : Type := {
  device : Demo.DemoSpectrometer;
  poller : poll_pc;
  submitter : submit_pc
}.

Definition poll_step (pc : poll_pc) (s : Demo.DemoSpectrometer)
  : poll_pc * Demo.DemoSpectrometer :=
  match pc with
  | PollStart =>
      let s1 := Demo.set_spectralData
                  (linspace 400 900 5000, snd (Demo._spectralData s)) s in
      (PollSampling (fst (Demo._spectralData s1)) [], s1)
  | PollSampling (wl :: rest) drawn =>
      match Demo.sample_spectrum wl s with
      | (Ok y, s1) => (PollSampling rest (drawn ++ [y]), s1)
      | (_, s1) => (PollStopped, s1)
      end
  | PollSampling [] drawn =>
      let s1 := Demo.set_spectralData (fst (Demo._spectralData s), drawn) s in
      (PollReturned (Demo._spectralData s1), s1)
  | PollReturned d => (PollReturned d, s)
  | PollStopped => (PollStopped, s)
  end.

Definition submit_step (commands : dict Z) (pc : submit_pc)
  (s : Demo.DemoSpectrometer) : submit_pc * Demo.DemoSpectrometer :=
  match pc with
  | SubmitLoop (ctrl_id :: rest) failed succeeded =>
      match Demo.dispatch commands ctrl_id s with
      | (Ok (inl v), s1) =>
          (SubmitLoop rest failed (dict_set succeeded ctrl_id v), s1)
      | (Ok (inr e), s1) =>
          (SubmitLoop rest (dict_set failed ctrl_id e) succeeded, s1)
      | (_, s1) => (SubmitStopped, s1)
      end
  | SubmitLoop [] failed succeeded => (SubmitReturned failed succeeded, s)
  | SubmitReturned failed succeeded => (SubmitReturned failed succeeded, s)
  | SubmitStopped => (SubmitStopped, s)
  end.

(** One step of the chosen thread; a thread that is back in its caller
    has nothing left to do. *)
Definition step (commands : dict Z) (t : thread) (sys : system) : system :=
  match t with
  | Poller =>
      let '(pc, s) := poll_step (poller sys) (device sys) in
      {| device := s; poller := pc; submitter := submitter sys |}
  | Submitter =>
      let '(pc, s) := submit_step commands (submitter sys) (device sys) in
      {| device := s; poller := poller sys; submitter := pc |}
  end.

Fixpoint run (commands : dict Z) (schedule : list thread) (sys : system)
  : system :=
  match schedule with
  | [] => sys
  | t :: schedule' => run commands schedule' (step commands t sys)
  end.

(** Both calls just entered. *)
Definition start (commands : dict Z) (s : Demo.DemoSpectrometer) : system :=
  {| device := s; poller := PollStart;
     submitter := SubmitLoop (dict_keys commands) [] [] |}.

(** The number of turns a schedule gives to the poll. *)
Definition poll_turns (schedule : list thread) : nat :=
  List.length (filter (fun t => match t with Poller => true | Submitter => false end)
                 schedule).

End Interleaving.

(* ================================================================== *)
(** ** Drivers to run the program against                              *)
(* ================================================================== *)

(** A bench with one USB2000+ on a cable that carries [calls_left] more
    driver calls and is dead after that; [received] keeps every value the
    integration-time setter was called with, accepted or not. *)
Record bench_hw : Type := {
  calls_left : nat;
  received : list Z
}.

Definition bench_call {A} (a : A) (w : bench_hw) : result A * bench_hw :=
  match calls_left w with
  | O => (Failure (DriverError "device not responding"), w)
  | Datatypes.S n => (Success a, {| calls_left := n; received := received w |})
  end.

Definition bench_limits : Z * Z := (1000, 65535000).

Definition bench_spectrum : spectral_data :=
  ([400; 650; 900]%R, [0; 1; 0]%R).

Definition bench_set (v : Z) (w : bench_hw) : result unit * bench_hw :=
  let w1 := {| calls_left := calls_left w; received := v :: received w |} in
  if andb (fst bench_limits <=? v) (v <=? snd bench_limits)
  then bench_call tt w1
  else (Failure (DriverError "integration time out of range"), w1).

Definition bench : Driver := {|
  HW := bench_hw;
  DevId := unit;
  Handle := unit;
  list_devices := fun w =>
    match calls_left w with
    | O => (Success [], w)
    | Datatypes.S n => (Success [tt], {| calls_left := n; received := received w |})
    end;
  Spectrometer := fun _ => bench_call tt;
  spec_model := fun _ => bench_call "USB2000+";
  integration_time_micros_limits := fun _ => bench_call bench_limits;
  spectrum := fun _ _ _ => bench_call bench_spectrum;
  integration_time_micros := fun _ => bench_set
|}.

(** The bench with nothing plugged in, and with a cable that holds. *)
Definition unplugged : bench_hw := {| calls_left := 0; received := [] |}.

Definition plugged (n : nat) : bench_hw := {| calls_left := n; received := [] |}.

(** A random generator that only ever returns [0]. *)
Definition zeros : nat -> R := fun _ => 0%R.

(** A bench on which the spectrometer is exchanged while the program
    runs: the hardware state counts the openings, the handle is the number
    of its opening, and the device found by the first two openings is a
    USB2000+, the one found by every later opening an HR4000.  No call of
    this driver fails. *)
Definition exchanged : Driver := {|
  HW := nat;
  DevId := unit;
  Handle := nat;
  list_devices := fun n => (Success [tt], n);
  Spectrometer := fun _ n => (Success n, Datatypes.S n);
  spec_model := fun h n =>
    (Success (if (h <? 2)%nat then "USB2000+" else "HR4000"), n);
  integration_time_micros_limits := fun _ n => (Success bench_limits, n);
  spectrum := fun _ _ _ n => (Success bench_spectrum, n);
  integration_time_micros := fun _ _ n => (Success tt, n)
|}.

(* ================================================================== *)
(** ** Vocabulary of the properties                                    *)
(* ================================================================== *)

(** The two dictionaries [send_control_values] returns, by name. *)
Definition failed_of (r : dict string * dict string) : dict string := fst r.

Definition succeeded_of (r : dict string * dict string) : dict string := snd r.

(** Every id of [ids] is a key of exactly one of the two dictionaries, and
    they have no other key. *)
Definition recorded_once (ids : list string) (r : dict string * dict string)
  : Prop :=
  forall k,
    (In k ids ->
     xorb (dict_mem (failed_of r) k) (dict_mem (succeeded_of r) k) = true)
    /\ (~ In k ids ->
        dict_mem (failed_of r) k = false
        /\ dict_mem (succeeded_of r) k = false).

(** The two rows of a spectrum have the same length. *)
Definition rows_agree (d : spectral_data) : Prop :=
  List.length (fst d) = List.length (snd d).

Section PhysicalVocabulary.
Context {drv : Driver}.

(** No call is in progress on the object: both locks are free. *)
Definition idle (w : Physical.PhysicalSpectrometer drv) : Prop :=
  Physical.comm_lock w = false /\ Physical.spec_lock w = false.

(** A computation that never waits and leaves both locks as they were. *)
Definition quiet {A} (c : M (Physical.PhysicalSpectrometer drv) A) : Prop :=
  forall w,
    fst (c w) <> Blocked
    /\ Physical.comm_lock (snd (c w)) = Physical.comm_lock w
    /\ Physical.spec_lock (snd (c w)) = Physical.spec_lock w.

(** A computation that leaves the part [f] of the object as it was. *)
Definition keeps {X A} (f : Physical.PhysicalSpectrometer drv -> X)
  (c : M (Physical.PhysicalSpectrometer drv) A) : Prop :=
  forall w, f (snd (c w)) = f w.

End PhysicalVocabulary.

(** The two dictionaries agree on every key but [id]. *)
Definition agree_off {V} (id : string) (d1 d2 : dict V) : Prop :=
  forall k, k <> id -> dict_get d1 k = dict_get d2 k.

(** The batch without the entry of [id]. *)
Definition without {V} (id : string) (d : dict V) : dict V :=
  filter (fun kv => negb (String.eqb (fst kv) id)) d.

(** No string occurs twice: what the keys of a Python dictionary are. *)
Fixpoint distinct (ids : list string) : bool :=
  match ids with
  | [] => true
  | k :: rest => negb (existsb (String.eqb k) rest) && distinct rest
  end.

(** What [DemoSpectrometer.__init__] establishes and no method undoes. *)
Definition demo_ready (s : Demo.DemoSpectrometer) : Prop :=
  Demo.controlFunctions s = Demo.control_table
  /\ Demo._sample_data_add s = 0.

(** The scale and the offset of the simulated object have floats. *)
Definition in_float_range (s : Demo.DemoSpectrometer) : Prop :=
  has_float (Demo._sample_data_scale s) = true
  /\ has_float (Demo._sample_data_add s * 10) = true.

(** Every value of the batch has a float. *)
Definition values_have_floats (commands : dict Z) : Prop :=
  forall k v, dict_get commands k = Some v -> has_float v = true.

(** What [PhysicalSpectrometer.__init__] establishes and no method
    undoes, seen between two calls. *)
Definition physical_ready {drv} (w : Physical.PhysicalSpectrometer drv) : Prop :=
  idle w /\ Physical._controlFunctions w = Physical.control_table.

Section PhysicalSessions.
Context {drv : Driver}.

(** What the first three driver steps of [assign_spec] come to: the
    devices are listed, the first one is taken and opened. *)
Definition discover (h : HW drv) : result (Handle drv) * HW drv :=
  match list_devices drv h with
  | (Success (d :: _), h1) => Spectrometer drv d h1
  | (Success [], h1) => (Failure (IndexError "list index out of range"), h1)
  | (Failure e, h1) => (Failure e, h1)
  end.

(** What the driver hands back when the second half of [get_spectrum]
    asks it for a spectrum in the state [w]: nothing when no handle is
    bound or when the driver fails. *)
Definition driver_read (w : Physical.PhysicalSpectrometer drv)
  : option spectral_data :=
  match Physical._spec w with
  | None => None
  | Some h =>
      match fst (spectrum drv h false true (Physical.hw w)) with
      | Success d => Some d
      | Failure _ => None
      end
  end.

(** The same for a whole call of [get_spectrum], which first rebinds an
    unbound handle. *)
Definition fresh_read (w : Physical.PhysicalSpectrometer drv)
  : option spectral_data :=
  driver_read (snd (Physical.rebind_if_unbound w)).

(** The calls the application makes on its spectrometer. *)
Inductive method : Type :=
| Get_spectrum
| Send_control_values (commands : dict Z)
| Model
| Int_time_max
| Int_time_min
| Assign_spec.

(** The object after one call. *)
Definition invoke (m : method) (w : Physical.PhysicalSpectrometer drv)
  : Physical.PhysicalSpectrometer drv :=
  match m with
  | Get_spectrum => snd (Physical.get_spectrum w)
  | Send_control_values commands => snd (Physical.send_control_values commands w)
  | Model => snd (Physical.model w)
  | Int_time_max => snd (Physical.int_time_max w)
  | Int_time_min => snd (Physical.int_time_min w)
  | Assign_spec => snd (Physical.assign_spec w)
  end.

(** A session: calls made one after the other on the object [w].  Along
    with the object it follows the spectrum the driver last handed back,
    [last], which no field of the object is consulted for. *)
Fixpoint session (calls : list method)
  (w : Physical.PhysicalSpectrometer drv) (last : spectral_data)
  : Physical.PhysicalSpectrometer drv * spectral_data :=
  match calls with
  | [] => (w, last)
  | m :: calls' =>
      let last' :=
        match m with
        | Get_spectrum =>
            match fresh_read w with Some d => d | None => last end
        | _ => last
        end in
      session calls' (invoke m w) last'
  end.

(** The driver only hands back spectra whose two rows have the same
    length (seabreeze returns one array of two rows). *)
Definition driver_rows_agree : Prop :=
  forall h dark nonlin hw d hw',
    spectrum drv h dark nonlin hw = (Success d, hw') -> rows_agree d.

End PhysicalSessions.
Arguments driver_rows_agree : clear implicits.

Section PhysicalAssign.
Context {drv : Driver}.

(** The [try] block of [assign_spec] runs to its end. *)
Definition assign_succeeds (w : Physical.PhysicalSpectrometer drv) : Prop :=
  fst (Physical.assign_spec_try w) = Ok tt.

(** The driver has one name, [m], for whatever it finds plugged in. *)
Definition model_is_fixed (m : string) : Prop :=
  forall h hw m' hw', spec_model drv h hw = (Success m', hw') -> m' = m.

End PhysicalAssign.
Arguments model_is_fixed : clear implicits.

(** The value of [sample_spectrum(x)] for the draw [r] of the random
    generator. *)
Definition intensity (scale add : Z) (x r : R) : R :=
  (IZR scale * (exp (-1 * ((x - 500) / 5) ^ 2) + 0.01 * r) + IZR add * 10)%R.

(** The generator after [k] draws. *)
Fixpoint advance (k : nat) (g : nat -> R) : nat -> R :=
  match k with
  | O => g
  | Datatypes.S k' => advance k' (fun n => g (Datatypes.S n))
  end.

(** The intensities of the wavelengths [wls], drawn in order from [g]. *)
Fixpoint samples (scale add : Z) (g : nat -> R) (wls : list R) : list R :=
  match wls with
  | [] => []
  | wl :: rest =>
      intensity scale add wl (g O)
      :: samples scale add (fun n => g (Datatypes.S n)) rest
  end.

(** Every draw of the generator is in [[0, 1)], as [random.random()]
    promises. *)
Definition unit_interval (g : nat -> R) : Prop :=
  forall n, (0 <= g n < 1)%R.

(** What holds of a poll wherever it has got to: the wavelengths are in
    place once it has started, each of them is drawn or still to draw, and
    what it returns has two rows of 5000; a poll stopped by an exception
    returns nothing. *)
Definition poll_invariant (sys : Interleaving.system) : Prop :=
  match Interleaving.poller sys with
  | Interleaving.PollStart => True
  | Interleaving.PollSampling todo drawn =>
      List.length (fst (Demo._spectralData (Interleaving.device sys))) = 5000%nat
      /\ (List.length todo + List.length drawn = 5000)%nat
  | Interleaving.PollReturned d =>
      List.length (fst d) = 5000%nat /\ List.length (snd d) = 5000%nat
  | Interleaving.PollStopped => True
  end.

(** The number of steps the poll still has to take. *)
Definition poll_steps_left (pc : Interleaving.poll_pc) : nat :=
  match pc with
  | Interleaving.PollStart => 5000 + 2
  | Interleaving.PollSampling todo _ => Datatypes.S (List.length todo)
  | Interleaving.PollReturned _ => 0
  | Interleaving.PollStopped => 0
  end.

Section PhysicalCallOutcomes.
Context {drv : Driver}.

(** The call comes back to its caller with a value: it neither raises nor
    waits on a lock. *)
Definition returns (m : method) (w : Physical.PhysicalSpectrometer drv)
  : Prop :=
  match m with
  | Get_spectrum => exists d, fst (Physical.get_spectrum w) = Ok d
  | Send_control_values commands =>
      exists r, fst (Physical.send_control_values commands w) = Ok r
  | Model => exists name, fst (Physical.model w) = Ok name
  | Int_time_max => exists v, fst (Physical.int_time_max w) = Ok v
  | Int_time_min => exists v, fst (Physical.int_time_min w) = Ok v
  | Assign_spec => fst (Physical.assign_spec w) = Ok tt
  end.

(** The driver never gets a device open, in whatever state the hardware
    is: nothing is listed, or listing or opening fails. *)
Definition never_opens : Prop :=
  forall hw, exists e, fst (discover (drv := drv) hw) = Failure e.

(** The fields [assign_spec] can assign are as the base initialiser left
    them. *)
Definition unassigned (w : Physical.PhysicalSpectrometer drv) : Prop :=
  Physical._spec w = None
  /\ Physical._specmodel w = ""
  /\ Physical._int_time_min w = 0
  /\ Physical._int_time_max w = 1
  /\ Physical._spectralData w = ([], []).

End PhysicalCallOutcomes.
Arguments never_opens : clear implicits.

(** A bus with no spectrometer on it: the listing is always empty. *)
Definition empty_bus : Driver := {|
  HW := unit;
  DevId := Empty_set;
  Handle := Empty_set;
  list_devices := fun w => (Success [], w);
  Spectrometer := fun d _ => match d with end;
  spec_model := fun h _ => match h with end;
  integration_time_micros_limits := fun h _ => match h with end;
  spectrum := fun h _ _ _ => match h with end;
  integration_time_micros := fun h _ _ => match h with end
|}.


(** The text of the [AttributeError] raised when the setter of the driver
    is looked up on a handle that is [None]. *)
Definition unbound_message : string :=
  "'NoneType' object has no attribute 'integration_time_micros'".


(** The calls the application can make on a simulated spectrometer. *)
Inductive demo_method : Type :=
| DGet_spectrum
| DSend_control_values (commands : dict Z)
| DModel
| DInt_time_max
| DInt_time_min
| DAssign_spec.

(** The simulated object after one call. *)
Definition demo_invoke (m : demo_method) (s : Demo.DemoSpectrometer)
  : Demo.DemoSpectrometer :=
  match m with
  | DGet_spectrum => snd (Demo.get_spectrum s)
  | DSend_control_values commands => snd (Demo.send_control_values commands s)
  | DModel => snd (Demo.model s)
  | DInt_time_max => snd (Demo.int_time_max s)
  | DInt_time_min => snd (Demo.int_time_min s)
  | DAssign_spec => snd (Demo.assign_spec s)
  end.

(** The simulated object after the calls of [calls], made in order. *)
Fixpoint demo_session (calls : list demo_method) (s : Demo.DemoSpectrometer)
  : Demo.DemoSpectrometer :=
  match calls with
  | [] => s
  | m :: calls' => demo_session calls' (demo_invoke m s)
  end.


(* ================================================================== *)
(** ** The colour file, lines 266 to 270                               *)
(* ================================================================== *)

Definition space : ascii := " "%char.

Definition newline : ascii := ascii_of_nat 10.

Definition carriage_return : ascii := ascii_of_nat 13.

(** What a file opened with [open(name, 'r')] hands to the program: the
    text of the file with every line ending, be it a carriage return and
    a newline, a carriage return alone or a newline, turned into a
    newline. *)
Fixpoint universal_newlines (text : string) : string :=
  match text with
  | EmptyString => EmptyString
  | String c text' =>
      if Ascii.eqb c carriage_return then
        match text' with
        | String c' text'' =>
            if Ascii.eqb c' newline
            then String newline (universal_newlines text'')
            else String newline (universal_newlines text')
        | EmptyString => String newline EmptyString
        end
      else String c (universal_newlines text')
  end.

(** [s.split(' ')]: the pieces between single spaces; never empty. *)
Fixpoint split_space (s : string) : list string :=
  match s with
  | EmptyString => [EmptyString]
  | String c s' =>
      if Ascii.eqb c space then EmptyString :: split_space s'
      else match split_space s' with
           | piece :: pieces => String c piece :: pieces
           | [] => [String c EmptyString]
           end
  end.

(** [s.strip('\n')]. *)
Definition strip_newline (s : string) : string :=
  string_of_list_ascii
    (rev (lstrip newline (rev (lstrip newline (list_ascii_of_string s))))).

(** [f.readlines()] of a text whose line endings are newlines: the
    lines, each with the newline that ends it. *)
Fixpoint readlines (text : string) : list string :=
  match text with
  | EmptyString => []
  | String c text' =>
      if Ascii.eqb c newline then String c EmptyString :: readlines text'
      else match readlines text' with
           | line :: lines => String c line :: lines
           | [] => [String c EmptyString]
           end
  end.

(** [pieces[i]] of a list. *)
Definition item {W A} (pieces : list A) (i : nat) : M W A :=
  match nth_error pieces i with
  | Some x => ret x
  | None => raise (IndexError "list index out of range")
  end.

(** The body of the loop:
    [colors[line.split(' ')[0]] = line.split(' ')[1].strip('\n')], the
    right-hand side first.  The state is the dictionary [colors]. *)
Definition load_color (line : string) : M (dict string) unit :=
  value <- item (split_space line) 1 ;;
  key <- item (split_space line) 0 ;;
  modify (fun colors => dict_set colors key (strip_newline value)).

Fixpoint load_lines (lines : list string) : M (dict string) unit :=
  match lines with
  | [] => ret tt
  | line :: lines' => load_color line ;;; load_lines lines'
  end.

(** The whole of lines 266 to 270 on the text of [colours.txt]: the
    outcome, and [colors] as it is left. *)
Definition load_colors (text : string) : outcome unit * dict string :=
  load_lines (readlines (universal_newlines text)) [].

(** Whether the character occurs in the string. *)
Fixpoint occurs (c : ascii) (s : string) : bool :=
  match s with
  | EmptyString => false
  | String x s' => Ascii.eqb x c || occurs c s'
  end.

(** A word: no space, no newline and no carriage return in it. *)
Definition word (s : string) : bool :=
  negb (occurs space s) && negb (occurs newline s)
  && negb (occurs carriage_return s).

(** The text of a colour file that lists the entries of [d], one per
    line. *)
Fixpoint colour_file (d : dict string) : string :=
  match d with
  | [] => EmptyString
  | (k, v) :: d' =>
      k ++ String space v ++ String newline (colour_file d')
  end.

(** All keys and values of [d] are words. *)
Fixpoint words (d : dict string) : bool :=
  match d with
  | [] => true
  | (k, v) :: d' => word k && word v && words d'
  end.


(* ================================================================== *)
(** ** The other callbacks                                             *)
(* ================================================================== *)

(** The style dictionaries of [update_button_disable_enable]. *)
Record ButtonStyle : Type := {
  style_color : string;
  style_backgroundColor : string;
  style_cursor : string
}.

(** [update_button_disable_enable], with [colors] as the module
    loaded it, [now] for [int(time.time() * 1000)] and [timestamp] for
    [int(args[-1])], the time of the last click.  Both styles are built
    before the test. *)
Definition update_button_disable_enable {W} (colors : dict string)
  (now timestamp : Z) : M W ButtonStyle :=
  accent <- subscript colors "accent" ;;
  background <- subscript colors "background" ;;
  let disabled := {| style_color := accent;
                     style_backgroundColor := background;
                     style_cursor := "not-allowed" |} in
  background' <- subscript colors "background" ;;
  accent' <- subscript colors "accent" ;;
  let enabled := {| style_color := background';
                    style_backgroundColor := accent';
                    style_cursor := "pointer" |} in
  if (now - timestamp <? 500) && (0 <? timestamp)
  then ret disabled else ret enabled.

(** An axis dictionary of [update_plot]; [axis_range] is the key
    ['range'], absent until the plot is autoscaled. *)
Record Axis : Type := {
  axis_title : string;
  axis_titlefont_family : string;
  axis_titlefont_color : string;
  axis_tickfont_color : string;
  axis_dtick : option Z;
  axis_color : string;
  axis_gridcolor : string;
  axis_range : option (R * R)
}.

Definition set_axis_range (r : R * R) (a : Axis) : Axis :=
  {| axis_title := axis_title a;
     axis_titlefont_family := axis_titlefont_family a;
     axis_titlefont_color := axis_titlefont_color a;
     axis_tickfont_color := axis_tickfont_color a;
     axis_dtick := axis_dtick a;
     axis_color := axis_color a;
     axis_gridcolor := axis_gridcolor a;
     axis_range := Some r |}.

(** The arguments of [go.Scatter]. *)
Record Scatter : Type := {
  scatter_x : list R;
  scatter_y : list R;
  scatter_name : string;
  scatter_mode : string;
  scatter_line_width : Z;
  scatter_line_color : string
}.

(** The arguments of [go.Layout]. *)
Record Layout : Type := {
  layout_height : Z;
  layout_font_family : string;
  layout_font_size : Z;
  layout_margin_t : Z;
  layout_titlefont_family : string;
  layout_titlefont_color : string;
  layout_titlefont_size : Z;
  layout_xaxis : Axis;
  layout_yaxis : Axis;
  layout_paper_bgcolor : string;
  layout_plot_bgcolor : string
}.

Record Figure : Type := {
  figure_data : list Scatter;
  figure_layout : Layout
}.

(** [min(values)] and [max(values)] of a sequence; the text of the
    [ValueError] is the one of CPython up to 3.11. *)
Definition py_min {W} (values : list R) : M W R :=
  match values with
  | [] => raise (ValueError "min() arg is an empty sequence")
  | x :: rest => ret (fold_left Rmin rest x)
  end.

Definition py_max {W} (values : list R) : M W R :=
  match values with
  | [] => raise (ValueError "max() arg is an empty sequence")
  | x :: rest => ret (fold_left Rmax rest x)
  end.

Section Plot.
Context {S : Type} {spec : DashOceanOpticsSpectrometer S}.

(** Lines 569 to 575: what is plotted. *)
Definition plotted (on : bool) : M S spectral_data :=
  if on then
    spectrum <- get_spectrum ;;
    ret (fst spectrum, snd spectrum)
  else
    ret (linspace 400 900 5000,
         map (fun _ => 0%R) (linspace 400 900 5000)).

(** Lines 577 to 586: the ranges, when the power and the autoscale are
    on. *)
Definition autoscale (on auto_range : bool) (wavelengths intensities : list R)
  (x_axis y_axis : Axis) : M S (Axis * Axis) :=
  if on then
    if auto_range then
      x_lo <- py_min wavelengths ;;
      x_hi <- py_max wavelengths ;;
      y_lo <- py_min intensities ;;
      y_hi <- py_max intensities ;;
      ret (set_axis_range (x_lo, x_hi) x_axis,
           set_axis_range (y_lo, y_hi) y_axis)
    else ret (x_axis, y_axis)
  else ret (x_axis, y_axis).

(** [update_plot(_, on, auto_range)]. *)
Definition update_plot (colors : dict string) (n_intervals : Z)
  (on auto_range : bool) : M S Figure :=
  x_title_color <- subscript colors "secondary" ;;
  x_tick_color <- subscript colors "tertiary" ;;
  x_color <- subscript colors "secondary" ;;
  x_grid <- subscript colors "grid-colour" ;;
  let x_axis := {| axis_title := "Wavelength (nm)";
                   axis_titlefont_family := "Helvetica, sans-serif";
                   axis_titlefont_color := x_title_color;
                   axis_tickfont_color := x_tick_color;
                   axis_dtick := Some 100;
                   axis_color := x_color;
                   axis_gridcolor := x_grid;
                   axis_range := None |} in
  y_title_color <- subscript colors "secondary" ;;
  y_tick_color <- subscript colors "tertiary" ;;
  y_color <- subscript colors "secondary" ;;
  y_grid <- subscript colors "grid-colour" ;;
  let y_axis := {| axis_title := "Intensity (A.U.)";
                   axis_titlefont_family := "Helvetica, sans-serif";
                   axis_titlefont_color := y_title_color;
                   axis_tickfont_color := y_tick_color;
                   axis_dtick := None;
                   axis_color := y_color;
                   axis_gridcolor := y_grid;
                   axis_range := None |} in
  data <- plotted on ;;
  let wavelengths := fst data in
  let intensities := snd data in
  axes <- autoscale on auto_range wavelengths intensities x_axis y_axis ;;
  line_color <- subscript colors "accent" ;;
  let trace := {| scatter_x := wavelengths;
                  scatter_y := intensities;
                  scatter_name := "Spectrometer readings";
                  scatter_mode := "lines";
                  scatter_line_width := 1;
                  scatter_line_color := line_color |} in
  title_color <- subscript colors "primary" ;;
  paper <- subscript colors "background" ;;
  plot <- subscript colors "background" ;;
  ret {| figure_data := [trace];
         figure_layout :=
           {| layout_height := 600;
              layout_font_family := "Helvetica Neue, sans-serif";
              layout_font_size := 12;
              layout_margin_t := 20;
              layout_titlefont_family := "Helvetica, sans-serif";
              layout_titlefont_color := title_color;
              layout_titlefont_size := 26;
              layout_xaxis := fst axes;
              layout_yaxis := snd axes;
              layout_paper_bgcolor := paper;
              layout_plot_bgcolor := plot |} |}.

End Plot.

(** The colours [update_plot] and the button ask for are all there. *)
Definition themed (colors : dict string) : bool :=
  forallb (dict_mem colors)
    ["secondary"; "tertiary"; "grid-colour"; "accent"; "primary";
     "background"].

(** A theme to run the callbacks with. *)
Definition theme : dict string :=
  [("primary", "#ffffff"); ("secondary", "#cccccc"); ("tertiary", "#999999");
   ("accent", "#FF9900"); ("background", "#1b1b1b");
   ("grid-colour", "#444444")].

(* ================================================================== *)
(** * Properties                                                       *)
(* ================================================================== *)

(** ** Dictionaries *)

#[local] Arguments String.eqb : simpl never.

Lemma dict_get_set_same {V} (d : dict V) k v :
  dict_get (dict_set d k v) k = Some v.
Proof.
  induction d as [|[k' v'] d IH]; cbn.
  - now rewrite String.eqb_refl.
  - destruct (String.eqb k' k) eqn:E; cbn; rewrite E; auto.
Qed.

Lemma dict_get_set_other {V} (d : dict V) k k' v :
  k <> k' -> dict_get (dict_set d k v) k' = dict_get d k'.
Proof.
  intros Hne. induction d as [|[k0 v0] d IH]; cbn.
  - destruct (String.eqb_spec k k'); congruence.
  - destruct (String.eqb_spec k0 k) as [->|Hk]; cbn.
    + destruct (String.eqb_spec k k'); congruence.
    + now rewrite IH.
Qed.

Lemma dict_mem_set_same {V} (d : dict V) k v :
  dict_mem (dict_set d k v) k = true.
Proof. unfold dict_mem. now rewrite dict_get_set_same. Qed.

Lemma dict_mem_set_other {V} (d : dict V) k k' v :
  k <> k' -> dict_mem (dict_set d k v) k' = dict_mem d k'.
Proof. intros. unfold dict_mem. now rewrite dict_get_set_other. Qed.

Lemma dict_get_in_keys {V} (d : dict V) k :
  In k (dict_keys d) -> exists v, dict_get d k = Some v.
Proof.
  induction d as [|[k' v'] d IH]; cbn; [tauto|].
  intros [->|Hin].
  - rewrite String.eqb_refl. eauto.
  - destruct (String.eqb k' k); eauto.
Qed.

Lemma dict_get_not_in_keys {V} (d : dict V) k :
  ~ In k (dict_keys d) -> dict_get d k = None.
Proof.
  induction d as [|[k' v'] d IH]; cbn; [reflexivity|].
  intros Hn. destruct (String.eqb_spec k' k); [tauto|]. apply IH. tauto.
Qed.

(** ** The loop of [send_control_values], whatever the dispatch *)

Section Loop.
Context {W : Type}.
Variable dispatch : string -> M W (string + string).

(** [inv] holds between iterations, and from such a state a dispatch
    comes back with an entry for one of the two dictionaries. *)
Variable inv : W -> Prop.
Hypothesis dispatch_returns :
  forall ctrl_id w, inv w ->
    exists r w', dispatch ctrl_id w = (Ok r, w') /\ inv w'.

Lemma loop_records_each_once :
  forall ids failed succeeded w,
    inv w ->
    NoDup ids ->
    (forall k, In k ids ->
       dict_mem failed k = false /\ dict_mem succeeded k = false) ->
    (forall k, dict_mem failed k = true -> dict_mem succeeded k = false) ->
    exists failed' succeeded' w',
      loop dispatch ids failed succeeded w = (Ok (failed', succeeded'), w')
      /\ inv w'
      /\ (forall k, In k ids ->
            xorb (dict_mem failed' k) (dict_mem succeeded' k) = true)
      /\ (forall k, ~ In k ids ->
            dict_mem failed' k = dict_mem failed k
            /\ dict_mem succeeded' k = dict_mem succeeded k)
      /\ (forall k, dict_mem failed' k = true -> dict_mem succeeded' k = false).
Proof.
  induction ids as [|id rest IH]; intros failed succeeded w Hinv Hnd Hfresh Hdisj.
  - exists failed, succeeded, w. cbn. repeat split; auto.
  - inversion Hnd as [|? ? Hnotin Hnd']; subst.
    destruct (dispatch_returns id w Hinv) as (r & w1 & Hd & Hinv1).
    destruct (Hfresh id (or_introl eq_refl)) as [Hf Hs].
    assert (Hrest : forall k, In k rest -> k <> id) by (intros k Hk ->; tauto).
    cbn [loop]. unfold bind at 1. rewrite Hd.
    destruct r as [s|e].
    + destruct (IH failed (dict_set succeeded id s) w1 Hinv1 Hnd')
        as (f' & s' & w' & Hrun & Hinv' & Hin & Hout & Hdisj').
      * intros k Hk. destruct (Hfresh k (or_intror Hk)) as [Hfk Hsk].
        split; [assumption|].
        rewrite dict_mem_set_other; [assumption|]. intros ->. tauto.
      * intros k Hk. destruct (String.eqb_spec id k) as [->|Hne].
        -- congruence.
        -- rewrite dict_mem_set_other by assumption. auto.
      * exists f', s', w'. repeat split; auto.
        -- intros k [<-|Hk]; [|auto].
           destruct (Hout id Hnotin) as [-> ->].
           now rewrite Hf, dict_mem_set_same.
        -- destruct (Hout k) as [-> _]; [cbn in *; tauto|]. reflexivity.
        -- destruct (Hout k) as [_ ->]; [cbn in *; tauto|].
           apply dict_mem_set_other. intros ->. cbn in *. tauto.
    + destruct (IH (dict_set failed id e) succeeded w1 Hinv1 Hnd')
        as (f' & s' & w' & Hrun & Hinv' & Hin & Hout & Hdisj').
      * intros k Hk. destruct (Hfresh k (or_intror Hk)) as [Hfk Hsk].
        split; [|assumption].
        rewrite dict_mem_set_other; [assumption|]. intros ->. tauto.
      * intros k Hk. destruct (String.eqb_spec id k) as [->|Hne].
        -- assumption.
        -- rewrite dict_mem_set_other in Hk by assumption. auto.
      * exists f', s', w'. repeat split; auto.
        -- intros k [<-|Hk]; [|auto].
           destruct (Hout id Hnotin) as [-> ->].
           now rewrite Hs, dict_mem_set_same.
        -- destruct (Hout k) as [-> _]; [cbn in *; tauto|].
           apply dict_mem_set_other. intros ->. cbn in *. tauto.
        -- destruct (Hout k) as [_ ->]; [cbn in *; tauto|]. reflexivity.
Qed.

End Loop.

(** ** Methods of [DemoSpectrometer] *)

Lemma Demo_send_loop_is_loop commands ids failed succeeded s :
  Demo.send_loop commands ids failed succeeded s
  = loop (Demo.dispatch commands) ids failed succeeded s.
Proof.
  revert failed succeeded s.
  induction ids as [|id rest IH]; intros failed succeeded s; cbn; [reflexivity|].
  unfold bind. destruct (Demo.dispatch commands id s) as [[[v|e]|e|] s1]; auto.
Qed.

(** An id the table does not know: the [KeyError] is caught, nothing is
    touched. *)
Lemma Demo_dispatch_unknown commands id s :
  dict_get (Demo.controlFunctions s) id = None ->
  Demo.dispatch commands id s = (Ok (inr (repr id)), s).
Proof.
  intros H. unfold Demo.dispatch, Demo.dispatch_try, try_except, bind, gets,
    subscript. cbn. rewrite H. reflexivity.
Qed.

(** The integration-time id: the setter stores the value. *)
Lemma Demo_dispatch_integration_time commands id v s :
  dict_get (Demo.controlFunctions s) id = Some Self_integration_time_demo ->
  dict_get commands id = Some v ->
  Demo.dispatch commands id s
  = (Ok (inl (str v)), Demo.set_sample_data_scale v s).
Proof.
  intros H Hv. unfold Demo.dispatch, Demo.dispatch_try, try_except, bind, gets,
    subscript. cbn. rewrite H. cbn. rewrite Hv. reflexivity.
Qed.

(** Whatever the id and the table, a dispatch comes back with an entry. *)
Lemma Demo_dispatch_returns commands id s :
  exists r s', Demo.dispatch commands id s = (Ok r, s') /\ True.
Proof.
  unfold Demo.dispatch, Demo.dispatch_try, try_except, bind, gets, subscript.
  cbn.
  destruct (dict_get (Demo.controlFunctions s) id) as [f|]; cbn;
    [|unfold ret; eauto 10].
  destruct f; cbn.
  - destruct (Demo._spec s) as [[]|]; cbn; unfold ret; eauto 10.
  - destruct (dict_get commands id) as [v|]; cbn; unfold ret; eauto 10.
  - destruct (dict_get commands id) as [v|]; cbn; unfold ret; eauto 10.
Qed.

Lemma Demo_send_control_values_records_once commands s :
  NoDup (dict_keys commands) ->
  exists r s',
    Demo.send_control_values commands s = (Ok r, s')
    /\ recorded_once (dict_keys commands) r.
Proof.
  intros Hnd. unfold Demo.send_control_values.
  rewrite Demo_send_loop_is_loop.
  destruct (loop_records_each_once (Demo.dispatch commands) (fun _ => True)
              (fun id w _ => Demo_dispatch_returns commands id w)
              (dict_keys commands) [] [] s I Hnd)
    as (f' & s' & w' & Hrun & _ & Hin & Hout & _); auto.
  exists (f', s'), w'. split; [assumption|].
  intros k. split; [apply Hin|]. intros Hk. destruct (Hout k Hk). auto.
Qed.

(** ** Methods of [PhysicalSpectrometer]: locks *)

Section PhysicalLocks.
Context {drv : Driver}.
Local Notation "'PS'" := (Physical.PhysicalSpectrometer drv).

Lemma quiet_ret {A} (a : A) : quiet (ret (W := PS) a).
Proof. intros w. cbn. repeat split; congruence. Qed.

Lemma quiet_raise {A} e : quiet (raise (W := PS) (A := A) e).
Proof. intros w. cbn. repeat split; congruence. Qed.

Lemma quiet_gets {A} (f : PS -> A) : quiet (gets f).
Proof. intros w. cbn. repeat split; congruence. Qed.

Lemma quiet_bind {A B} (c : M PS A) (k : A -> M PS B) :
  quiet c -> (forall a, quiet (k a)) -> quiet (bind c k).
Proof.
  intros Hc Hk w. unfold bind. destruct (Hc w) as (Hb & Hl1 & Hl2).
  destruct (c w) as [[a|e|] w1]; cbn in *.
  - destruct (Hk a w1) as (Hb' & Hl1' & Hl2'). repeat split; congruence.
  - repeat split; congruence.
  - congruence.
Qed.

Lemma quiet_call {A} (op : HW drv -> result A * HW drv) :
  quiet (Physical.call op).
Proof.
  intros w. unfold Physical.call.
  destruct (op (Physical.hw w)) as [[a|e] h]; cbn; repeat split; congruence.
Qed.

Lemma quiet_subscript {V} (d : dict V) k : quiet (subscript (W := PS) d k).
Proof.
  unfold subscript. destruct (dict_get d k); [apply quiet_ret|apply quiet_raise].
Qed.

Lemma quiet_spec_attr attr : quiet (Physical.spec_attr (drv := drv) attr).
Proof.
  intros w. unfold Physical.spec_attr.
  destruct (Physical._spec w); cbn; repeat split; congruence.
Qed.

Lemma quiet_first_device (devices : list (DevId drv)) :
  quiet (Physical.first_device (W := PS) devices).
Proof.
  destruct devices; [apply quiet_raise|apply quiet_ret].
Qed.

Lemma quiet_modify (f : PS -> PS) :
  (forall w, Physical.comm_lock (f w) = Physical.comm_lock w) ->
  (forall w, Physical.spec_lock (f w) = Physical.spec_lock w) ->
  quiet (modify f).
Proof. intros H1 H2 w. cbn. repeat split; auto; congruence. Qed.

Lemma quiet_eval_bind {B} (f : expr)
  (k : (Z -> M PS unit) -> M PS B) :
  (forall setter, (forall v, quiet (setter v)) -> quiet (k setter)) ->
  quiet (bind (Physical.eval f) k).
Proof.
  intros Hk. destruct f; cbn [Physical.eval].
  - intros w. unfold bind, Physical.spec_attr.
    destruct (Physical._spec w) as [h|]; cbn.
    + apply Hk. intros v. apply quiet_call.
    + repeat split; congruence.
  - intros w. cbn. repeat split; congruence.
  - intros w. cbn. repeat split; congruence.
Qed.

(** With the lock free, [acquire] takes it and goes on. *)
Lemma acquire_comm_free {B} (k : unit -> M PS B) w :
  Physical.comm_lock w = false ->
  bind (acquire Physical.comm_lock Physical.set_comm_lock) k w
  = k tt (Physical.set_comm_lock true w).
Proof. intros H. unfold bind, acquire. now rewrite H. Qed.

Lemma acquire_spec_free {B} (k : unit -> M PS B) w :
  Physical.spec_lock w = false ->
  bind (acquire Physical.spec_lock Physical.set_spec_lock) k w
  = k tt (Physical.set_spec_lock true w).
Proof. intros H. unfold bind, acquire. now rewrite H. Qed.

(** The pattern of every driver access: take the communication lock, run
    [body] under [except Exception], release the lock in [finally].  From
    a state where the lock is free the whole comes back, with the value of
    [body] or of the handler, and the lock free again. *)
Lemma under_comm_lock {A} (body : M PS A) (handler : exn -> A) w :
  quiet body ->
  Physical.comm_lock w = false ->
  exists a,
    try_finally
      (try_except
         (acquire Physical.comm_lock Physical.set_comm_lock ;;; body)
         (fun e => ret (handler e)))
      (release Physical.comm_lock Physical.set_comm_lock) w
    = (Ok a,
       Physical.set_comm_lock false
         (snd (body (Physical.set_comm_lock true w))))
    /\ (forall x, fst (body (Physical.set_comm_lock true w)) = Ok x -> a = x)
    /\ (forall e, fst (body (Physical.set_comm_lock true w)) = Raise e ->
          a = handler e).
Proof.
  intros Hq Hfree.
  unfold try_finally, try_except. rewrite acquire_comm_free by assumption.
  destruct (Hq (Physical.set_comm_lock true w)) as (Hb & Hl & _).
  destruct (body (Physical.set_comm_lock true w)) as [[a|e|] w1]; cbn in *.
  - unfold release. rewrite Hl. exists a. repeat split; congruence.
  - unfold release. rewrite Hl. exists (handler e). repeat split; congruence.
  - congruence.
Qed.

End PhysicalLocks.

(** ** Methods of [PhysicalSpectrometer]: what they leave alone *)

Section PhysicalFrame.
Context {drv : Driver} {X : Type}.
Variable f : Physical.PhysicalSpectrometer drv -> X.
Local Notation "'PS'" := (Physical.PhysicalSpectrometer drv).

Lemma keeps_ret {A} (a : A) : keeps f (ret a).
Proof. intros w. reflexivity. Qed.

Lemma keeps_raise {A} e : keeps f (raise (A := A) e).
Proof. intros w. reflexivity. Qed.

Lemma keeps_gets {A} (g : PS -> A) : keeps f (gets g).
Proof. intros w. reflexivity. Qed.

Lemma keeps_bind {A B} (c : M PS A) (k : A -> M PS B) :
  keeps f c -> (forall a, keeps f (k a)) -> keeps f (bind c k).
Proof.
  intros Hc Hk w. unfold bind. specialize (Hc w).
  destruct (c w) as [[a|e|] w1]; cbn in *; auto.
  now rewrite Hk.
Qed.

Lemma keeps_try_except {A} (body : M PS A) handler :
  keeps f body -> (forall e, keeps f (handler e)) ->
  keeps f (try_except body handler).
Proof.
  intros Hc Hk w. unfold try_except. specialize (Hc w).
  destruct (body w) as [[a|e|] w1]; cbn in *; auto.
  now rewrite Hk.
Qed.

Lemma keeps_try_finally {A} (body : M PS A) fin :
  keeps f body -> keeps f fin -> keeps f (try_finally body fin).
Proof.
  intros Hc Hk w. unfold try_finally. specialize (Hc w).
  destruct (body w) as [[a|e|] w1]; cbn in *; auto;
    specialize (Hk w1); destruct (fin w1) as [[[]|e'|] w2]; cbn in *;
    congruence.
Qed.

Lemma keeps_modify (g : PS -> PS) :
  (forall w, f (g w) = f w) -> keeps f (modify g).
Proof. intros H w. apply H. Qed.

Lemma keeps_call {A} (op : HW drv -> result A * HW drv) :
  (forall h w, f (Physical.set_hw h w) = f w) -> keeps f (Physical.call op).
Proof.
  intros H w. unfold Physical.call.
  destruct (op (Physical.hw w)) as [[a|e] h]; cbn; apply H.
Qed.

Lemma keeps_subscript {V} (d : dict V) k : keeps f (subscript d k).
Proof.
  unfold subscript. destruct (dict_get d k); [apply keeps_ret|apply keeps_raise].
Qed.

Lemma keeps_spec_attr attr : keeps f (Physical.spec_attr attr).
Proof.
  intros w. unfold Physical.spec_attr. destruct (Physical._spec w); reflexivity.
Qed.

Lemma keeps_first_device (devices : list (DevId drv)) :
  keeps f (Physical.first_device devices).
Proof. destruct devices; [apply keeps_raise|apply keeps_ret]. Qed.

Lemma keeps_acquire get set :
  (forall b w, f (set b w) = f w) -> keeps f (acquire get set).
Proof. intros H w. unfold acquire. destruct (get w); cbn; auto. Qed.

Lemma keeps_release get set :
  (forall b w, f (set b w) = f w) -> keeps f (release get set).
Proof. intros H w. unfold release. destruct (get w); cbn; auto. Qed.

Lemma keeps_eval_bind {B} (e : expr) (k : (Z -> M PS unit) -> M PS B) :
  (forall h w, f (Physical.set_hw h w) = f w) ->
  (forall setter, (forall v, keeps f (setter v)) -> keeps f (k setter)) ->
  keeps f (bind (Physical.eval e) k).
Proof.
  intros Hhw Hk. destruct e; cbn [Physical.eval].
  - intros w. unfold bind, Physical.spec_attr.
    destruct (Physical._spec w) as [h|]; cbn; [|reflexivity].
    apply Hk. intros v. now apply keeps_call.
  - intros w. reflexivity.
  - intros w. reflexivity.
Qed.

End PhysicalFrame.

(** Discharges [keeps f c] for a method body [c] that never assigns the
    part [f]. *)
Ltac frame :=
  repeat first
    [ apply keeps_ret | apply keeps_raise | apply keeps_gets
    | apply keeps_subscript | apply keeps_spec_attr
    | apply keeps_first_device
    | apply keeps_call; intros; reflexivity
    | apply keeps_modify; intros; reflexivity
    | apply keeps_acquire; intros; reflexivity
    | apply keeps_release; intros; reflexivity
    | apply keeps_try_finally
    | apply keeps_try_except; [|intros ?]
    | apply keeps_eval_bind; [intros; reflexivity|intros ? ?]
    | apply keeps_bind; [|intros ?]
    | solve [auto] ].

(** Discharges [quiet c] for a method body [c] that takes no lock. *)
Ltac hush :=
  repeat first
    [ apply quiet_ret | apply quiet_raise | apply quiet_gets
    | apply quiet_subscript | apply quiet_spec_attr
    | apply quiet_first_device
    | apply quiet_call
    | apply quiet_modify; intros; reflexivity
    | apply quiet_eval_bind; intros ? ?
    | apply quiet_bind; [|intros ?]
    | solve [auto] ].

Section PhysicalMethods.
Context {drv : Driver}.
Local Notation "'PS'" := (Physical.PhysicalSpectrometer drv).

Lemma set_comm_lock_back (w : PS) :
  Physical.comm_lock w = false ->
  Physical.set_comm_lock false w = w.
Proof. destruct w; cbn. now intros ->. Qed.

Lemma assign_spec_keeps_spectralData :
  keeps Physical._spectralData (Physical.assign_spec (drv := drv)).
Proof. unfold Physical.assign_spec, Physical.assign_spec_try. frame. Qed.

Lemma assign_spec_keeps_controlFunctions :
  keeps Physical._controlFunctions (Physical.assign_spec (drv := drv)).
Proof. unfold Physical.assign_spec, Physical.assign_spec_try. frame. Qed.

Lemma assign_spec_keeps_spec_lock :
  keeps Physical.spec_lock (Physical.assign_spec (drv := drv)).
Proof. unfold Physical.assign_spec, Physical.assign_spec_try. frame. Qed.

(** [assign_spec] comes back, without an exception, from every state in
    which the communication lock is free, and frees it again. *)
Lemma assign_spec_returns (w : PS) :
  Physical.comm_lock w = false ->
  exists w',
    Physical.assign_spec w = (Ok tt, w')
    /\ Physical.comm_lock w' = false.
Proof.
  intros Hfree. unfold Physical.assign_spec, Physical.assign_spec_try.
  match goal with
  | |- context [try_except (bind (acquire _ _) (fun _ => ?body)) _] =>
      destruct (under_comm_lock body (fun _ => tt) w) as (a & Hrun & _);
        [hush|assumption|]
  end.
  destruct a. rewrite Hrun. eexists. split; [reflexivity|reflexivity].
Qed.

End PhysicalMethods.

(** ** The loop again: an entry that fails and touches nothing *)

Lemma dict_keys_without {V} id (d : dict V) :
  dict_keys (without id d) = filter (fun k => negb (String.eqb k id)) (dict_keys d).
Proof.
  unfold dict_keys, without.
  induction d as [|[k v] d IH]; cbn; [reflexivity|].
  destruct (String.eqb k id); cbn; now rewrite IH.
Qed.

Lemma dict_get_without {V} id (d : dict V) k :
  k <> id -> dict_get (without id d) k = dict_get d k.
Proof.
  intros Hne. unfold without.
  induction d as [|[k0 v] d IH]; cbn; [reflexivity|].
  destruct (String.eqb_spec k0 id) as [->|Hk0]; cbn.
  - destruct (String.eqb_spec id k); congruence.
  - now rewrite IH.
Qed.

Lemma agree_off_set {V} id (d1 d2 : dict V) k v :
  agree_off id d1 d2 -> agree_off id (dict_set d1 k v) (dict_set d2 k v).
Proof.
  intros H k' Hk'. destruct (String.eqb_spec k k') as [->|Hne].
  - now rewrite !dict_get_set_same.
  - rewrite !dict_get_set_other by assumption. auto.
Qed.

Lemma agree_off_set_left {V} id (d1 d2 : dict V) v :
  agree_off id d1 d2 -> agree_off id (dict_set d1 id v) d2.
Proof.
  intros H k Hk. rewrite dict_get_set_other by congruence. auto.
Qed.

Section LoopSkip.
Context {W : Type}.
Variables dispatch1 dispatch2 : string -> M W (string + string).
Variable inv : W -> Prop.
Variable id : string.
Variable e : string.

Hypothesis dispatch_id_fails :
  forall w, inv w -> dispatch1 id w = (Ok (inr e), w).
Hypothesis dispatch_others :
  forall k w, k <> id -> dispatch1 k w = dispatch2 k w.
Hypothesis dispatch_returns :
  forall k w, inv w -> exists r w', dispatch1 k w = (Ok r, w') /\ inv w'.

(** Leaving the entry of [id] out of the batch changes nothing for the
    other entries, nor for the object. *)
Lemma loop_skips_failed_entry :
  forall ids f1 s1 f2 s2 w,
    inv w -> agree_off id f1 f2 -> agree_off id s1 s2 ->
    exists f1' s1' f2' s2' w',
      loop dispatch1 ids f1 s1 w = (Ok (f1', s1'), w')
      /\ loop dispatch2 (filter (fun k => negb (String.eqb k id)) ids) f2 s2 w
         = (Ok (f2', s2'), w')
      /\ agree_off id f1' f2' /\ agree_off id s1' s2' /\ inv w'.
Proof.
  induction ids as [|k rest IH]; intros f1 s1 f2 s2 w Hinv Hf Hs.
  - exists f1, s1, f2, s2, w. cbn. auto.
  - cbn [loop filter]. destruct (String.eqb_spec k id) as [->|Hne]; cbn [negb].
    + unfold bind at 1. rewrite dispatch_id_fails by assumption.
      apply IH; auto using agree_off_set_left.
    + cbn [loop]. unfold bind. rewrite <- dispatch_others by assumption.
      destruct (dispatch_returns k w Hinv) as (r & w1 & Hd & Hinv1).
      rewrite Hd. destruct r as [v|v]; apply IH; auto using agree_off_set.
Qed.

(** And the failing entry is reported, with its description. *)
Lemma loop_reports_failed_entry :
  forall ids f1 s1 w,
    inv w -> In id ids \/ dict_get f1 id = Some e ->
    exists f1' s1' w',
      loop dispatch1 ids f1 s1 w = (Ok (f1', s1'), w')
      /\ dict_get f1' id = Some e.
Proof.
  induction ids as [|k rest IH]; intros f1 s1 w Hinv Hin.
  - exists f1, s1, w. cbn in *. intuition.
  - cbn [loop]. unfold bind at 1.
    destruct (String.eqb_spec k id) as [->|Hne].
    + rewrite dispatch_id_fails by assumption.
      apply IH; [assumption|]. right. apply dict_get_set_same.
    + destruct (dispatch_returns k w Hinv) as (r & w1 & Hd & Hinv1).
      rewrite Hd. destruct r as [v|v]; apply IH; auto.
      * destruct Hin as [[?|?]|?]; [congruence|auto..].
      * destruct Hin as [[?|?]|?]; [congruence|auto|].
        right. now rewrite dict_get_set_other.
Qed.

End LoopSkip.

(** ** [PhysicalSpectrometer.send_control_values] *)

Section PhysicalSend.
Context {drv : Driver}.
Local Notation "'PS'" := (Physical.PhysicalSpectrometer drv).

Lemma Physical_send_loop_is_loop commands ids failed succeeded (w : PS) :
  Physical.send_loop commands ids failed succeeded w
  = loop (Physical.dispatch commands) ids failed succeeded w.
Proof.
  revert failed succeeded w.
  induction ids as [|id rest IH]; intros failed succeeded w; cbn; [reflexivity|].
  unfold bind. destruct (Physical.dispatch commands id w) as [[[v|e]|e|] w1]; auto.
Qed.

(** One iteration, from a state where the communication lock is free:
    it comes back with an entry and the lock is free again. *)
Lemma Physical_dispatch_returns commands id (w : PS) :
  Physical.comm_lock w = false ->
  exists r w',
    Physical.dispatch commands id w = (Ok r, w')
    /\ Physical.comm_lock w' = false.
Proof.
  intros Hfree.
  unfold Physical.dispatch, Physical.dispatch_try, try_finally, try_except.
  unfold bind at 1. rewrite acquire_comm_free by assumption.
  match goal with
  | |- context [match ?body (Physical.set_comm_lock true w) with _ => _ end] =>
      assert (Hq : quiet body) by hush;
      destruct (Hq (Physical.set_comm_lock true w)) as (Hb & Hl & _);
      destruct (body (Physical.set_comm_lock true w)) as [[a|e|] w1]
  end; cbn in *; try congruence.
  - unfold release. rewrite Hl. cbn. eauto.
  - unfold release. rewrite Hl. cbn. eauto.
Qed.

(** An id the table does not know: the [KeyError] is caught before the
    driver is reached, and the object is as it was. *)
Lemma Physical_dispatch_unknown commands id (w : PS) :
  Physical.comm_lock w = false ->
  dict_get (Physical._controlFunctions w) id = None ->
  Physical.dispatch commands id w = (Ok (inr (strip_b (repr id))), w).
Proof.
  intros Hfree Hnone.
  unfold Physical.dispatch, Physical.dispatch_try, try_finally, try_except.
  unfold bind at 1. rewrite acquire_comm_free by assumption.
  unfold bind, gets, subscript. cbn. rewrite Hnone. cbn.
  rewrite <- (set_comm_lock_back w) at 2 by assumption.
  destruct w; reflexivity.
Qed.

(** A dispatch reads the batch only at its own id. *)
Lemma Physical_dispatch_ext commands1 commands2 id (w : PS) :
  dict_get commands1 id = dict_get commands2 id ->
  Physical.dispatch commands1 id w = Physical.dispatch commands2 id w.
Proof.
  intros H. unfold Physical.dispatch, Physical.dispatch_try, subscript.
  now rewrite H.
Qed.

Lemma Physical_send_control_values_returns commands (w : PS) :
  Physical.comm_lock w = false ->
  exists r w',
    Physical.send_control_values commands w = (Ok r, w')
    /\ Physical.comm_lock w' = false.
Proof.
  intros Hfree. unfold Physical.send_control_values.
  generalize (@nil (string * string)) at 1 as failed.
  generalize (@nil (string * string)) as succeeded.
  revert w Hfree.
  induction (dict_keys commands) as [|id rest IH]; intros w Hfree succeeded failed.
  - cbn. unfold ret. eauto.
  - cbn [Physical.send_loop]. unfold bind.
    destruct (Physical_dispatch_returns commands id w Hfree) as (r & w1 & E & H1).
    rewrite E. destruct r; apply IH; assumption.
Qed.

Lemma Physical_send_control_values_records_once commands (w : PS) :
  Physical.comm_lock w = false ->
  NoDup (dict_keys commands) ->
  exists r w',
    Physical.send_control_values commands w = (Ok r, w')
    /\ Physical.comm_lock w' = false
    /\ recorded_once (dict_keys commands) r.
Proof.
  intros Hfree Hnd. unfold Physical.send_control_values.
  rewrite Physical_send_loop_is_loop.
  destruct (loop_records_each_once (Physical.dispatch commands)
              (fun w => Physical.comm_lock w = false)
              (Physical_dispatch_returns commands)
              (dict_keys commands) [] [] w Hfree Hnd)
    as (f' & s' & w' & Hrun & Hfree' & Hin & Hout & _); auto.
  exists (f', s'), w'. split; [assumption|]. split; [assumption|].
  intros k. split; [apply Hin|]. intros Hk. destruct (Hout k Hk). auto.
Qed.

End PhysicalSend.

Lemma Demo_dispatch_ext commands1 commands2 id s :
  dict_get commands1 id = dict_get commands2 id ->
  Demo.dispatch commands1 id s = Demo.dispatch commands2 id s.
Proof.
  intros H. unfold Demo.dispatch, Demo.dispatch_try, subscript. now rewrite H.
Qed.

Lemma distinct_NoDup ids : distinct ids = true -> NoDup ids.
Proof.
  induction ids as [|k rest IH]; cbn; [constructor|].
  intros H. apply andb_prop in H as [Hk Hrest]. constructor; auto.
  intros Hin. apply negb_true_iff in Hk.
  assert (existsb (String.eqb k) rest = true); [|congruence].
  apply existsb_exists. exists k. split; [assumption|apply String.eqb_refl].
Qed.

(** ** Objects between two calls *)

Lemma Demo_new_ready g :
  fst (Demo.new g) = Ok tt /\ demo_ready (snd (Demo.new g)).
Proof. repeat split. Qed.

Lemma Demo_dispatch_keeps_ready commands id s :
  demo_ready s -> demo_ready (snd (Demo.dispatch commands id s)).
Proof.
  intros [Ht Ha].
  unfold Demo.dispatch, Demo.dispatch_try, try_except, bind, gets, subscript.
  cbn. rewrite Ht. unfold Demo.control_table. cbn.
  destruct (String.eqb integration_time_input id); cbn; [|now split].
  destruct (dict_get commands id); cbn; now split.
Qed.

Lemma Demo_send_loop_keeps_ready commands ids failed succeeded s :
  demo_ready s ->
  demo_ready (snd (Demo.send_loop commands ids failed succeeded s)).
Proof.
  revert failed succeeded s.
  induction ids as [|id rest IH]; intros failed succeeded s Hr; [assumption|].
  cbn [Demo.send_loop]. unfold bind.
  pose proof (Demo_dispatch_keeps_ready commands id s Hr) as Hr1.
  destruct (Demo.dispatch commands id s) as [[[v|e]|e|] s1]; cbn in *; auto.
Qed.

Section PhysicalReady.
Context {drv : Driver}.
Local Notation "'PS'" := (Physical.PhysicalSpectrometer drv).

Lemma assign_spec_keeps_ready (w : PS) :
  physical_ready w ->
  fst (Physical.assign_spec w) = Ok tt
  /\ physical_ready (snd (Physical.assign_spec w)).
Proof.
  intros [[Hc Hs] Ht].
  destruct (assign_spec_returns w Hc) as (w' & Hrun & Hc').
  pose proof (assign_spec_keeps_spec_lock w) as Hs'.
  pose proof (assign_spec_keeps_controlFunctions w) as Ht'.
  rewrite Hrun in *. cbn in *. repeat split; congruence.
Qed.

End PhysicalReady.

Lemma Demo_dispatch_keeps_table commands id s :
  Demo.controlFunctions (snd (Demo.dispatch commands id s))
  = Demo.controlFunctions s.
Proof.
  unfold Demo.dispatch, Demo.dispatch_try, try_except, bind, gets, subscript.
  cbn.
  destruct (dict_get (Demo.controlFunctions s) id) as [f|]; cbn; [|reflexivity].
  destruct f; cbn.
  - destruct (Demo._spec s) as [[]|]; reflexivity.
  - destruct (dict_get commands id); reflexivity.
  - destruct (dict_get commands id); reflexivity.
Qed.

Lemma Physical_dispatch_keeps_table {drv} commands id :
  keeps Physical._controlFunctions (Physical.dispatch (drv := drv) commands id).
Proof. unfold Physical.dispatch, Physical.dispatch_try. frame. Qed.

(** ** The claims about [send_control_values] *)

(** C1.  Whatever the batch, [send_control_values] of either class comes
    back with its two dictionaries, and every control id of the batch is a
    key of exactly one of them (and they have no other key): no dispatch
    that fails keeps a later entry from being dispatched and recorded.  The
    batch is a dictionary (no id twice); on the physical class the
    communication lock is free when the call starts. *)
Theorem send_control_values_records_every_id_once :
  (forall commands s,
      distinct (dict_keys commands) = true ->
      exists r s',
        Demo.send_control_values commands s = (Ok r, s')
        /\ recorded_once (dict_keys commands) r)
  /\ (forall drv commands (w : Physical.PhysicalSpectrometer drv),
         Physical.comm_lock w = false ->
         distinct (dict_keys commands) = true ->
         exists r w',
           Physical.send_control_values commands w = (Ok r, w')
           /\ recorded_once (dict_keys commands) r).
Proof.
  split.
  - intros commands s Hd.
    apply Demo_send_control_values_records_once, distinct_NoDup, Hd.
  - intros drv commands w Hfree Hd.
    destruct (Physical_send_control_values_records_once commands w Hfree
                (distinct_NoDup _ Hd)) as (r & w' & Hrun & _ & Hrec).
    eauto.
Qed.

Lemma send_control_values_records_every_id_once_witness :
  (exists r s',
      Demo.send_control_values
        [("shutter", 1); (integration_time_input, 5); ("gain", 3)]
        (snd (Demo.new zeros)) = (Ok r, s')
      /\ recorded_once ["shutter"; integration_time_input; "gain"] r)
  /\ (exists r w',
         Physical.send_control_values
           [("shutter", 1); (integration_time_input, 5); ("gain", 3)]
           (snd (Physical.new (drv := bench) (plugged 20))) = (Ok r, w')
         /\ recorded_once ["shutter"; integration_time_input; "gain"] r).
Proof.
  split.
  - apply (proj1 send_control_values_records_every_id_once). reflexivity.
  - apply (proj2 send_control_values_records_every_id_once bench);
      reflexivity.
Defined.

(** C6.  On the simulated class, submitting the integration-time control
    alone with a value [v] between the bounds of the device returns [str v]
    under that id in [succeeded] and an empty [failed]; submitting 1000 to a
    new simulated device returns ["1000"].  On the physical class the same
    holds when a device is bound and its driver takes the value. *)
Theorem in_bounds_integration_time_is_reported_succeeded :
  (forall s v,
      Demo.controlFunctions s = Demo.control_table ->
      Demo._int_time_min s <= v <= Demo._int_time_max s ->
      exists s',
        Demo.send_control_values [(integration_time_input, v)] s
        = (Ok ([], [(integration_time_input, str v)]), s')
        /\ Demo._sample_data_scale s' = v)
  /\ (forall g,
         fst (Demo.send_control_values [(integration_time_input, 1000)]
                (snd (Demo.new g)))
         = Ok ([], [(integration_time_input, "1000")]))
  /\ (forall drv (w : Physical.PhysicalSpectrometer drv) h v,
         physical_ready w ->
         Physical._spec w = Some h ->
         Physical._int_time_min w <= v <= Physical._int_time_max w ->
         fst (integration_time_micros drv h v (Physical.hw w)) = Success tt ->
         fst (Physical.send_control_values [(integration_time_input, v)] w)
         = Ok ([], [(integration_time_input, str v)])).
Proof.
  split; [|split].
  - intros s v Ht _. unfold Demo.send_control_values. cbn [dict_keys map fst].
    cbn [Demo.send_loop]. unfold bind.
    rewrite (Demo_dispatch_integration_time _ _ v).
    + cbn. eexists. split; reflexivity.
    + rewrite Ht. reflexivity.
    + cbn. now rewrite String.eqb_refl.
  - intros g. reflexivity.
  - intros drv w h v [[Hc Hs] Ht] Hh _ Hset.
    unfold Physical.send_control_values. cbn [dict_keys map fst].
    cbn [Physical.send_loop]. unfold bind at 1.
    unfold Physical.dispatch, Physical.dispatch_try, try_finally, try_except.
    unfold bind at 1. rewrite acquire_comm_free by assumption.
    unfold bind, gets, subscript. cbn.
    rewrite Ht. unfold Physical.control_table. cbn [dict_get].
    rewrite String.eqb_refl.
    cbv [Physical.eval bind Physical.spec_attr Physical.call ret]. cbn.
    rewrite Hh. cbn.
    destruct (integration_time_micros drv h v (Physical.hw w)) as [[[]|e] hw1];
      cbn in Hset; [|discriminate].
    cbn. reflexivity.
Qed.

Lemma in_bounds_integration_time_is_reported_succeeded_witness :
  (exists s',
      Demo.send_control_values [(integration_time_input, 1)]
        (snd (Demo.new zeros))
      = (Ok ([], [(integration_time_input, "1")]), s')
      /\ Demo._sample_data_scale s' = 1)
  /\ fst (Physical.send_control_values [(integration_time_input, 5000)]
            (snd (Physical.new (drv := bench) (plugged 20))))
     = Ok ([], [(integration_time_input, "5000")]).
Proof.
  split.
  - apply (proj1 in_bounds_integration_time_is_reported_succeeded
             (snd (Demo.new zeros)) 1); [reflexivity|cbn; lia].
  - apply (proj2 (proj2 in_bounds_integration_time_is_reported_succeeded)
             bench (snd (Physical.new (drv := bench) (plugged 20))) tt 5000).
    + repeat split.
    + reflexivity.
    + cbn. lia.
    + reflexivity.
Defined.

Lemma Demo_unknown_id_reported commands s id :
  distinct (dict_keys commands) = true ->
  In id (dict_keys commands) ->
  dict_get (Demo.controlFunctions s) id = None ->
  exists r r' s',
    Demo.send_control_values commands s = (Ok r, s')
    /\ dict_get (failed_of r) id = Some (repr id)
    /\ dict_mem (succeeded_of r) id = false
    /\ Demo.send_control_values (without id commands) s = (Ok r', s')
    /\ agree_off id (failed_of r) (failed_of r')
    /\ agree_off id (succeeded_of r) (succeeded_of r').
Proof.
  intros Hd Hin Hnone.
  set (inv := fun s0 => dict_get (Demo.controlFunctions s0) id = None).
  assert (Hret : forall k w, inv w ->
            exists r w', Demo.dispatch commands k w = (Ok r, w') /\ inv w').
  { intros k w Hw. destruct (Demo_dispatch_returns commands k w) as (r & w' & E & _).
    exists r, w'. split; [assumption|]. unfold inv.
    pose proof (Demo_dispatch_keeps_table commands k w) as Hk.
    rewrite E in Hk. cbn in Hk. now rewrite Hk. }
  destruct (loop_skips_failed_entry (Demo.dispatch commands)
              (Demo.dispatch (without id commands)) inv id (repr id)
              (fun w Hw => Demo_dispatch_unknown commands id w Hw)
              (fun k w Hk => Demo_dispatch_ext _ _ k w
                               (eq_sym (dict_get_without id commands k Hk)))
              Hret (dict_keys commands) [] [] [] [] s Hnone)
    as (f1 & s1 & f2 & s2 & s' & Hrun1 & Hrun2 & Hf & Hs & _);
    [intros k _; reflexivity..|].
  destruct (loop_reports_failed_entry (Demo.dispatch commands) inv id (repr id)
              (fun w Hw => Demo_dispatch_unknown commands id w Hw)
              Hret (dict_keys commands) [] [] s Hnone (or_introl Hin))
    as (f1' & s1' & s'' & Hrun1' & Hget).
  rewrite Hrun1 in Hrun1'. injection Hrun1' as <- <- <-.
  destruct (Demo_send_control_values_records_once commands s
              (distinct_NoDup _ Hd)) as (r0 & s0 & Hrun0 & Hrec).
  unfold Demo.send_control_values in *.
  rewrite Demo_send_loop_is_loop in *. rewrite Hrun1 in Hrun0.
  injection Hrun0 as <- <-.
  exists (f1, s1), (f2, s2), s'. cbn [failed_of succeeded_of fst snd].
  repeat split; auto.
  - destruct (Hrec id) as [Hx _]. specialize (Hx Hin).
    cbn [failed_of succeeded_of fst snd] in Hx.
    unfold dict_mem in Hx at 1. rewrite Hget in Hx.
    now destruct (dict_mem s1 id).
  - rewrite Demo_send_loop_is_loop, dict_keys_without. assumption.
Qed.

Lemma Physical_unknown_id_reported {drv} commands
  (w : Physical.PhysicalSpectrometer drv) id :
  Physical.comm_lock w = false ->
  distinct (dict_keys commands) = true ->
  In id (dict_keys commands) ->
  dict_get (Physical._controlFunctions w) id = None ->
  exists r r' w',
    Physical.send_control_values commands w = (Ok r, w')
    /\ dict_get (failed_of r) id = Some (strip_b (repr id))
    /\ dict_mem (succeeded_of r) id = false
    /\ Physical.send_control_values (without id commands) w = (Ok r', w')
    /\ agree_off id (failed_of r) (failed_of r')
    /\ agree_off id (succeeded_of r) (succeeded_of r').
Proof.
  intros Hfree Hd Hin Hnone.
  set (inv := fun w0 : Physical.PhysicalSpectrometer drv =>
                Physical.comm_lock w0 = false
                /\ dict_get (Physical._controlFunctions w0) id = None).
  assert (Hinv : inv w) by (split; assumption).
  assert (Hfail : forall w0, inv w0 ->
            Physical.dispatch commands id w0
            = (Ok (inr (strip_b (repr id))), w0)).
  { intros w0 [H1 H2]. now apply Physical_dispatch_unknown. }
  assert (Hret : forall k w0, inv w0 ->
            exists r w', Physical.dispatch commands k w0 = (Ok r, w') /\ inv w').
  { intros k w0 [H1 H2].
    destruct (Physical_dispatch_returns commands k w0 H1) as (r & w' & E & H1').
    exists r, w'. split; [assumption|]. split; [assumption|].
    pose proof (Physical_dispatch_keeps_table commands k w0) as Hk.
    rewrite E in Hk. cbn in Hk. now rewrite Hk. }
  destruct (loop_skips_failed_entry (Physical.dispatch commands)
              (Physical.dispatch (without id commands)) inv id
              (strip_b (repr id)) Hfail
              (fun k w0 Hk => Physical_dispatch_ext _ _ k w0
                                (eq_sym (dict_get_without id commands k Hk)))
              Hret (dict_keys commands) [] [] [] [] w Hinv)
    as (f1 & s1 & f2 & s2 & w' & Hrun1 & Hrun2 & Hf & Hs & _);
    [intros k _; reflexivity..|].
  destruct (loop_reports_failed_entry (Physical.dispatch commands) inv id
              (strip_b (repr id)) Hfail
              Hret (dict_keys commands) [] [] w Hinv (or_introl Hin))
    as (f1' & s1' & w'' & Hrun1' & Hget).
  rewrite Hrun1 in Hrun1'. injection Hrun1' as <- <- <-.
  destruct (Physical_send_control_values_records_once commands w Hfree
              (distinct_NoDup _ Hd)) as (r0 & w0 & Hrun0 & _ & Hrec).
  unfold Physical.send_control_values in *.
  rewrite Physical_send_loop_is_loop in *. rewrite Hrun1 in Hrun0.
  injection Hrun0 as <- <-.
  exists (f1, s1), (f2, s2), w'. cbn [failed_of succeeded_of fst snd].
  repeat split; auto.
  - destruct (Hrec id) as [Hx _]. specialize (Hx Hin).
    cbn [failed_of succeeded_of fst snd] in Hx.
    unfold dict_mem in Hx at 1. rewrite Hget in Hx.
    now destruct (dict_mem s1 id).
  - rewrite Physical_send_loop_is_loop, dict_keys_without. assumption.
Qed.

(** C9.  A batch with a control id that has no entry in the table of
    control functions: [send_control_values] of either class comes back
    without an exception, that id is a key of [failed] with the text of
    the [KeyError] and is not a key of [succeeded], and all the rest is as
    if the id had not been in the batch: the same object at the end, the
    same entries for every other id. *)
Theorem unknown_control_id_is_reported_failed :
  (forall commands s id,
      distinct (dict_keys commands) = true ->
      In id (dict_keys commands) ->
      dict_get (Demo.controlFunctions s) id = None ->
      exists r r' s',
        Demo.send_control_values commands s = (Ok r, s')
        /\ dict_get (failed_of r) id = Some (repr id)
        /\ dict_mem (succeeded_of r) id = false
        /\ Demo.send_control_values (without id commands) s = (Ok r', s')
        /\ agree_off id (failed_of r) (failed_of r')
        /\ agree_off id (succeeded_of r) (succeeded_of r'))
  /\ (forall drv commands (w : Physical.PhysicalSpectrometer drv) id,
         Physical.comm_lock w = false ->
         distinct (dict_keys commands) = true ->
         In id (dict_keys commands) ->
         dict_get (Physical._controlFunctions w) id = None ->
         exists r r' w',
           Physical.send_control_values commands w = (Ok r, w')
           /\ dict_get (failed_of r) id = Some (strip_b (repr id))
           /\ dict_mem (succeeded_of r) id = false
           /\ Physical.send_control_values (without id commands) w = (Ok r', w')
           /\ agree_off id (failed_of r) (failed_of r')
           /\ agree_off id (succeeded_of r) (succeeded_of r')).
Proof.
  split.
  - exact Demo_unknown_id_reported.
  - intros drv. exact Physical_unknown_id_reported.
Qed.

(** ** [PhysicalSpectrometer]: rebinding, reading, the accessors *)

Section PhysicalCalls.
Context {drv : Driver}.
Local Notation "'PS'" := (Physical.PhysicalSpectrometer drv).

Lemma set_spec_lock_back (w : PS) :
  Physical.spec_lock w = false ->
  Physical.set_spec_lock false w = w.
Proof. destruct w; cbn. now intros ->. Qed.

(** [spec_lock.acquire(); assign_spec(); spec_lock.release()] from an idle
    object: it comes back and the object is idle again. *)
Lemma locked_assign_returns {A} (k : M PS A) (w : PS) :
  idle w ->
  exists w1,
    (acquire Physical.spec_lock Physical.set_spec_lock ;;;
     Physical.assign_spec ;;;
     release Physical.spec_lock Physical.set_spec_lock ;;; k) w
    = k w1
    /\ idle w1
    /\ w1 = Physical.set_spec_lock false
              (snd (Physical.assign_spec (Physical.set_spec_lock true w))).
Proof.
  intros [Hc Hs]. rewrite acquire_spec_free by assumption.
  destruct (assign_spec_returns (Physical.set_spec_lock true w) Hc)
    as (w' & Hrun & Hc').
  pose proof (assign_spec_keeps_spec_lock (Physical.set_spec_lock true w)) as Hs'.
  unfold bind at 1. rewrite Hrun in *. cbn in Hs'.
  unfold bind, release. rewrite Hs'.
  eexists. split; [reflexivity|]. split; [|reflexivity].
  split; cbn; auto.
Qed.

Lemma locked_assign_frame (w : PS) :
  let w1 := Physical.set_spec_lock false
              (snd (Physical.assign_spec (Physical.set_spec_lock true w))) in
  Physical._controlFunctions w1 = Physical._controlFunctions w
  /\ Physical._spectralData w1 = Physical._spectralData w.
Proof.
  cbn. rewrite assign_spec_keeps_controlFunctions, assign_spec_keeps_spectralData.
  split; reflexivity.
Qed.

Lemma rebind_if_unbound_returns (w : PS) :
  idle w ->
  exists w1,
    Physical.rebind_if_unbound w = (Ok tt, w1)
    /\ idle w1
    /\ Physical._spectralData w1 = Physical._spectralData w
    /\ Physical._controlFunctions w1 = Physical._controlFunctions w.
Proof.
  intros [Hc Hs]. unfold Physical.rebind_if_unbound.
  destruct (Physical._spec w) as [h|].
  - exists w. repeat split; assumption.
  - unfold try_finally, try_except. rewrite acquire_spec_free by assumption.
    destruct (assign_spec_returns (Physical.set_spec_lock true w) Hc)
      as (w' & Hrun & Hc').
    pose proof (assign_spec_keeps_spec_lock (Physical.set_spec_lock true w)) as Hs'.
    pose proof (assign_spec_keeps_spectralData (Physical.set_spec_lock true w)) as Hd.
    pose proof (assign_spec_keeps_controlFunctions (Physical.set_spec_lock true w)) as Ht.
    rewrite Hrun in *. cbn in Hs', Hd, Ht. unfold release. rewrite Hs'.
    eexists. split; [reflexivity|]. repeat split; cbn; assumption.
Qed.

(** The second half of [get_spectrum]: the cache takes what the driver
    hands back, and stays as it is when the driver hands back nothing. *)
Lemma read_returns (w : PS) :
  idle w ->
  exists w2,
    try_finally
      (try_except Physical.read_try (fun _ => ret tt))
      (release Physical.comm_lock Physical.set_comm_lock) w
    = (Ok tt, w2)
    /\ idle w2
    /\ Physical._controlFunctions w2 = Physical._controlFunctions w
    /\ Physical._spectralData w2
       = match driver_read w with
         | Some d => d
         | None => Physical._spectralData w
         end.
Proof.
  intros [Hc Hs].
  unfold Physical.read_try, try_finally, try_except.
  rewrite acquire_comm_free by assumption.
  unfold driver_read, bind, Physical.spec_attr, Physical.call, modify, release.
  cbn. destruct (Physical._spec w) as [h|]; cbn.
  - destruct (spectrum drv h false true (Physical.hw w)) as [[d|e] hw1]; cbn;
      eexists; (split; [reflexivity|]); repeat split; cbn; auto.
  - eexists; (split; [reflexivity|]); repeat split; cbn; auto.
Qed.

(** [get_spectrum] from an idle object. *)
Lemma Physical_get_spectrum_returns (w : PS) :
  idle w ->
  exists w',
    Physical.get_spectrum w = (Ok (Physical._spectralData w'), w')
    /\ idle w'
    /\ Physical._controlFunctions w' = Physical._controlFunctions w
    /\ Physical._spectralData w'
       = match fresh_read w with
         | Some d => d
         | None => Physical._spectralData w
         end.
Proof.
  intros Hidle. unfold Physical.get_spectrum, fresh_read.
  destruct (rebind_if_unbound_returns w Hidle) as (w1 & Hrun1 & Hidle1 & Hd1 & Ht1).
  destruct (read_returns w1 Hidle1) as (w2 & Hrun2 & Hidle2 & Ht2 & Hd2).
  unfold bind at 1. rewrite Hrun1. unfold bind at 1. rewrite Hrun2.
  exists w2. cbn. split; [reflexivity|]. split; [assumption|].
  split; [congruence|]. rewrite Hd2. now rewrite Hd1.
Qed.

Lemma Physical_send_loop_keeps {X} (f : PS -> X) commands ids failed succeeded :
  (forall c id, keeps f (Physical.dispatch (drv := drv) c id)) ->
  keeps f (Physical.send_loop (drv := drv) commands ids failed succeeded).
Proof.
  intros Hk. revert failed succeeded.
  induction ids as [|id rest IH]; intros failed succeeded.
  - apply keeps_ret.
  - cbn [Physical.send_loop]. apply keeps_bind; [apply Hk|].
    intros [v|e]; apply IH.
Qed.

Lemma Physical_dispatch_keeps_spectralData commands id :
  keeps Physical._spectralData (Physical.dispatch (drv := drv) commands id).
Proof. unfold Physical.dispatch, Physical.dispatch_try. frame. Qed.

Lemma Physical_dispatch_keeps_spec_lock commands id :
  keeps Physical.spec_lock (Physical.dispatch (drv := drv) commands id).
Proof. unfold Physical.dispatch, Physical.dispatch_try. frame. Qed.

(** Every call leaves an idle object idle, its table of control functions
    alone, and only [get_spectrum] touches the cached spectrum. *)
Lemma invoke_keeps_ready m (w : PS) :
  physical_ready w ->
  physical_ready (invoke m w)
  /\ Physical._spectralData (invoke m w)
     = match m with
       | Get_spectrum =>
           match fresh_read w with
           | Some d => d
           | None => Physical._spectralData w
           end
       | _ => Physical._spectralData w
       end.
Proof.
  intros [Hidle Ht]. destruct m; cbn [invoke].
  - destruct (Physical_get_spectrum_returns w Hidle) as (w' & Hrun & Hi & Ht' & Hd).
    rewrite Hrun. cbn. repeat split; try apply Hi; congruence.
  - destruct Hidle as [Hc Hs].
    destruct (Physical_send_control_values_returns commands w Hc)
      as (r & w' & Hrun & Hc').
    pose proof (Physical_send_loop_keeps Physical.spec_lock commands
                  (dict_keys commands) [] []
                  Physical_dispatch_keeps_spec_lock w) as Hs'.
    pose proof (Physical_send_loop_keeps Physical._controlFunctions commands
                  (dict_keys commands) [] []
                  Physical_dispatch_keeps_table w) as Ht'.
    pose proof (Physical_send_loop_keeps Physical._spectralData commands
                  (dict_keys commands) [] []
                  Physical_dispatch_keeps_spectralData w) as Hd'.
    unfold Physical.send_control_values in *. rewrite Hrun in *. cbn in *.
    repeat split; congruence.
  - destruct (locked_assign_returns (gets Physical._specmodel) w Hidle)
      as (w1 & Hrun & Hi & Hw1).
    unfold Physical.model. rewrite Hrun. cbn [gets snd].
    destruct (locked_assign_frame w) as [Ht1 Hd1]. rewrite <- Hw1 in *.
    repeat split; try apply Hi; congruence.
  - destruct (locked_assign_returns (gets Physical._int_time_max) w Hidle)
      as (w1 & Hrun & Hi & Hw1).
    unfold Physical.int_time_max. rewrite Hrun. cbn [gets snd].
    destruct (locked_assign_frame w) as [Ht1 Hd1]. rewrite <- Hw1 in *.
    repeat split; try apply Hi; congruence.
  - destruct (locked_assign_returns (gets Physical._int_time_min) w Hidle)
      as (w1 & Hrun & Hi & Hw1).
    unfold Physical.int_time_min. rewrite Hrun. cbn [gets snd].
    destruct (locked_assign_frame w) as [Ht1 Hd1]. rewrite <- Hw1 in *.
    repeat split; try apply Hi; congruence.
  - destruct (assign_spec_keeps_ready w (conj Hidle Ht)) as [_ Hr].
    split; [assumption|]. apply assign_spec_keeps_spectralData.
Qed.

End PhysicalCalls.

(** ** [PhysicalSpectrometer.assign_spec], step by step *)

Section PhysicalAssignSteps.
Context {drv : Driver}.
Local Notation "'PS'" := (Physical.PhysicalSpectrometer drv).

(** Unfolds a method body down to the driver calls. *)
Ltac unfold_body :=
  cbv [bind Physical.call Physical.first_device Physical.spec_attr modify ret
       raise gets release];
  cbn [fst snd Physical.hw Physical._spec Physical._specmodel
       Physical._spectralData Physical._controlFunctions
       Physical._int_time_max Physical._int_time_min
       Physical.comm_lock Physical.spec_lock
       Physical.set_hw Physical.set_spec Physical.set_specmodel
       Physical.set_int_time_min Physical.set_int_time_max
       Physical.set_comm_lock Physical.set_spec_lock
       Physical.set_spectralData].

(** A failure while the device is looked for and opened leaves every
    field as it was; only the hardware has moved on. *)
Lemma assign_spec_discover_fails (w : PS) e :
  Physical.comm_lock w = false ->
  fst (discover (Physical.hw w)) = Failure e ->
  Physical.assign_spec w
  = (Ok tt, Physical.set_hw (snd (discover (Physical.hw w))) w).
Proof.
  intros Hfree Hfail.
  unfold Physical.assign_spec, Physical.assign_spec_try, try_finally, try_except.
  rewrite acquire_comm_free by assumption.
  unfold discover in *. unfold_body.
  destruct (list_devices drv (Physical.hw w)) as [[[|d devices]|e0] h1];
    unfold_body.
  - destruct w; cbn in *; subst; reflexivity.
  - destruct (Spectrometer drv d h1) as [[h|e1] h2]; unfold_body;
      cbn in Hfail; [discriminate|].
    destruct w; cbn in *; subst; reflexivity.
  - destruct w; cbn in *; subst; reflexivity.
Qed.

(** The model name after [assign_spec]: the driver's, or the one
    before. *)
Lemma assign_spec_model_name (w : PS) m :
  Physical.comm_lock w = false ->
  model_is_fixed drv m ->
  (assign_succeeds w -> Physical._specmodel (snd (Physical.assign_spec w)) = m)
  /\ (Physical._specmodel (snd (Physical.assign_spec w)) = m
      \/ Physical._specmodel (snd (Physical.assign_spec w))
         = Physical._specmodel w).
Proof.
  intros Hfree Hfix.
  unfold assign_succeeds.
  unfold Physical.assign_spec, Physical.assign_spec_try, try_finally, try_except.
  rewrite !acquire_comm_free by assumption.
  unfold_body.
  destruct (list_devices drv (Physical.hw w)) as [[[|d devices]|e0] h1];
    unfold_body; try (split; [discriminate|right; reflexivity]).
  destruct (Spectrometer drv d h1) as [[h|e1] h2]; unfold_body;
    try (split; [discriminate|right; reflexivity]).
  destruct (spec_model drv h h2) as [[m'|e2] h3] eqn:Em; unfold_body;
    try (split; [discriminate|right; reflexivity]).
  apply Hfix in Em. subst m'.
  destruct (integration_time_micros_limits drv h h3) as [[lo|e3] h4];
    unfold_body; try (split; [intros _|left]; reflexivity).
  destruct (integration_time_micros_limits drv h h4) as [[hi|e4] h5];
    unfold_body; split; try intros _; try left; reflexivity.
Qed.

Lemma Physical_new_ready (h : HW drv) :
  fst (Physical.new h) = Ok tt /\ physical_ready (snd (Physical.new h)).
Proof.
  unfold Physical.new, Physical.init.
  destruct (locked_assign_returns
              (modify (Physical.set_controlFunctions Physical.control_table))
              (Physical.base_init h)) as (w1 & Hrun & Hi & _).
  { split; reflexivity. }
  rewrite Hrun. cbn. split; [reflexivity|]. split; [|reflexivity].
  destruct Hi. split; assumption.
Qed.

Lemma Physical_new_spectralData (h : HW drv) :
  Physical._spectralData (snd (Physical.new h)) = ([], []).
Proof.
  unfold Physical.new, Physical.init.
  destruct (locked_assign_returns
              (modify (Physical.set_controlFunctions Physical.control_table))
              (Physical.base_init h)) as (w1 & Hrun & _ & Hw1).
  { split; reflexivity. }
  rewrite Hrun. cbn. rewrite Hw1. cbn.
  now rewrite assign_spec_keeps_spectralData.
Qed.

(** Through a session the object stays ready between calls, and its cache
    is the spectrum the driver last handed back. *)
Lemma session_invariant calls :
  forall (w : PS) last,
    physical_ready w ->
    Physical._spectralData w = last ->
    physical_ready (fst (session calls w last))
    /\ Physical._spectralData (fst (session calls w last))
       = snd (session calls w last).
Proof.
  induction calls as [|m calls IH]; intros w last Hr Hd; cbn [session].
  - split; assumption.
  - destruct (invoke_keeps_ready m w Hr) as [Hr' Hd'].
    apply IH; [assumption|]. rewrite Hd'. destruct m; try assumption.
    now rewrite Hd.
Qed.

End PhysicalAssignSteps.

(** ** [DemoSpectrometer.get_spectrum] *)

Lemma length_linspace a b n : List.length (linspace a b n) = n.
Proof. unfold linspace. now rewrite length_map, length_seq. Qed.

Lemma length_samples scale add g wls :
  List.length (samples scale add g wls) = List.length wls.
Proof.
  revert g. induction wls as [|wl rest IH]; intros g; cbn; [reflexivity|].
  now rewrite IH.
Qed.

Lemma has_float_0 : has_float 0 = true.
Proof. reflexivity. Qed.

(** One sample, when the scale and the offset have floats. *)
Lemma Demo_sample_spectrum_eq x s :
  in_float_range s ->
  Demo.sample_spectrum x s
  = (Ok (intensity (Demo._sample_data_scale s) (Demo._sample_data_add s) x
           (Demo.rng s O)),
     Demo.set_rng (fun n => Demo.rng s (Datatypes.S n)) s).
Proof.
  intros [Hs Ha]. unfold Demo.sample_spectrum, float_of_int.
  unfold bind at 1. unfold gets at 1. unfold bind at 1.
  unfold Demo.random_random at 1. unfold bind at 1. rewrite Hs.
  unfold ret at 1. unfold bind at 1. unfold gets at 1.
  cbn [Demo._sample_data_add Demo.set_rng]. unfold bind at 1. rewrite Ha.
  unfold ret. unfold intensity. now rewrite mult_IZR.
Qed.

(** One sample, when the scale has no float: the draw is made, then the
    product raises. *)
Lemma Demo_sample_spectrum_overflow x s :
  has_float (Demo._sample_data_scale s) = false ->
  Demo.sample_spectrum x s
  = (Raise (OverflowError "int too large to convert to float"),
     Demo.set_rng (fun n => Demo.rng s (Datatypes.S n)) s).
Proof.
  intros Hs. unfold Demo.sample_spectrum, float_of_int.
  unfold bind at 1. unfold gets at 1. unfold bind at 1.
  unfold Demo.random_random at 1. unfold bind at 1. rewrite Hs.
  reflexivity.
Qed.

(** Whatever its outcome, a sample leaves the object as it was but for
    the one draw. *)
Lemma Demo_sample_spectrum_state x s :
  snd (Demo.sample_spectrum x s)
  = Demo.set_rng (fun n => Demo.rng s (Datatypes.S n)) s.
Proof.
  unfold Demo.sample_spectrum, float_of_int.
  unfold bind at 1. unfold gets at 1. unfold bind at 1.
  unfold Demo.random_random at 1. unfold bind at 1.
  destruct (has_float (Demo._sample_data_scale s)); [|reflexivity].
  unfold ret at 1. unfold bind at 1. unfold gets at 1.
  cbn [Demo._sample_data_add Demo.set_rng]. unfold bind at 1.
  destruct (has_float (Demo._sample_data_add s * 10)); reflexivity.
Qed.

Lemma Demo_sample_all_eq wls :
  forall s,
    in_float_range s ->
    Demo.sample_all wls s
    = (Ok (samples (Demo._sample_data_scale s) (Demo._sample_data_add s)
             (Demo.rng s) wls),
       Demo.set_rng (advance (List.length wls) (Demo.rng s)) s).
Proof.
  induction wls as [|wl rest IH]; intros s Hr.
  - destruct s; reflexivity.
  - cbn [Demo.sample_all]. unfold bind at 1.
    rewrite Demo_sample_spectrum_eq by assumption.
    unfold bind at 1. rewrite IH by exact Hr. reflexivity.
Qed.

(** Whatever its outcome, the comprehension leaves the object as it was
    but for the draws it made. *)
Lemma Demo_sample_all_state wls :
  forall s,
    exists k,
      snd (Demo.sample_all wls s) = Demo.set_rng (advance k (Demo.rng s)) s.
Proof.
  induction wls as [|wl rest IH]; intros s.
  - exists O. destruct s; reflexivity.
  - cbn [Demo.sample_all]. unfold bind at 1.
    pose proof (Demo_sample_spectrum_state wl s) as H1.
    destruct (Demo.sample_spectrum wl s) as [[y|e|] s1]; cbn [snd] in H1;
      subst s1; try (exists 1%nat; reflexivity).
    unfold bind at 1.
    destruct (IH (Demo.set_rng (fun n => Demo.rng s (Datatypes.S n)) s))
      as [k Hk].
    destruct (Demo.sample_all rest _) as [[ys|e|] s2]; cbn [snd] in Hk;
      subst s2; exists (Datatypes.S k); reflexivity.
Qed.

(** [get_spectrum] in full: the fixed wavelengths, and one intensity per
    wavelength at the scale the object holds. *)
Lemma Demo_get_spectrum_eq s :
  in_float_range s ->
  exists s',
    Demo.get_spectrum s
    = (Ok (linspace 400 900 5000,
           samples (Demo._sample_data_scale s) (Demo._sample_data_add s)
             (Demo.rng s) (linspace 400 900 5000)), s')
    /\ Demo._sample_data_scale s' = Demo._sample_data_scale s
    /\ Demo._sample_data_add s' = Demo._sample_data_add s
    /\ Demo.controlFunctions s' = Demo.controlFunctions s.
Proof.
  intros Hr.
  unfold Demo.get_spectrum. unfold bind at 1. unfold modify at 1.
  unfold bind at 1. unfold gets at 1. cbn [fst snd Demo._spectralData
    Demo.set_spectralData].
  unfold bind at 1. rewrite Demo_sample_all_eq by exact Hr.
  eexists. split; [reflexivity|]. repeat split.
Qed.

(** [get_spectrum] when the scale has no float: the wavelengths are in
    place, one number has been drawn, and the first product raises. *)
Lemma Demo_get_spectrum_overflow s :
  has_float (Demo._sample_data_scale s) = false ->
  Demo.get_spectrum s
  = (Raise (OverflowError "int too large to convert to float"),
     Demo.set_rng (fun n => Demo.rng s (Datatypes.S n))
       (Demo.set_spectralData
          (linspace 400 900 5000, snd (Demo._spectralData s)) s)).
Proof.
  intros Hs.
  unfold Demo.get_spectrum. unfold bind at 1. unfold modify at 1.
  unfold bind at 1. unfold gets at 1. cbn [fst snd Demo._spectralData
    Demo.set_spectralData].
  unfold bind at 1.
  pose proof (length_linspace 400 900 5000) as Hlen.
  destruct (linspace 400 900 5000) as [|wl rest]; [discriminate Hlen|].
  cbn [Demo.sample_all]. unfold bind at 1.
  rewrite Demo_sample_spectrum_overflow by exact Hs. reflexivity.
Qed.

(** Whatever its outcome, [get_spectrum] touches the cache and the
    generator only. *)
Lemma Demo_get_spectrum_frame s :
  exists d g,
    snd (Demo.get_spectrum s)
    = Demo.set_rng g (Demo.set_spectralData d s).
Proof.
  unfold Demo.get_spectrum. unfold bind at 1. unfold modify at 1.
  unfold bind at 1. unfold gets at 1. cbn [fst snd Demo._spectralData
    Demo.set_spectralData].
  unfold bind at 1.
  set (s1 := Demo.set_spectralData _ s).
  destruct (Demo_sample_all_state (linspace 400 900 5000) s1) as [k Hk].
  destruct (Demo.sample_all _ s1) as [[ys|e|] s2]; cbn [snd] in Hk; subst s2.
  - unfold bind at 1. unfold modify at 1. unfold gets. cbn [snd].
    eexists; eexists. destruct s; reflexivity.
  - eexists; eexists. reflexivity.
  - eexists; eexists. reflexivity.
Qed.

(** ** The claims about [get_spectrum], [assign_spec] and [model] *)

Lemma fresh_read_rows_agree {drv} (w : Physical.PhysicalSpectrometer drv) d :
  driver_rows_agree drv -> fresh_read w = Some d -> rows_agree d.
Proof.
  intros Hdrv. unfold fresh_read, driver_read.
  destruct (Physical._spec _) as [h|]; [|discriminate].
  destruct (spectrum drv h false true _) as [[d'|e] hw1] eqn:E; cbn;
    [|discriminate].
  intros [= <-]. eapply Hdrv, E.
Qed.

Lemma session_rows_agree {drv} calls :
  driver_rows_agree drv ->
  forall (w : Physical.PhysicalSpectrometer drv) last,
    physical_ready w ->
    rows_agree (Physical._spectralData w) ->
    rows_agree (Physical._spectralData (fst (session calls w last))).
Proof.
  intros Hdrv. induction calls as [|m calls IH]; intros w last Hr Hd;
    cbn [session]; [assumption|].
  destruct (invoke_keeps_ready m w Hr) as [Hr' Hd'].
  apply IH; [assumption|]. rewrite Hd'. destruct m; try assumption.
  destruct (fresh_read w) as [d|] eqn:E; [|assumption].
  eapply fresh_read_rows_agree; eassumption.
Qed.

Lemma bench_rows_agree : driver_rows_agree bench.
Proof.
  intros h dark nonlin hw d hw'. cbn. unfold bench_call.
  destruct (calls_left hw); intros [= <- _]. reflexivity.
Qed.

Lemma bench_model_is_fixed : model_is_fixed bench "USB2000+".
Proof.
  intros h hw m' hw'. cbn. unfold bench_call.
  destruct (calls_left hw); intros [= <- _]. reflexivity.
Qed.

(** C3, as the code has it.  On the simulated class [get_spectrum]
    returns two rows of 5000 whenever the scale and the offset have
    floats, and raises [OverflowError] when the scale has none (any
    integer is accepted as a scale).  On the physical class, in every
    state a session of calls on a new object reaches, it returns the
    spectrum the driver hands back in this call or else the one it last
    handed back in the session, two empty rows if it never did; with a
    driver that hands back rows of equal length, the two rows returned
    have the same length. *)
Theorem get_spectrum_rows_have_equal_length :
  (forall s,
      (in_float_range s ->
       exists d s',
         Demo.get_spectrum s = (Ok d, s')
         /\ List.length (fst d) = 5000%nat
         /\ List.length (snd d) = 5000%nat)
      /\ (has_float (Demo._sample_data_scale s) = false ->
          exists msg,
            fst (Demo.get_spectrum s) = Raise (OverflowError msg)))
  /\ (forall drv (h : HW drv) calls,
         driver_rows_agree drv ->
         let w := fst (session calls (snd (Physical.new h)) ([], [])) in
         let last := snd (session calls (snd (Physical.new h)) ([], [])) in
         let d := match fresh_read w with Some d => d | None => last end in
         fst (Physical.get_spectrum w) = Ok d
         /\ rows_agree d
         /\ rows_agree last).
Proof.
  split.
  - intros s. split.
    + intros Hr. destruct (Demo_get_spectrum_eq s Hr) as (s' & Hrun & _).
      rewrite Hrun. eexists; eexists. split; [reflexivity|]. cbn [fst snd].
      rewrite length_samples, length_linspace. split; reflexivity.
    + intros Hs. rewrite (Demo_get_spectrum_overflow s Hs).
      eexists. reflexivity.
  - intros drv h calls Hdrv w last d.
    destruct (Physical_new_ready h) as [_ Hr0].
    pose proof (Physical_new_spectralData h) as Hd0.
    destruct (session_invariant calls _ ([], []) Hr0 Hd0) as [Hr Hlast].
    fold w in Hr, Hlast. fold last in Hlast.
    assert (Hrows : rows_agree last).
    { rewrite <- Hlast. apply session_rows_agree; auto.
      rewrite Hd0. reflexivity. }
    destruct (Physical_get_spectrum_returns w (proj1 Hr))
      as (w' & Hrun & _ & _ & Hd).
    rewrite Hrun. cbn [fst]. rewrite Hd, Hlast. fold d.
    split; [reflexivity|]. split; [|assumption].
    unfold d. destruct (fresh_read w) as [d'|] eqn:E; [|assumption].
    eapply fresh_read_rows_agree; eassumption.
Qed.

Lemma get_spectrum_rows_have_equal_length_witness :
  let w := fst (session [Model; Get_spectrum;
                         Send_control_values [("gain", 2)]]
                  (snd (Physical.new (drv := bench) (plugged 9))) ([], [])) in
  let last := snd (session [Model; Get_spectrum;
                            Send_control_values [("gain", 2)]]
                     (snd (Physical.new (drv := bench) (plugged 9)))
                     ([], [])) in
  let d := match fresh_read w with Some d => d | None => last end in
  fst (Physical.get_spectrum w) = Ok d
  /\ rows_agree d
  /\ rows_agree last.
Proof.
  apply (proj2 get_spectrum_rows_have_equal_length bench).
  exact bench_rows_agree.
Defined.

(** C3 as stated fails: with nothing plugged in, the physical class
    returns two empty rows, and their length is not at least 1. *)
Lemma get_spectrum_without_device_is_empty :
  fst (Physical.get_spectrum (snd (Physical.new (drv := bench) unplugged)))
  = Ok ([], [])
  /\ ~ (1 <= List.length (@nil R))%nat.
Proof. split; [reflexivity|cbn; lia]. Qed.

(** C4.  On a new physical object, after any session of calls,
    [get_spectrum] comes back without an exception, with the spectrum the
    driver hands back in this call or else, when a driver error keeps it
    from handing one back, with the one it last handed back in the session,
    the empty spectrum if it never did. *)
Theorem get_spectrum_returns_last_read_on_driver_error :
  forall drv (h : HW drv) calls,
    let w := fst (session calls (snd (Physical.new h)) ([], [])) in
    let last := snd (session calls (snd (Physical.new h)) ([], [])) in
    fst (Physical.get_spectrum w)
    = Ok (match fresh_read w with Some d => d | None => last end)
    /\ (fresh_read w = None -> fst (Physical.get_spectrum w) = Ok last).
Proof.
  intros drv h calls w last.
  destruct (Physical_new_ready h) as [_ Hr0].
  pose proof (Physical_new_spectralData h) as Hd0.
  destruct (session_invariant calls _ ([], []) Hr0 Hd0) as [Hr Hlast].
  fold w in Hr, Hlast. fold last in Hlast.
  destruct (Physical_get_spectrum_returns w (proj1 Hr))
    as (w' & Hrun & _ & _ & Hd).
  rewrite Hrun. cbn [fst]. rewrite Hd, Hlast.
  split; [reflexivity|]. now intros ->.
Qed.

Lemma get_spectrum_returns_last_read_on_driver_error_witness :
  fst (Physical.get_spectrum
         (fst (session [Get_spectrum]
                 (snd (Physical.new (drv := bench) (plugged 6))) ([], []))))
  = Ok bench_spectrum.
Proof.
  apply (proj2 (get_spectrum_returns_last_read_on_driver_error bench
                  (plugged 6) [Get_spectrum])).
  reflexivity.
Defined.

(** C7, as the code has it.  [assign_spec] never raises: from a state in
    which the communication lock is free it comes back and frees the lock
    again.  When it fails while the device is looked for and opened (the
    listing or the opening raises, or no device is listed), every field is
    left as it was, so that an unbound handle stays unbound and an empty
    model name stays empty. *)
Theorem assign_spec_failure_is_silent :
  forall drv (w : Physical.PhysicalSpectrometer drv),
    Physical.comm_lock w = false ->
    (exists w',
        Physical.assign_spec w = (Ok tt, w')
        /\ Physical.comm_lock w' = false)
    /\ (forall e,
           fst (discover (Physical.hw w)) = Failure e ->
           Physical.assign_spec w
           = (Ok tt, Physical.set_hw (snd (discover (Physical.hw w))) w)
           /\ (Physical._spec w = None ->
               Physical._spec (snd (Physical.assign_spec w)) = None)
           /\ (Physical._specmodel w = "" ->
               Physical._specmodel (snd (Physical.assign_spec w)) = "")).
Proof.
  intros drv w Hfree. split.
  - apply assign_spec_returns, Hfree.
  - intros e He. rewrite (assign_spec_discover_fails w e Hfree He).
    repeat split; auto.
Qed.

Lemma assign_spec_failure_is_silent_witness :
  let w := Physical.base_init (drv := bench) unplugged in
  (exists w',
      Physical.assign_spec w = (Ok tt, w') /\ Physical.comm_lock w' = false)
  /\ Physical._spec (snd (Physical.assign_spec w)) = None
  /\ Physical._specmodel (snd (Physical.assign_spec w)) = "".
Proof.
  intros w.
  destruct (assign_spec_failure_is_silent bench w eq_refl) as [Hret Hkeep].
  destruct (Hkeep (IndexError "list index out of range") eq_refl)
    as (_ & Hspec & Hname).
  split; [exact Hret|]. split; [apply Hspec|apply Hname]; reflexivity.
Defined.

(** C7 as stated fails: when the driver fails after the device is opened
    (here the cable dies before the limits are read), [assign_spec] fails
    and returns, but the handle is bound and the model name set. *)
Lemma assign_spec_failure_after_open_binds_the_handle :
  let w := Physical.base_init (drv := bench) (plugged 3) in
  Physical._spec w = None
  /\ Physical._specmodel w = ""
  /\ fst (Physical.assign_spec_try w)
     = Raise (DriverError "device not responding")
  /\ fst (Physical.assign_spec w) = Ok tt
  /\ Physical._spec (snd (Physical.assign_spec w)) = Some tt
  /\ Physical._specmodel (snd (Physical.assign_spec w)) = "USB2000+".
Proof. repeat split. Qed.

(** C8, as the code has it.  [model()] called twice in a row returns the
    same string both times on the simulated class, in every state.  The
    physical class opens the device and asks the driver for its name
    again in each call: the two calls return the same string when the
    assignment of the first call does not fail and the driver has one name
    for whatever it opens (a failed assignment in the second call leaves
    the name as it is). *)
Theorem model_twice_returns_the_same_string :
  (forall s,
      exists name,
        fst (Demo.model s) = Ok name
        /\ fst (Demo.model (snd (Demo.model s))) = Ok name)
  /\ (forall drv m (w : Physical.PhysicalSpectrometer drv),
         idle w ->
         model_is_fixed drv m ->
         assign_succeeds (Physical.set_spec_lock true w) ->
         exists name,
           fst (Physical.model w) = Ok name
           /\ fst (Physical.model (snd (Physical.model w))) = Ok name).
Proof.
  split.
  - intros s. exists (Demo._specmodel s). split; reflexivity.
  - intros drv m w Hidle Hfix Hok.
    destruct (locked_assign_returns (gets Physical._specmodel) w Hidle)
      as (w1 & Hrun1 & Hidle1 & Hw1).
    destruct (locked_assign_returns (gets Physical._specmodel) w1 Hidle1)
      as (w2 & Hrun2 & Hidle2 & Hw2).
    unfold Physical.model. rewrite Hrun1. cbn [gets fst snd]. rewrite Hrun2.
    cbn [gets fst snd]. exists (Physical._specmodel w1).
    split; [reflexivity|]. f_equal.
    destruct (assign_spec_model_name (Physical.set_spec_lock true w) m
                (proj1 Hidle) Hfix) as [Hm1 _].
    specialize (Hm1 Hok).
    assert (H1 : Physical._specmodel w1 = m) by (rewrite Hw1; exact Hm1).
    destruct (assign_spec_model_name (Physical.set_spec_lock true w1) m
                (proj1 Hidle1) Hfix) as [_ [Hm2|Hm2]];
      rewrite Hw2; cbn [Physical._specmodel Physical.set_spec_lock];
      rewrite Hm2; [now rewrite H1|reflexivity].
Qed.

Lemma model_twice_returns_the_same_string_witness :
  let w := snd (Physical.new (drv := bench) (plugged 12)) in
  exists name,
    fst (Physical.model w) = Ok name
    /\ fst (Physical.model (snd (Physical.model w))) = Ok name.
Proof.
  intros w.
  apply (proj2 model_twice_returns_the_same_string bench "USB2000+" w).
  - split; reflexivity.
  - exact bench_model_is_fixed.
  - reflexivity.
Defined.

(** C8 as stated fails on the physical class: [model()] opens the first
    device the driver lists at every call and takes its name, so when the
    spectrometer is exchanged between two calls, each of which assigns
    without a failure, the two calls return different strings. *)
Lemma model_changes_when_the_device_is_exchanged :
  let w := snd (Physical.new (drv := exchanged) 0%nat) in
  idle w
  /\ assign_succeeds (Physical.set_spec_lock true w)
  /\ assign_succeeds (Physical.set_spec_lock true (snd (Physical.model w)))
  /\ fst (Physical.model w) = Ok "USB2000+"
  /\ fst (Physical.model (snd (Physical.model w))) = Ok "HR4000".
Proof. repeat split. Qed.

(** ** The submit callback *)

Lemma Demo_send_single v s :
  Demo.controlFunctions s = Demo.control_table ->
  Demo.send_control_values [(integration_time_input, v)] s
  = (Ok ([], [(integration_time_input, str v)]),
     Demo.set_sample_data_scale v s).
Proof.
  intros Ht. unfold Demo.send_control_values. cbn [dict_keys map fst].
  cbn [Demo.send_loop]. unfold bind.
  rewrite (Demo_dispatch_integration_time _ _ v).
  - reflexivity.
  - rewrite Ht. reflexivity.
  - cbn. now rewrite String.eqb_refl.
Qed.

(** With a device bound, the one entry of the batch goes to the setter of
    the driver, whatever its value. *)
Lemma Physical_send_single {drv} (w : Physical.PhysicalSpectrometer drv) h v :
  physical_ready w ->
  Physical._spec w = Some h ->
  exists r,
    Physical.send_control_values [(integration_time_input, v)] w
    = (Ok r,
       Physical.set_hw (snd (integration_time_micros drv h v (Physical.hw w))) w)
    /\ r = match fst (integration_time_micros drv h v (Physical.hw w)) with
           | Success _ => ([], [(integration_time_input, str v)])
           | Failure e =>
               ([(integration_time_input, strip_b (str_exn e))], [])
           end.
Proof.
  intros [[Hc Hs] Ht] Hh.
  unfold Physical.send_control_values. cbn [dict_keys map fst].
  cbn [Physical.send_loop]. unfold bind at 1.
  unfold Physical.dispatch, Physical.dispatch_try, try_finally, try_except.
  unfold bind at 1. rewrite acquire_comm_free by assumption.
  unfold bind, gets, subscript. cbn.
  rewrite Ht. unfold Physical.control_table. cbn [dict_get].
  rewrite String.eqb_refl.
  cbv [Physical.eval bind Physical.spec_attr Physical.call ret]. cbn.
  rewrite Hh. cbn.
  destruct (integration_time_micros drv h v (Physical.hw w)) as [[[]|e] hw1];
    cbn; eexists; (split; [|reflexivity]); destruct w; cbn in *; subst;
    reflexivity.
Qed.

Section CallbackFacts.
Context {S : Type} {spec : DashOceanOpticsSpectrometer S}.

Lemma report_keeps_state controls entries :
  forall summary (s : S), snd (report controls entries summary s) = s.
Proof.
  induction entries as [|[f text] rest IH]; intros summary s; [reflexivity|].
  cbn [report]. unfold bind, the_ctrl_name.
  destruct (filter _ controls) as [|c [|c' l]]; cbn; auto.
Qed.

Lemma report_failed_keeps_state controls failed summary (s : S) :
  snd (report_failed controls failed summary s) = s.
Proof.
  destruct failed as [|x failed]; [reflexivity|].
  unfold report_failed, bind.
  pose proof (report_keeps_state controls (x :: failed)
                (summary ++ [Text not_updated_message; Br; Br]) s) as H.
  destruct (report _ _ _ s) as [[a|e|] s1]; cbn in *; congruence.
Qed.

Lemma report_succeeded_keeps_state controls succeeded summary (s : S) :
  snd (report_succeeded controls succeeded summary s) = s.
Proof.
  destruct succeeded as [|x succeeded]; [reflexivity|].
  apply report_keeps_state.
Qed.

(** With the power on, the object after the callback is the object after
    [send_control_values] on the batch made of the raw values. *)
Lemma update_spec_params_sends c n v (s : S) :
  snd (update_spec_params [c] n [v] true s)
  = snd (send_control_values [(attr_id (component_attr c), v)] s).
Proof.
  unfold update_spec_params. cbn [negb build_commands dict_set].
  unfold bind at 1. unfold ret at 1. unfold bind at 1.
  destruct (send_control_values _ s) as [[[failed succeeded]|e|] s1];
    cbn [snd]; try reflexivity.
  unfold bind at 1.
  pose proof (report_failed_keeps_state [c] failed [] s1) as H1.
  destruct (report_failed [c] failed [] s1) as [[summary1|e|] s2];
    cbn in H1; subst; try reflexivity.
  unfold bind at 1.
  pose proof (report_succeeded_keeps_state [c] succeeded summary1 s1) as H2.
  destruct (report_succeeded [c] succeeded summary1 s1) as [[summary2|e|] s2];
    cbn in H2; subst; reflexivity.
Qed.

End CallbackFacts.

(** C2, as the code has it.  The operator path validates nothing: with
    the power on, [update_spec_params] hands the submitted
    integration-time value, inside the bounds of the device or not, to
    [send_control_values].  The simulated class stores it as its scale and
    reports it as updated; the physical class, with a device bound, calls
    the setter of the driver with it, and only the driver can reject it. *)
Theorem submitted_value_is_dispatched_without_validation :
  (forall c n v s,
      attr_id (component_attr c) = integration_time_input ->
      Demo.controlFunctions s = Demo.control_table ->
      update_spec_params [c] n [v] true s
      = (Ok (Div [Text updated_message; Br; Br;
                  Text (upper (ctrl_name c) ++ ": " ++ str v); Br]),
         Demo.set_sample_data_scale v s))
  /\ (forall drv c n v (w : Physical.PhysicalSpectrometer drv) h,
         attr_id (component_attr c) = integration_time_input ->
         physical_ready w ->
         Physical._spec w = Some h ->
         Physical.hw (snd (update_spec_params [c] n [v] true w))
         = snd (integration_time_micros drv h v (Physical.hw w))).
Proof.
  split.
  - intros c n v s Hid Ht.
    unfold update_spec_params. cbn [negb build_commands dict_set].
    rewrite Hid. unfold bind at 1. unfold ret at 1. unfold bind at 1.
    change (send_control_values [(integration_time_input, v)] s)
      with (Demo.send_control_values [(integration_time_input, v)] s).
    rewrite Demo_send_single by assumption.
    cbn [report_failed report_succeeded report app].
    unfold bind at 1. unfold ret at 1. unfold bind at 1.
    unfold bind at 1. unfold the_ctrl_name. cbn [filter].
    rewrite Hid, String.eqb_refl. reflexivity.
  - intros drv c n v w h Hid Hr Hh.
    rewrite update_spec_params_sends, Hid.
    change (send_control_values [(integration_time_input, v)] w)
      with (Physical.send_control_values [(integration_time_input, v)] w).
    destruct (Physical_send_single w h v Hr Hh) as (r & Hrun & _).
    rewrite Hrun. reflexivity.
Qed.

Lemma submitted_value_is_dispatched_without_validation_witness :
  (let s := snd (Demo.new zeros) in
   fst (make_controls s) = Ok [int_time 1 0 0]
   /\ update_spec_params [int_time 1 0 0] 1 [7] true s
      = (Ok (Div [Text updated_message; Br; Br;
                  Text (upper int_time_label ++ ": 7"); Br]),
         Demo.set_sample_data_scale 7 s))
  /\ (let w := snd (Physical.new (drv := bench) (plugged 20)) in
      let c := int_time 65535000 1000 1000 in
      fst (make_controls w) = Ok [c]
      /\ Physical.hw (snd (update_spec_params [c] 1 [7] true w))
         = snd (integration_time_micros bench tt 7 (Physical.hw w))
      /\ received (snd (integration_time_micros bench tt 7 (Physical.hw w)))
         = [7]).
Proof.
  split.
  - intros s. split; [reflexivity|].
    apply (proj1 submitted_value_is_dispatched_without_validation);
      reflexivity.
  - intros w c. split; [reflexivity|]. split; [|reflexivity].
    apply (proj2 submitted_value_is_dispatched_without_validation bench c 1 7
             w tt); [reflexivity|repeat split|reflexivity].
Defined.

(** C2 as stated fails: [-5] is below the bounds [[0, 1]] of a new
    simulated device, and the callback dispatches it: the device takes it
    as its scale and the page reports it as updated.  On the bench, whose
    bounds are [[1000, 65535000]], the same value reaches the setter of
    the driver, and it is the driver that turns it down. *)
Lemma out_of_bounds_value_is_dispatched :
  (let s := snd (Demo.new zeros) in
   let c := int_time 1 0 0 in
   fst (make_controls s) = Ok [c]
   /\ ~ (attr_min (component_attr c) <= -5 <= attr_max (component_attr c))
   /\ fst (build_commands (S := Demo.DemoSpectrometer) [c] [-5] [] s)
      = Ok [(integration_time_input, -5)]
   /\ fst (update_spec_params [c] 1 [-5] true s)
      = Ok (Div [Text updated_message; Br; Br;
                 Text (upper int_time_label ++ ": -5"); Br])
   /\ Demo._sample_data_scale (snd (update_spec_params [c] 1 [-5] true s))
      = -5)
  /\ (let w := snd (Physical.new (drv := bench) (plugged 20)) in
      let c := int_time 65535000 1000 1000 in
      fst (make_controls w) = Ok [c]
      /\ ~ (attr_min (component_attr c) <= -5 <= attr_max (component_attr c))
      /\ received (Physical.hw (snd (update_spec_params [c] 1 [-5] true w)))
         = [-5]
      /\ fst (update_spec_params [c] 1 [-5] true w)
         = Ok (Div [Text not_updated_message; Br; Br;
                    Text (upper int_time_label
                          ++ ": integration time out of range");
                    Br; Br; Hr; Br; Br])).
Proof.
  split.
  - intros s c. split; [reflexivity|]. split; [cbn; lia|].
    split; [reflexivity|]. split; reflexivity.
  - intros w c. split; [reflexivity|]. split; [cbn; lia|].
    split; reflexivity.
Qed.

(** ** A poll interleaved with a submission *)

#[local] Arguments linspace : simpl never.

Lemma Demo_dispatch_keeps_spectralData commands id s :
  Demo._spectralData (snd (Demo.dispatch commands id s))
  = Demo._spectralData s.
Proof.
  unfold Demo.dispatch, Demo.dispatch_try, try_except, bind, gets, subscript.
  cbn.
  destruct (dict_get (Demo.controlFunctions s) id) as [f|]; cbn; [|reflexivity].
  destruct f; cbn.
  - destruct (Demo._spec s) as [[]|]; reflexivity.
  - destruct (dict_get commands id); reflexivity.
  - destruct (dict_get commands id); reflexivity.
Qed.

Lemma submit_step_keeps_spectralData commands pc s :
  Demo._spectralData (snd (Interleaving.submit_step commands pc s))
  = Demo._spectralData s.
Proof.
  destruct pc as [[|id rest] failed succeeded| |]; cbn; try reflexivity.
  pose proof (Demo_dispatch_keeps_spectralData commands id s) as H.
  destruct (Demo.dispatch commands id s) as [[[v|e]|e|] s1]; cbn in *; auto.
Qed.

Lemma step_keeps_poll_invariant commands t sys :
  poll_invariant sys -> poll_invariant (Interleaving.step commands t sys).
Proof.
  destruct sys as [s pc sub]. unfold poll_invariant. destruct t.
  - destruct pc as [|[|wl rest] drawn|d|]; cbn [Interleaving.step
      Interleaving.poll_step Interleaving.poller Interleaving.device
      Interleaving.submitter].
    + cbn. rewrite length_linspace. auto.
    + cbn. tauto.
    + intros [Hw Hn].
      pose proof (Demo_sample_spectrum_state wl s) as Hs.
      destruct (Demo.sample_spectrum wl s) as [[y|e|] s1]; cbn [snd] in Hs;
        subst s1; cbn [Interleaving.poller Interleaving.device]; auto.
      rewrite length_app. cbn [List.length] in Hn |- *.
      cbn [Demo._spectralData Demo.set_rng]. split; [assumption|]. lia.
    + cbn. auto.
    + cbn. auto.
  - cbn [Interleaving.step Interleaving.poller Interleaving.device
      Interleaving.submitter].
    pose proof (submit_step_keeps_spectralData commands sub s) as H.
    destruct (Interleaving.submit_step commands sub s) as [sub1 s1]. cbn in *.
    destruct pc as [|todo drawn|d|]; auto. now rewrite H.
Qed.

(** A turn of the poll takes one of its steps, or stops it. *)
Lemma step_poll_steps_left commands t sys :
  poll_invariant sys ->
  (poll_steps_left (Interleaving.poller (Interleaving.step commands t sys))
   <= match t with
      | Interleaving.Poller =>
          Nat.pred (poll_steps_left (Interleaving.poller sys))
      | Interleaving.Submitter => poll_steps_left (Interleaving.poller sys)
      end)%nat.
Proof.
  destruct sys as [s pc sub]. unfold poll_invariant. destruct t.
  - destruct pc as [|[|wl rest] drawn|d|]; cbn [Interleaving.step
      Interleaving.poll_step Interleaving.poller Interleaving.device
      Interleaving.submitter]; intros Hinv.
    + cbn [Demo._spectralData Demo.set_spectralData fst].
      cbv [poll_steps_left]. rewrite length_linspace. cbn [Nat.pred]. lia.
    + cbn. lia.
    + destruct (Demo.sample_spectrum wl s) as [[y|e|] s1];
        cbn [Interleaving.poller poll_steps_left List.length Nat.pred]; lia.
    + cbn. lia.
    + cbn. lia.
  - cbn [Interleaving.step Interleaving.poller Interleaving.device
      Interleaving.submitter].
    destruct (Interleaving.submit_step commands sub s) as [sub1 s1].
    cbn [Interleaving.poller]. lia.
Qed.

Lemma run_keeps_poll_invariant commands schedule :
  forall sys,
    poll_invariant sys ->
    poll_invariant (Interleaving.run commands schedule sys)
    /\ (poll_steps_left
          (Interleaving.poller (Interleaving.run commands schedule sys))
        <= poll_steps_left (Interleaving.poller sys)
           - Interleaving.poll_turns schedule)%nat.
Proof.
  induction schedule as [|t schedule IH]; intros sys Hinv.
  - cbn. split; [assumption|]. unfold Interleaving.poll_turns. cbn. lia.
  - cbn [Interleaving.run].
    destruct (IH _ (step_keeps_poll_invariant commands t sys Hinv)) as [Hi Hl].
    split; [assumption|].
    pose proof (step_poll_steps_left commands t sys Hinv) as Hstep.
    unfold Interleaving.poll_turns in *.
    destruct t; cbn [filter List.length] in *; lia.
Qed.

(** What a dispatch can leave in the scale: what was there, or the value
    the batch has for the id. *)
Lemma Demo_dispatch_scale commands id s :
  Demo._sample_data_add (snd (Demo.dispatch commands id s))
  = Demo._sample_data_add s
  /\ (Demo._sample_data_scale (snd (Demo.dispatch commands id s))
      = Demo._sample_data_scale s
      \/ exists v,
           dict_get commands id = Some v
           /\ Demo._sample_data_scale (snd (Demo.dispatch commands id s)) = v).
Proof.
  unfold Demo.dispatch, Demo.dispatch_try, try_except, bind, gets, subscript.
  cbn.
  destruct (dict_get (Demo.controlFunctions s) id) as [f|]; cbn; [|auto].
  destruct f; cbn.
  - destruct (Demo._spec s) as [[]|]; auto.
  - destruct (dict_get commands id) as [v|]; cbn; eauto.
  - destruct (dict_get commands id); cbn; auto.
Qed.

Lemma step_keeps_float_range commands t sys :
  values_have_floats commands ->
  in_float_range (Interleaving.device sys) ->
  in_float_range (Interleaving.device (Interleaving.step commands t sys)).
Proof.
  intros Hv. destruct sys as [s pc sub]. unfold in_float_range. destruct t.
  - destruct pc as [|[|wl rest] drawn|d|]; cbn [Interleaving.step
      Interleaving.poll_step Interleaving.poller Interleaving.device
      Interleaving.submitter]; auto.
    pose proof (Demo_sample_spectrum_state wl s) as Hs.
    destruct (Demo.sample_spectrum wl s) as [[y|e|] s1]; cbn [snd] in Hs;
      subst s1; cbn [Interleaving.device]; auto.
  - cbn [Interleaving.step Interleaving.poller Interleaving.device
      Interleaving.submitter].
    destruct sub as [[|id rest] failed succeeded| |];
      cbn [Interleaving.submit_step Interleaving.device]; auto.
    destruct (Demo_dispatch_scale commands id s) as [Ha Hs].
    destruct (Demo.dispatch commands id s) as [[[v|e]|e|] s1];
      cbn [snd Interleaving.device] in *; intros [H1 H2];
      (split; [|now rewrite Ha]);
      (destruct Hs as [->|(v' & Hget & ->)]; [assumption|eapply Hv, Hget]).
Qed.

Lemma step_never_stops commands t sys :
  in_float_range (Interleaving.device sys) ->
  Interleaving.poller sys <> Interleaving.PollStopped ->
  Interleaving.poller (Interleaving.step commands t sys)
  <> Interleaving.PollStopped.
Proof.
  destruct sys as [s pc sub]. destruct t.
  - destruct pc as [|[|wl rest] drawn|d|]; cbn [Interleaving.step
      Interleaving.poll_step Interleaving.poller Interleaving.device
      Interleaving.submitter]; intros Hr Hpc; try discriminate;
      try assumption.
    rewrite Demo_sample_spectrum_eq by exact Hr. discriminate.
  - cbn [Interleaving.step Interleaving.poller Interleaving.device
      Interleaving.submitter].
    destruct (Interleaving.submit_step commands sub s) as [sub1 s1].
    cbn [Interleaving.poller]. auto.
Qed.

Lemma run_never_stops commands schedule :
  values_have_floats commands ->
  forall sys,
    in_float_range (Interleaving.device sys) ->
    Interleaving.poller sys <> Interleaving.PollStopped ->
    Interleaving.poller (Interleaving.run commands schedule sys)
    <> Interleaving.PollStopped.
Proof.
  intros Hv. induction schedule as [|t schedule IH]; intros sys Hr Hpc;
    [assumption|].
  cbn [Interleaving.run]. apply IH.
  - now apply step_keeps_float_range.
  - now apply step_never_stops.
Qed.

(** C10.  A poll and a submission on the simulated class, their steps
    interleaved in any order: a spectrum the poll returns has two rows of
    the same length, 5000.  Once the schedule has given the poll its 5002
    steps it is over, and it has returned a spectrum when the scale, the
    offset and the values submitted all have floats (a scale without a
    float stops the poll with [OverflowError], and nothing is
    returned). *)
Theorem concurrent_submit_keeps_polled_rows_equal :
  forall commands schedule s,
    let final :=
      Interleaving.run commands schedule (Interleaving.start commands s) in
    (forall d,
        Interleaving.poller final = Interleaving.PollReturned d ->
        rows_agree d /\ List.length (fst d) = 5000%nat)
    /\ ((5000 + 2 <= Interleaving.poll_turns schedule)%nat ->
        (exists d, Interleaving.poller final = Interleaving.PollReturned d)
        \/ Interleaving.poller final = Interleaving.PollStopped)
    /\ (in_float_range s ->
        values_have_floats commands ->
        (5000 + 2 <= Interleaving.poll_turns schedule)%nat ->
        exists d,
          Interleaving.poller final = Interleaving.PollReturned d
          /\ rows_agree d /\ List.length (fst d) = 5000%nat).
Proof.
  intros commands schedule s final.
  destruct (run_keeps_poll_invariant commands schedule
              (Interleaving.start commands s) I) as [Hinv Hleft].
  fold final in Hinv, Hleft. unfold poll_invariant in Hinv.
  assert (Hret : forall d,
             Interleaving.poller final = Interleaving.PollReturned d ->
             rows_agree d /\ List.length (fst d) = 5000%nat).
  { intros d Hd. rewrite Hd in Hinv. destruct Hinv as [H1 H2].
    split; [unfold rows_agree; congruence|assumption]. }
  assert (Hover : (5000 + 2 <= Interleaving.poll_turns schedule)%nat ->
                  (exists d,
                      Interleaving.poller final = Interleaving.PollReturned d)
                  \/ Interleaving.poller final = Interleaving.PollStopped).
  { intros Hturns.
    assert (Hzero : poll_steps_left (Interleaving.poller final) = 0%nat).
    { change (poll_steps_left
                (Interleaving.poller (Interleaving.start commands s)))
        with (5000 + 2)%nat in Hleft.
      lia. }
    destruct (Interleaving.poller final) as [|todo drawn|d|] eqn:Hpc;
      cbv [poll_steps_left] in Hzero.
    - lia.
    - discriminate.
    - left. now exists d.
    - now right. }
  split; [exact Hret|]. split; [exact Hover|].
  intros Hr Hv Hturns.
  destruct (Hover Hturns) as [[d Hd]|Hstop].
  - exists d. split; [assumption|]. now apply Hret.
  - exfalso. revert Hstop. apply run_never_stops; [assumption|assumption|].
    discriminate.
Qed.

Lemma concurrent_submit_keeps_polled_rows_equal_witness :
  exists d,
    Interleaving.poller
      (Interleaving.run [(integration_time_input, 1000)]
         (Interleaving.Poller :: Interleaving.Submitter
            :: repeat Interleaving.Poller (5000 + 1))
         (Interleaving.start [(integration_time_input, 1000)]
            (snd (Demo.new zeros))))
    = Interleaving.PollReturned d
    /\ rows_agree d /\ List.length (fst d) = 5000%nat.
Proof.
  apply (proj2 (proj2 (concurrent_submit_keeps_polled_rows_equal
                         [(integration_time_input, 1000)]
                         (Interleaving.Poller :: Interleaving.Submitter
                            :: repeat Interleaving.Poller (5000 + 1))
                         (snd (Demo.new zeros))))).
  - split; reflexivity.
  - intros k v. cbn [dict_get].
    destruct (String.eqb integration_time_input k); [|discriminate].
    intros [= <-]. reflexivity.
  - vm_compute. reflexivity.
Defined.

(** A poll that does not return: the submission of [10 ** 400], which
    nothing checks, gets in before the first sample; the product raises,
    the poll returns no spectrum, and the cache is left with the 5000
    wavelengths beside the intensities of the poll before, none here. *)
Lemma poll_stops_when_the_scale_has_no_float :
  let final :=
    Interleaving.run [(integration_time_input, 10 ^ 400)]
      [Interleaving.Poller; Interleaving.Submitter; Interleaving.Submitter;
       Interleaving.Poller]
      (Interleaving.start [(integration_time_input, 10 ^ 400)]
         (snd (Demo.new zeros))) in
  Interleaving.poller final = Interleaving.PollStopped
  /\ Interleaving.submitter final
     = Interleaving.SubmitReturned []
         [(integration_time_input, str (10 ^ 400))]
  /\ List.length (fst (Demo._spectralData (Interleaving.device final)))
     = 5000%nat
  /\ List.length (snd (Demo._spectralData (Interleaving.device final)))
     = 0%nat.
Proof. vm_compute. repeat split. Qed.

(** ** The simulated spectrum *)

Section SimulatedSpectrum.
Local Open Scope R_scope.

Lemma nth_linspace a b n i d :
  (i < n)%nat ->
  nth i (linspace a b n) d = a + INR i * ((b - a) / INR (n - 1)).
Proof.
  intros Hi. unfold linspace.
  rewrite nth_indep with (d' := a + INR 0 * ((b - a) / INR (n - 1)))
    by now rewrite length_map, length_seq.
  rewrite (map_nth (fun i => a + INR i * ((b - a) / INR (n - 1)))).
  now rewrite seq_nth.
Qed.

Lemma INR_4999 : INR (5000 - 1) = 4999.
Proof. rewrite INR_IZR_INZ. reflexivity. Qed.

Lemma INR_1000 : INR 1000 = 1000.
Proof. rewrite INR_IZR_INZ. reflexivity. Qed.

Lemma INR_999 : INR 999 = 999.
Proof. rewrite INR_IZR_INZ. reflexivity. Qed.

(** The wavelength of index [i]. *)
Lemma nth_wavelength i :
  (i < 5000)%nat ->
  nth i (linspace 400 900 5000) 0 = 400 + INR i * (500 / 4999).
Proof.
  intros Hi. rewrite nth_linspace by assumption. rewrite INR_4999.
  f_equal. f_equal. lra.
Qed.

Lemma wavelengths_ascend i j :
  (i < j < 5000)%nat ->
  nth i (linspace 400 900 5000) 0 < nth j (linspace 400 900 5000) 0.
Proof.
  intros [Hij Hj]. rewrite !nth_wavelength by lia.
  apply lt_INR in Hij. lra.
Qed.

(** Index 1000 is the sample nearest 500 nm. *)
Lemma nearest_500 i :
  (i < 5000)%nat ->
  Rabs (nth 1000 (linspace 400 900 5000) 0 - 500)
  <= Rabs (nth i (linspace 400 900 5000) 0 - 500).
Proof.
  intros Hi. rewrite !nth_wavelength by lia. rewrite INR_1000.
  destruct (Nat.le_gt_cases i 999) as [Hle|Hgt].
  - apply le_INR in Hle. rewrite INR_999 in Hle.
    unfold Rabs. repeat destruct Rcase_abs; lra.
  - apply le_INR in Hgt. rewrite INR_1000 in Hgt.
    unfold Rabs. repeat destruct Rcase_abs; lra.
Qed.

Lemma exp_le x y : x <= y -> exp x <= exp y.
Proof.
  intros [H| ->]; [left; now apply exp_increasing|right; reflexivity].
Qed.

Lemma exp_neg_le t : 0 <= t -> exp (- t) <= / (1 + t).
Proof.
  intros Ht. rewrite exp_Ropp.
  apply Rinv_le_contravar; [lra|apply exp_ineq1_le].
Qed.

(** The noise cannot lift a sample 1 nm away from 500 nm above the
    sample nearest 500 nm. *)
Lemma intensity_peak scale x r r' :
  (0 < scale)%Z ->
  0 <= r < 1 -> 0 <= r' < 1 ->
  1 <= Rabs (x - 500) ->
  intensity scale 0 x r
  < intensity scale 0 (400 + 1000 * (500 / 4999)) r'.
Proof.
  intros Hs Hr Hr' Hx. unfold intensity.
  assert (Hscale : 0 < IZR scale) by now apply IZR_lt.
  assert (Hfar : exp (-1 * ((x - 500) / 5) ^ 2) <= 25 / 26).
  { replace (25 / 26) with (/ (1 + 1 / 25)) by lra.
    eapply Rle_trans; [|apply exp_neg_le; lra].
    apply exp_le.
    assert (1 <= (x - 500) ^ 2).
    { unfold Rabs in Hx. destruct Rcase_abs; nra. }
    nra. }
  assert (Hnear :
            1 - (20 / 4999) ^ 2
            <= exp (-1 * ((400 + 1000 * (500 / 4999) - 500) / 5) ^ 2)).
  { eapply Rle_trans; [|apply exp_ineq1_le]. lra. }
  nra.
Qed.

Lemma intensity_nonneg scale add x r :
  (0 <= scale)%Z -> (0 <= add)%Z -> 0 <= r ->
  0 <= intensity scale add x r.
Proof.
  intros Hs Ha Hr. unfold intensity.
  apply IZR_le in Hs, Ha. pose proof (exp_pos (-1 * ((x - 500) / 5) ^ 2)).
  nra.
Qed.

Lemma intensity_negative scale x r :
  (scale < 0)%Z -> 0 <= r -> intensity scale 0 x r < 0.
Proof.
  intros Hs Hr. unfold intensity.
  apply IZR_lt in Hs. pose proof (exp_pos (-1 * ((x - 500) / 5) ^ 2)).
  nra.
Qed.

Lemma unit_interval_shift g :
  unit_interval g -> unit_interval (fun n => g (Datatypes.S n)).
Proof. intros H n. apply H. Qed.

Lemma nth_samples scale add wls :
  forall g i,
    (i < List.length wls)%nat ->
    nth i (samples scale add g wls) 0
    = intensity scale add (nth i wls 0) (g i).
Proof.
  induction wls as [|wl rest IH]; intros g i Hi; cbn in Hi; [lia|].
  destruct i as [|i]; [reflexivity|].
  cbn [samples nth]. rewrite IH by lia. reflexivity.
Qed.

Lemma samples_nonneg scale add wls :
  (0 <= scale)%Z -> (0 <= add)%Z ->
  forall g, unit_interval g ->
    Forall (fun y => 0 <= y) (samples scale add g wls).
Proof.
  intros Hs Ha. induction wls as [|wl rest IH]; intros g Hg; cbn [samples].
  - constructor.
  - constructor.
    + apply intensity_nonneg; auto. apply Hg.
    + apply IH, unit_interval_shift, Hg.
Qed.

End SimulatedSpectrum.

(** C5, as the code has it.  With a scale and an offset that have floats,
    [get_spectrum] of the simulated class returns the same wavelengths,
    5000 of them, ascending from 400 to 900, and one intensity for each.
    Between calls of a ready object, with the draws of the generator in
    [[0, 1)]: the intensities are non-negative when the scale is not
    negative; and when it is positive, every sample 1 nm or more away from
    500 nm is below the sample of index 1000, the one nearest 500 nm, so
    that the maximum is within 1 nm of 500 nm.  With a scale that has no
    float (any integer is accepted as a scale) the call raises
    [OverflowError] instead of returning. *)
Theorem simulated_spectrum_shape :
  forall s,
    (in_float_range s ->
     exists ys s',
       Demo.get_spectrum s = (Ok (linspace 400 900 5000, ys), s')
       /\ List.length (linspace 400 900 5000) = 5000%nat
       /\ List.length ys = 5000%nat
       /\ nth 0 (linspace 400 900 5000) 0%R = 400%R
       /\ nth 4999 (linspace 400 900 5000) 0%R = 900%R
       /\ (forall i j, (i < j < 5000)%nat ->
             (nth i (linspace 400 900 5000) 0
              < nth j (linspace 400 900 5000) 0)%R)
       /\ (forall i, (i < 5000)%nat ->
             (Rabs (nth 1000 (linspace 400 900 5000) 0 - 500)
              <= Rabs (nth i (linspace 400 900 5000) 0 - 500))%R)
       /\ (demo_ready s -> unit_interval (Demo.rng s) ->
           0 <= Demo._sample_data_scale s ->
           Forall (fun y => 0 <= y)%R ys)
       /\ (demo_ready s -> unit_interval (Demo.rng s) ->
           0 < Demo._sample_data_scale s ->
           forall i, (i < 5000)%nat ->
             (1 <= Rabs (nth i (linspace 400 900 5000) 0 - 500))%R ->
             (nth i ys 0 < nth 1000 ys 0)%R))
    /\ (has_float (Demo._sample_data_scale s) = false ->
        exists msg, fst (Demo.get_spectrum s) = Raise (OverflowError msg)).
Proof.
  intros s. split.
  2: { intros Hs. rewrite (Demo_get_spectrum_overflow s Hs).
       eexists. reflexivity. }
  intros Hr. destruct (Demo_get_spectrum_eq s Hr) as (s' & Hrun & _).
  eexists; eexists. split; [exact Hrun|].
  split; [apply length_linspace|].
  split; [now rewrite length_samples, length_linspace|].
  split; [rewrite nth_wavelength by lia; cbn [INR]; lra|].
  split.
  { rewrite nth_linspace by lia. rewrite INR_4999.
    replace (INR 4999) with 4999%R by (rewrite INR_IZR_INZ; reflexivity).
    lra. }
  split; [exact wavelengths_ascend|].
  split; [exact nearest_500|].
  split.
  - intros [_ Hadd] Hg Hs. apply samples_nonneg; auto. rewrite Hadd. lia.
  - intros [_ Hadd] Hg Hs i Hi Hfar.
    rewrite !nth_samples by (rewrite length_linspace; lia).
    rewrite Hadd.
    rewrite (nth_wavelength 1000) by lia. rewrite INR_1000.
    apply intensity_peak; auto.
Qed.

Lemma simulated_spectrum_shape_witness :
  let s := snd (Demo.send_control_values [(integration_time_input, 1000)]
                  (snd (Demo.new zeros))) in
  exists ys s',
    Demo.get_spectrum s = (Ok (linspace 400 900 5000, ys), s')
    /\ Forall (fun y => 0 <= y)%R ys
    /\ (nth 0 ys 0 < nth 1000 ys 0)%R.
Proof.
  intros s.
  assert (Hrange : in_float_range s) by (split; reflexivity).
  destruct (proj1 (simulated_spectrum_shape s) Hrange)
    as (ys & s' & Hrun & _ & _ & Hfirst & _ & _ & _ & Hpos & Hpeak).
  assert (Hready : demo_ready s) by (split; reflexivity).
  assert (Hrng : unit_interval (Demo.rng s)).
  { intros n. change (Demo.rng s n) with 0%R. lra. }
  exists ys, s'. split; [exact Hrun|]. split.
  - apply Hpos; [exact Hready|exact Hrng|]. vm_compute. discriminate.
  - apply Hpeak; [exact Hready|exact Hrng|reflexivity|lia|].
    rewrite Hfirst. replace (400 - 500)%R with (- (100))%R by lra.
    rewrite Rabs_Ropp, Rabs_pos_eq; lra.
Defined.

(** C5 as stated fails: after [-5] is submitted (no bound is checked),
    the intensities are negative, and the sample nearest 500 nm is the
    lowest, not the highest: it is below the first one. *)
Lemma simulated_intensities_can_be_negative :
  let s := snd (Demo.send_control_values [(integration_time_input, -5)]
                  (snd (Demo.new zeros))) in
  exists ys s',
    Demo.get_spectrum s = (Ok (linspace 400 900 5000, ys), s')
    /\ (nth 0 ys 0 < 0)%R
    /\ (nth 1000 ys 0 < nth 0 ys 0)%R.
Proof.
  intros s.
  assert (Hrange : in_float_range s) by (split; reflexivity).
  destruct (Demo_get_spectrum_eq s Hrange) as (s' & Hrun & _).
  eexists; eexists. split; [exact Hrun|].
  change (Demo._sample_data_scale s) with (-5).
  change (Demo._sample_data_add s) with 0.
  change (Demo.rng s) with zeros.
  rewrite !nth_samples by (rewrite length_linspace; lia).
  rewrite !nth_wavelength by lia. rewrite INR_1000. cbn [INR].
  unfold zeros. split.
  - apply intensity_negative; [lia|lra].
  - unfold intensity.
    assert ((exp (-1 * ((400 + 0 * (500 / 4999) - 500) / 5) ^ 2)
             < exp (-1 * ((400 + 1000 * (500 / 4999) - 500) / 5) ^ 2))%R).
    { apply exp_increasing. lra. }
    lra.
Qed.

Lemma unknown_control_id_is_reported_failed_witness :
  (exists r r' s',
      Demo.send_control_values
        [("shutter", 1); (integration_time_input, 5)] (snd (Demo.new zeros))
      = (Ok r, s')
      /\ dict_get (failed_of r) "shutter" = Some "'shutter'"
      /\ dict_mem (succeeded_of r) "shutter" = false
      /\ Demo.send_control_values
           (without "shutter" [("shutter", 1); (integration_time_input, 5)])
           (snd (Demo.new zeros))
         = (Ok r', s')
      /\ agree_off "shutter" (failed_of r) (failed_of r')
      /\ agree_off "shutter" (succeeded_of r) (succeeded_of r'))
  /\ (exists r r' w',
         Physical.send_control_values
           [("shutter", 1); (integration_time_input, 5000)]
           (snd (Physical.new (drv := bench) (plugged 20)))
         = (Ok r, w')
         /\ dict_get (failed_of r) "shutter" = Some "'shutter'"
         /\ dict_mem (succeeded_of r) "shutter" = false
         /\ Physical.send_control_values
              (without "shutter"
                 [("shutter", 1); (integration_time_input, 5000)])
              (snd (Physical.new (drv := bench) (plugged 20)))
            = (Ok r', w')
         /\ agree_off "shutter" (failed_of r) (failed_of r')
         /\ agree_off "shutter" (succeeded_of r) (succeeded_of r')).
Proof.
  split.
  - apply (proj1 unknown_control_id_is_reported_failed
             [("shutter", 1); (integration_time_input, 5)]
             (snd (Demo.new zeros)) "shutter");
      [reflexivity|left; reflexivity|reflexivity].
  - apply (proj2 unknown_control_id_is_reported_failed bench
             [("shutter", 1); (integration_time_input, 5000)]
             (snd (Physical.new (drv := bench) (plugged 20))) "shutter");
      [reflexivity|reflexivity|left; reflexivity|reflexivity].
Defined.

(** ** The steps of the poll, taken alone, are [get_spectrum] *)

Lemma run_app commands l1 l2 sys :
  Interleaving.run commands (l1 ++ l2) sys
  = Interleaving.run commands l2 (Interleaving.run commands l1 sys).
Proof.
  revert sys. induction l1 as [|t l1 IH]; intros sys; [reflexivity|].
  cbn. apply IH.
Qed.

Lemma run_sampling commands sub todo :
  forall drawn s,
    in_float_range s ->
    Interleaving.run commands
      (repeat Interleaving.Poller (List.length todo))
      {| Interleaving.device := s;
         Interleaving.poller := Interleaving.PollSampling todo drawn;
         Interleaving.submitter := sub |}
    = {| Interleaving.device :=
           Demo.set_rng (advance (List.length todo) (Demo.rng s)) s;
         Interleaving.poller :=
           Interleaving.PollSampling []
             (drawn ++ samples (Demo._sample_data_scale s)
                         (Demo._sample_data_add s) (Demo.rng s) todo);
         Interleaving.submitter := sub |}.
Proof.
  induction todo as [|wl rest IH]; intros drawn s Hr.
  - cbn. rewrite app_nil_r. destruct s; reflexivity.
  - cbn [List.length repeat Interleaving.run Interleaving.step
         Interleaving.poller Interleaving.device Interleaving.submitter
         Interleaving.poll_step].
    rewrite Demo_sample_spectrum_eq by exact Hr. rewrite IH by exact Hr.
    cbn [samples]. rewrite <- app_assoc. reflexivity.
Qed.

Lemma run_cons commands t l sys :
  Interleaving.run commands (t :: l) sys
  = Interleaving.run commands l (Interleaving.step commands t sys).
Proof. reflexivity. Qed.

Lemma step_poll_start commands s sub :
  Interleaving.step commands Interleaving.Poller
    {| Interleaving.device := s;
       Interleaving.poller := Interleaving.PollStart;
       Interleaving.submitter := sub |}
  = {| Interleaving.device :=
         Demo.set_spectralData
           (linspace 400 900 5000, snd (Demo._spectralData s)) s;
       Interleaving.poller :=
         Interleaving.PollSampling (linspace 400 900 5000) [];
       Interleaving.submitter := sub |}.
Proof. reflexivity. Qed.

Lemma step_poll_store commands s drawn sub :
  Interleaving.step commands Interleaving.Poller
    {| Interleaving.device := s;
       Interleaving.poller := Interleaving.PollSampling [] drawn;
       Interleaving.submitter := sub |}
  = {| Interleaving.device :=
         Demo.set_spectralData (fst (Demo._spectralData s), drawn) s;
       Interleaving.poller :=
         Interleaving.PollReturned (fst (Demo._spectralData s), drawn);
       Interleaving.submitter := sub |}.
Proof. reflexivity. Qed.

Lemma Demo_get_spectrum_state s :
  in_float_range s ->
  let s1 := Demo.set_spectralData
              (linspace 400 900 5000, snd (Demo._spectralData s)) s in
  let ys := samples (Demo._sample_data_scale s) (Demo._sample_data_add s)
              (Demo.rng s) (linspace 400 900 5000) in
  Demo.get_spectrum s
  = (Ok (linspace 400 900 5000, ys),
     Demo.set_spectralData (linspace 400 900 5000, ys)
       (Demo.set_rng
          (advance (List.length (linspace 400 900 5000)) (Demo.rng s)) s1)).
Proof.
  intros Hr s1 ys.
  unfold Demo.get_spectrum. unfold bind at 1. unfold modify at 1.
  unfold bind at 1. unfold gets at 1.
  unfold bind at 1. rewrite Demo_sample_all_eq by exact Hr. reflexivity.
Qed.

(** The 5002 steps of the poll with no other thread in between, on an
    object whose scale and offset have floats: what it returns and the
    object it leaves are those of [get_spectrum]. *)
Lemma poll_alone_is_get_spectrum commands s :
  in_float_range s ->
  let final :=
    Interleaving.run commands
      (Interleaving.Poller
         :: repeat Interleaving.Poller 5000 ++ [Interleaving.Poller])
      (Interleaving.start commands s) in
  let d := (linspace 400 900 5000,
            samples (Demo._sample_data_scale s) (Demo._sample_data_add s)
              (Demo.rng s) (linspace 400 900 5000)) in
  Interleaving.poller final = Interleaving.PollReturned d
  /\ Demo.get_spectrum s = (Ok d, Interleaving.device final).
Proof.
  intros Hr final d. subst final d.
  replace (repeat Interleaving.Poller 5000)
    with (repeat Interleaving.Poller (List.length (linspace 400 900 5000)))
    by now rewrite length_linspace.
  rewrite run_cons. unfold Interleaving.start. rewrite step_poll_start.
  rewrite run_app, run_sampling by exact Hr.
  rewrite run_cons, step_poll_store.
  rewrite Demo_get_spectrum_state by exact Hr.
  generalize (linspace 400 900 5000). intros wls.
  split; reflexivity.
Qed.

(** With the scale at 1, inside the bounds of a new simulated device, the
    draws of the generator decide which of the samples around 500 nm is
    the highest: here it is the one of index 1001, not the nearest. *)
Lemma noise_can_shift_the_peak :
  let g := fun n => if Nat.eqb n 1001 then (99 / 100)%R else 0%R in
  unit_interval g
  /\ (nth 1000 (samples 1 0 g (linspace 400 900 5000)) 0
      < nth 1001 (samples 1 0 g (linspace 400 900 5000)) 0)%R.
Proof.
  intros g. split.
  - intros n. unfold g. destruct (Nat.eqb n 1001); lra.
  - rewrite !nth_samples by (rewrite length_linspace; lia).
    rewrite !nth_wavelength by lia. rewrite INR_1000.
    replace (INR 1001) with 1001%R by (rewrite INR_IZR_INZ; reflexivity).
    change (g 1000%nat) with 0%R. change (g 1001%nat) with (99 / 100)%R.
    unfold intensity.
    assert ((exp (-1 * ((400 + 1000 * (500 / 4999) - 500) / 5) ^ 2) <= 1)%R).
    { rewrite <- exp_0. apply exp_le. nra. }
    pose proof (exp_ineq1_le (-1 * ((400 + 1001 * (500 / 4999) - 500) / 5) ^ 2)).
    nra.
Qed.

(* ================================================================== *)
(** * Further properties of the physical class                         *)
(* ================================================================== *)

Section PhysicalFurther.
Context {drv : Driver}.
Local Notation "'PS'" := (Physical.PhysicalSpectrometer drv).

Lemma invoke_idle m (w : PS) :
  idle w -> returns m w /\ idle (invoke m w).
Proof.
  intros Hidle. destruct m; cbn [returns invoke].
  - destruct (Physical_get_spectrum_returns w Hidle) as (w' & Hrun & Hi & _).
    rewrite Hrun. cbn. split; [eauto|assumption].
  - destruct Hidle as [Hc Hs].
    destruct (Physical_send_control_values_returns commands w Hc)
      as (r & w' & Hrun & Hc').
    pose proof (Physical_send_loop_keeps Physical.spec_lock commands
                  (dict_keys commands) [] []
                  Physical_dispatch_keeps_spec_lock w) as Hs'.
    unfold Physical.send_control_values in *. rewrite Hrun in *. cbn in *.
    split; [eauto|]. split; congruence.
  - destruct (locked_assign_returns (gets Physical._specmodel) w Hidle)
      as (w1 & Hrun & Hi & _).
    unfold Physical.model. rewrite Hrun. cbn. split; [eauto|assumption].
  - destruct (locked_assign_returns (gets Physical._int_time_max) w Hidle)
      as (w1 & Hrun & Hi & _).
    unfold Physical.int_time_max. rewrite Hrun. cbn. split; [eauto|assumption].
  - destruct (locked_assign_returns (gets Physical._int_time_min) w Hidle)
      as (w1 & Hrun & Hi & _).
    unfold Physical.int_time_min. rewrite Hrun. cbn. split; [eauto|assumption].
  - destruct Hidle as [Hc Hs].
    destruct (assign_spec_returns w Hc) as (w' & Hrun & Hc').
    pose proof (assign_spec_keeps_spec_lock w) as Hs'.
    rewrite Hrun in *. cbn in *. split; [reflexivity|]. split; congruence.
Qed.

Lemma session_idle calls :
  forall (w : PS) last, idle w -> idle (fst (session calls w last)).
Proof.
  induction calls as [|m calls IH]; intros w last Hidle; [assumption|].
  cbn [session]. apply IH. now apply invoke_idle.
Qed.

End PhysicalFurther.

(** X1.  Calls made one after the other on a physical object whose two
    locks are free never leave a lock held: after any session both locks
    are free, and whichever method is called next comes back to its caller
    with a value, without an exception and without waiting on a lock. *)
Theorem physical_calls_return_and_free_the_locks :
  forall drv calls (w : Physical.PhysicalSpectrometer drv) last m,
    idle w ->
    idle (fst (session calls w last))
    /\ returns m (fst (session calls w last))
    /\ idle (invoke m (fst (session calls w last))).
Proof.
  intros drv calls w last m Hidle.
  pose proof (session_idle calls w last Hidle) as Hi.
  split; [assumption|]. now apply invoke_idle.
Qed.

Lemma physical_calls_return_and_free_the_locks_witness :
  let w := fst (session [Model; Get_spectrum; Send_control_values [("gain", 2)]]
                  (Physical.base_init (drv := bench) (plugged 7)) ([], [])) in
  idle w /\ returns Int_time_max w /\ idle (invoke Int_time_max w).
Proof.
  intros w.
  apply (physical_calls_return_and_free_the_locks bench
           [Model; Get_spectrum; Send_control_values [("gain", 2)]]
           (Physical.base_init (drv := bench) (plugged 7)) ([], [])
           Int_time_max).
  split; reflexivity.
Defined.

Section PhysicalExclusion.
Context {drv : Driver}.
Local Notation "'PS'" := (Physical.PhysicalSpectrometer drv).

(** With the lock held, [acquire] waits and nothing after it runs. *)
Lemma acquire_comm_held {B} (k : unit -> M PS B) w :
  Physical.comm_lock w = true ->
  bind (acquire Physical.comm_lock Physical.set_comm_lock) k w = (Blocked, w).
Proof. intros H. unfold bind, acquire. now rewrite H. Qed.

Lemma assign_spec_waits (w : PS) :
  Physical.comm_lock w = true ->
  Physical.assign_spec w = (Blocked, w).
Proof.
  intros H. unfold Physical.assign_spec, Physical.assign_spec_try,
    try_finally, try_except.
  now rewrite acquire_comm_held.
Qed.

Lemma dispatch_waits commands id (w : PS) :
  Physical.comm_lock w = true ->
  Physical.dispatch commands id w = (Blocked, w).
Proof.
  intros H. unfold Physical.dispatch, Physical.dispatch_try,
    try_finally, try_except.
  unfold bind at 1. now rewrite acquire_comm_held.
Qed.

Lemma locked_assign_waits {A} (k : M PS A) (w : PS) :
  Physical.comm_lock w = true ->
  exists w',
    (acquire Physical.spec_lock Physical.set_spec_lock ;;;
     Physical.assign_spec ;;;
     release Physical.spec_lock Physical.set_spec_lock ;;; k) w
    = (Blocked, w')
    /\ Physical.hw w' = Physical.hw w
    /\ Physical._spectralData w' = Physical._spectralData w
    /\ Physical._spec w' = Physical._spec w.
Proof.
  intros H. unfold bind at 1. unfold acquire.
  destruct (Physical.spec_lock w).
  - exists w. repeat split.
  - unfold bind at 1. rewrite assign_spec_waits by assumption.
    eexists. split; [reflexivity|]. repeat split.
Qed.

Lemma rebind_waits (w : PS) :
  Physical.comm_lock w = true ->
  Physical.rebind_if_unbound w = (Ok tt, w)
  \/ exists w',
       Physical.rebind_if_unbound w = (Blocked, w')
       /\ Physical.hw w' = Physical.hw w
       /\ Physical._spectralData w' = Physical._spectralData w
       /\ Physical._spec w' = Physical._spec w.
Proof.
  intros H. unfold Physical.rebind_if_unbound.
  destruct (Physical._spec w) as [h|] eqn:Hspec; [left; reflexivity|right].
  unfold try_finally, try_except. unfold bind at 1. unfold acquire.
  destruct (Physical.spec_lock w).
  - exists w. repeat split. assumption.
  - rewrite assign_spec_waits by assumption.
    eexists. split; [reflexivity|]. repeat split. assumption.
Qed.

Lemma read_waits (w : PS) :
  Physical.comm_lock w = true ->
  try_finally
    (try_except Physical.read_try (fun _ => ret tt))
    (release Physical.comm_lock Physical.set_comm_lock) w
  = (Blocked, w).
Proof.
  intros H. unfold Physical.read_try, try_finally, try_except.
  now rewrite acquire_comm_held.
Qed.

Lemma get_spectrum_waits (w : PS) :
  Physical.comm_lock w = true ->
  exists w',
    Physical.get_spectrum w = (Blocked, w')
    /\ Physical.hw w' = Physical.hw w
    /\ Physical._spectralData w' = Physical._spectralData w
    /\ Physical._spec w' = Physical._spec w.
Proof.
  intros H. unfold Physical.get_spectrum. unfold bind at 1.
  destruct (rebind_waits w H) as [Hrun|(w' & Hrun & Hw)]; rewrite Hrun.
  - cbv beta iota. unfold bind at 1. rewrite read_waits by assumption.
    exists w. repeat split.
  - exists w'. split; [reflexivity|assumption].
Qed.

Lemma send_control_values_waits commands (w : PS) :
  Physical.comm_lock w = true ->
  exists o, Physical.send_control_values commands w = (o, w).
Proof.
  intros H. unfold Physical.send_control_values.
  destruct (dict_keys commands) as [|id rest]; [cbn; unfold ret; eauto|].
  cbn [Physical.send_loop]. unfold bind.
  rewrite dispatch_waits by assumption. eauto.
Qed.

Lemma invoke_waits m (w : PS) :
  Physical.comm_lock w = true ->
  Physical.hw (invoke m w) = Physical.hw w
  /\ Physical._spectralData (invoke m w) = Physical._spectralData w
  /\ Physical._spec (invoke m w) = Physical._spec w.
Proof.
  intros H. destruct m; cbn [invoke].
  - destruct (get_spectrum_waits w H) as (w' & Hrun & Hw). now rewrite Hrun.
  - destruct (send_control_values_waits commands w H) as (o & Hrun).
    now rewrite Hrun.
  - destruct (locked_assign_waits (gets Physical._specmodel) w H)
      as (w' & Hrun & Hw). unfold Physical.model. now rewrite Hrun.
  - destruct (locked_assign_waits (gets Physical._int_time_max) w H)
      as (w' & Hrun & Hw). unfold Physical.int_time_max. now rewrite Hrun.
  - destruct (locked_assign_waits (gets Physical._int_time_min) w H)
      as (w' & Hrun & Hw). unfold Physical.int_time_min. now rewrite Hrun.
  - rewrite assign_spec_waits by assumption. cbn. auto.
Qed.

End PhysicalExclusion.

(** X2.  While the communication lock is held by someone else, no method
    of the physical class reaches the driver: whichever is called, the
    hardware, the cached spectrum and the handle are as they were. *)
Theorem no_driver_call_without_the_comm_lock :
  forall drv m (w : Physical.PhysicalSpectrometer drv),
    Physical.comm_lock w = true ->
    Physical.hw (invoke m w) = Physical.hw w
    /\ Physical._spectralData (invoke m w) = Physical._spectralData w
    /\ Physical._spec (invoke m w) = Physical._spec w.
Proof. intros drv m w. apply invoke_waits. Qed.

Lemma no_driver_call_without_the_comm_lock_witness :
  let w := Physical.set_comm_lock true
             (snd (Physical.new (drv := bench) (plugged 9))) in
  Physical.hw (invoke Get_spectrum w) = Physical.hw w
  /\ Physical._spectralData (invoke Get_spectrum w) = Physical._spectralData w
  /\ Physical._spec (invoke Get_spectrum w) = Physical._spec w.
Proof.
  intros w. apply (no_driver_call_without_the_comm_lock bench Get_spectrum w).
  reflexivity.
Defined.

Section PhysicalBinding.
Context {drv : Driver}.
Local Notation "'PS'" := (Physical.PhysicalSpectrometer drv).

Ltac unfold_body :=
  cbv [bind Physical.call Physical.first_device Physical.spec_attr modify ret
       raise gets release];
  cbn [fst snd Physical.hw Physical._spec Physical._specmodel
       Physical._spectralData Physical._controlFunctions
       Physical._int_time_max Physical._int_time_min
       Physical.comm_lock Physical.spec_lock
       Physical.set_hw Physical.set_spec Physical.set_specmodel
       Physical.set_int_time_min Physical.set_int_time_max
       Physical.set_comm_lock Physical.set_spec_lock
       Physical.set_spectralData].

Lemma assign_spec_binds (w : PS) h h1 m h2 lo h3 hi h4 :
  Physical.comm_lock w = false ->
  discover (Physical.hw w) = (Success h, h1) ->
  spec_model drv h h1 = (Success m, h2) ->
  integration_time_micros_limits drv h h2 = (Success lo, h3) ->
  integration_time_micros_limits drv h h3 = (Success hi, h4) ->
  Physical.assign_spec w
  = (Ok tt,
     Physical.set_int_time_max (snd hi)
       (Physical.set_int_time_min (fst lo)
          (Physical.set_specmodel m
             (Physical.set_spec (Some h) (Physical.set_hw h4 w))))).
Proof.
  intros Hfree Hd Hm Hlo Hhi.
  unfold Physical.assign_spec, Physical.assign_spec_try, try_finally, try_except.
  rewrite acquire_comm_free by assumption.
  unfold discover in Hd. unfold_body.
  destruct (list_devices drv (Physical.hw w)) as [[[|d devices]|e0] h0];
    try discriminate.
  unfold_body. rewrite Hd. unfold_body. rewrite Hm. unfold_body.
  rewrite Hlo. unfold_body. rewrite Hhi. unfold_body.
  destruct w; cbn in *; subst; reflexivity.
Qed.

(** [get_spectrum] with a device bound: one call of the driver. *)
Lemma get_spectrum_bound (w : PS) h :
  idle w ->
  Physical._spec w = Some h ->
  Physical.get_spectrum w
  = match spectrum drv h false true (Physical.hw w) with
    | (Success d, h1) =>
        (Ok d, Physical.set_spectralData d (Physical.set_hw h1 w))
    | (Failure _, h1) =>
        (Ok (Physical._spectralData w), Physical.set_hw h1 w)
    end.
Proof.
  intros [Hc Hs] Hh.
  unfold Physical.get_spectrum, Physical.rebind_if_unbound.
  unfold bind at 1. rewrite Hh. cbv beta iota.
  unfold bind at 1. unfold Physical.read_try, try_finally, try_except.
  rewrite acquire_comm_free by assumption. unfold_body. rewrite Hh.
  unfold_body.
  destruct (spectrum drv h false true (Physical.hw w)) as [[d|e] h1];
    unfold_body; destruct w; cbn in *; subst; reflexivity.
Qed.

End PhysicalBinding.

(** X3.  When the driver lists a device, opens it and answers the three
    queries, [assign_spec] binds the handle and takes the model name, the
    minimum from the first query of the limits and the maximum from the
    second, whatever the fields held before; the lock is free again and
    nothing else has changed. *)
Theorem assign_spec_binds_what_the_driver_reports :
  forall drv (w : Physical.PhysicalSpectrometer drv) h h1 m h2 lo h3 hi h4,
    Physical.comm_lock w = false ->
    discover (Physical.hw w) = (Success h, h1) ->
    spec_model drv h h1 = (Success m, h2) ->
    integration_time_micros_limits drv h h2 = (Success lo, h3) ->
    integration_time_micros_limits drv h h3 = (Success hi, h4) ->
    Physical.assign_spec w
    = (Ok tt,
       Physical.set_int_time_max (snd hi)
         (Physical.set_int_time_min (fst lo)
            (Physical.set_specmodel m
               (Physical.set_spec (Some h) (Physical.set_hw h4 w))))).
Proof. intros drv w. apply assign_spec_binds. Qed.

Lemma assign_spec_binds_what_the_driver_reports_witness :
  let w := Physical.base_init (drv := bench) (plugged 5) in
  Physical.assign_spec w
  = (Ok tt,
     Physical.set_int_time_max 65535000
       (Physical.set_int_time_min 1000
          (Physical.set_specmodel "USB2000+"
             (Physical.set_spec (drv := bench) (Some tt)
                (Physical.set_hw (drv := bench) (plugged 0) w))))).
Proof.
  intros w.
  apply (assign_spec_binds_what_the_driver_reports bench w tt (plugged 3)
           "USB2000+" (plugged 2) bench_limits (plugged 1) bench_limits
           (plugged 0)); reflexivity.
Defined.

(** X4.  With a device bound, [get_spectrum] on an idle object calls the
    driver once, for a spectrum with the dark-count correction off and the
    non-linearity correction on, and does not look for devices again.  A
    successful read is returned and cached; after a failed one the cache
    is returned, and only the hardware has moved on. *)
Theorem get_spectrum_reads_once_when_bound :
  forall drv (w : Physical.PhysicalSpectrometer drv) h,
    idle w ->
    Physical._spec w = Some h ->
    Physical.get_spectrum w
    = match spectrum drv h false true (Physical.hw w) with
      | (Success d, h1) =>
          (Ok d, Physical.set_spectralData d (Physical.set_hw h1 w))
      | (Failure _, h1) =>
          (Ok (Physical._spectralData w), Physical.set_hw h1 w)
      end.
Proof. intros drv w. apply get_spectrum_bound. Qed.

Lemma get_spectrum_reads_once_when_bound_witness :
  let w := snd (Physical.new (drv := bench) (plugged 6)) in
  Physical.get_spectrum w
  = (Ok bench_spectrum,
     Physical.set_spectralData bench_spectrum
       (Physical.set_hw (drv := bench) (plugged 0) w)).
Proof.
  intros w.
  apply (get_spectrum_reads_once_when_bound bench w tt);
    [split; reflexivity|reflexivity].
Defined.

(** ** A batch in which every entry fails and nothing is touched *)

Section LoopAllFail.
Context {W : Type}.
Variable dispatch : string -> M W (string + string).
Variable w : W.
Variable msg : string -> string.
Hypothesis dispatch_fails : forall id, dispatch id w = (Ok (inr (msg id)), w).

Lemma loop_all_fail :
  forall ids failed succeeded,
    loop dispatch ids failed succeeded w
    = (Ok (fold_left (fun d id => dict_set d id (msg id)) ids failed,
           succeeded), w).
Proof.
  induction ids as [|id rest IH]; intros failed succeeded; [reflexivity|].
  cbn [loop fold_left]. unfold bind. rewrite dispatch_fails. apply IH.
Qed.

Lemma dict_get_fold_set_other ids :
  forall (failed : dict string) k,
    ~ In k ids ->
    dict_get (fold_left (fun d id => dict_set d id (msg id)) ids failed) k
    = dict_get failed k.
Proof.
  induction ids as [|id rest IH]; intros failed k Hin; [reflexivity|].
  cbn [fold_left]. cbn in Hin. rewrite IH by tauto.
  apply dict_get_set_other. tauto.
Qed.

Lemma dict_get_fold_set ids :
  forall (failed : dict string) k,
    In k ids ->
    dict_get (fold_left (fun d id => dict_set d id (msg id)) ids failed) k
    = Some (msg k).
Proof.
  induction ids as [|id rest IH]; intros failed k Hin; [destruct Hin|].
  cbn [fold_left].
  destruct (in_dec string_dec k rest) as [Hr|Hr]; [now apply IH|].
  destruct Hin as [->|Hin]; [|contradiction].
  rewrite dict_get_fold_set_other by assumption. apply dict_get_set_same.
Qed.

End LoopAllFail.

Section PhysicalUnbound.
Context {drv : Driver}.
Local Notation "'PS'" := (Physical.PhysicalSpectrometer drv).

Lemma dispatch_unbound commands id (w : PS) :
  physical_ready w ->
  Physical._spec w = None ->
  Physical.dispatch commands id w
  = (Ok (inr (if String.eqb integration_time_input id
              then unbound_message else strip_b (repr id))), w).
Proof.
  intros [[Hc Hs] Ht] Hnone.
  destruct (String.eqb_spec integration_time_input id) as [<-|Hne].
  - unfold Physical.dispatch, Physical.dispatch_try, try_finally, try_except.
    unfold bind at 1. rewrite acquire_comm_free by assumption.
    unfold bind, gets, subscript. cbn.
    rewrite Ht. unfold Physical.control_table. cbn [dict_get].
    rewrite String.eqb_refl.
    cbv [Physical.eval bind Physical.spec_attr ret]. cbn. rewrite Hnone.
    destruct w; cbn in Hc, Hs; subst. reflexivity.
  - apply Physical_dispatch_unknown; [assumption|].
    rewrite Ht. unfold Physical.control_table. cbn [dict_get].
    destruct (String.eqb_spec integration_time_input id); congruence.
Qed.

Lemma send_control_values_unbound commands (w : PS) :
  physical_ready w ->
  Physical._spec w = None ->
  exists failed,
    Physical.send_control_values commands w = (Ok (failed, []), w)
    /\ forall k,
         In k (dict_keys commands) ->
         dict_get failed k
         = Some (if String.eqb integration_time_input k
                 then unbound_message else strip_b (repr k)).
Proof.
  intros Hr Hnone. unfold Physical.send_control_values.
  rewrite Physical_send_loop_is_loop.
  rewrite (loop_all_fail (Physical.dispatch commands) w
             (fun id => if String.eqb integration_time_input id
                        then unbound_message else strip_b (repr id))
             (fun id => dispatch_unbound commands id w Hr Hnone)).
  eexists. split; [reflexivity|].
  intros k Hk. now rewrite dict_get_fold_set.
Qed.

End PhysicalUnbound.

(** X5.  With no device bound, [send_control_values] of the physical
    class fails every entry of the batch and reaches neither the driver
    nor any field: the object is returned as it was, [succeeded] is empty,
    and [failed] holds, for the integration-time id, the message of the
    missing attribute of [None], and for any other id the text of its
    [KeyError]. *)
Theorem unbound_device_fails_every_entry :
  forall drv commands (w : Physical.PhysicalSpectrometer drv),
    physical_ready w ->
    Physical._spec w = None ->
    exists failed,
      Physical.send_control_values commands w = (Ok (failed, []), w)
      /\ forall k,
           In k (dict_keys commands) ->
           dict_get failed k
           = Some (if String.eqb integration_time_input k
                   then unbound_message else strip_b (repr k)).
Proof. intros drv commands w. apply send_control_values_unbound. Qed.

Lemma unbound_device_fails_every_entry_witness :
  let w := snd (Physical.new (drv := bench) unplugged) in
  exists failed,
    Physical.send_control_values
      [(integration_time_input, 5000); ("gain", 2)] w
    = (Ok (failed, []), w)
    /\ forall k,
         In k [integration_time_input; "gain"] ->
         dict_get failed k
         = Some (if String.eqb integration_time_input k
                 then unbound_message else strip_b (repr k)).
Proof.
  intros w.
  apply (unbound_device_fails_every_entry bench
           [(integration_time_input, 5000); ("gain", 2)] w);
    [repeat split|reflexivity].
Defined.

(** ** A driver that never gets a device open *)

Section PhysicalNoDevice.
Context {drv : Driver}.
Hypothesis no_device : never_opens drv.
Local Notation "'PS'" := (Physical.PhysicalSpectrometer drv).

Lemma assign_spec_no_device (w : PS) :
  Physical.comm_lock w = false ->
  Physical.assign_spec w
  = (Ok tt, Physical.set_hw (snd (discover (Physical.hw w))) w).
Proof.
  intros Hc. destruct (no_device (Physical.hw w)) as [e He].
  now apply (assign_spec_discover_fails w e).
Qed.

Lemma locked_assign_no_device (w : PS) :
  idle w ->
  Physical.set_spec_lock false
    (snd (Physical.assign_spec (Physical.set_spec_lock true w)))
  = Physical.set_hw (snd (discover (Physical.hw w))) w.
Proof.
  intros [Hc Hs]. rewrite assign_spec_no_device by assumption.
  destruct w; cbn in *; subst; reflexivity.
Qed.

Lemma unassigned_set_hw h (w : PS) :
  unassigned w -> unassigned (Physical.set_hw h w).
Proof. intros H. exact H. Qed.

Lemma get_spectrum_no_device (w : PS) :
  idle w ->
  unassigned w ->
  Physical.get_spectrum w
  = (Ok ([], []), Physical.set_hw (snd (discover (Physical.hw w))) w).
Proof.
  intros Hidle Hu. pose proof Hu as (Hspec & _ & _ & _ & Hdata).
  destruct Hidle as [Hc Hs].
  unfold Physical.get_spectrum, Physical.rebind_if_unbound.
  unfold bind at 1. rewrite Hspec.
  unfold try_finally at 1, try_except at 1.
  rewrite acquire_spec_free by assumption.
  rewrite assign_spec_no_device by assumption.
  unfold release at 1.
  cbn [fst snd Physical.spec_lock Physical.set_hw Physical.set_spec_lock
       Physical.hw].
  unfold bind at 1. unfold Physical.read_try, try_finally, try_except.
  rewrite acquire_comm_free by (cbn; assumption).
  unfold bind, Physical.spec_attr, release, gets.
  cbn [fst snd Physical._spec Physical.set_hw Physical.set_spec_lock
       Physical.set_comm_lock Physical.comm_lock Physical.hw
       Physical._spectralData].
  rewrite Hspec. cbn. rewrite Hdata.
  destruct w; cbn in *; subst; reflexivity.
Qed.

Lemma dispatch_keeps_assigned commands id :
  keeps (fun w : PS =>
           (Physical._spec w, Physical._specmodel w, Physical._int_time_min w,
            Physical._int_time_max w, Physical._spectralData w))
        (Physical.dispatch (drv := drv) commands id).
Proof. unfold Physical.dispatch, Physical.dispatch_try. frame. Qed.

Lemma invoke_no_device m (w : PS) :
  idle w -> unassigned w -> unassigned (invoke m w).
Proof.
  intros Hidle Hu. destruct m; cbn [invoke].
  - rewrite get_spectrum_no_device by assumption. exact Hu.
  - pose proof (Physical_send_loop_keeps _ commands (dict_keys commands) [] []
                  dispatch_keeps_assigned w) as Hk.
    cbn in Hk. unfold Physical.send_control_values.
    injection Hk as H1 H2 H3 H4 H5.
    destruct Hu as (U1 & U2 & U3 & U4 & U5).
    repeat split; congruence.
  - destruct (locked_assign_returns (gets Physical._specmodel) w Hidle)
      as (w1 & Hrun & _ & Hw1).
    unfold Physical.model. rewrite Hrun. cbn [gets snd]. rewrite Hw1.
    rewrite locked_assign_no_device by assumption. exact Hu.
  - destruct (locked_assign_returns (gets Physical._int_time_max) w Hidle)
      as (w1 & Hrun & _ & Hw1).
    unfold Physical.int_time_max. rewrite Hrun. cbn [gets snd]. rewrite Hw1.
    rewrite locked_assign_no_device by assumption. exact Hu.
  - destruct (locked_assign_returns (gets Physical._int_time_min) w Hidle)
      as (w1 & Hrun & _ & Hw1).
    unfold Physical.int_time_min. rewrite Hrun. cbn [gets snd]. rewrite Hw1.
    rewrite locked_assign_no_device by assumption. exact Hu.
  - rewrite assign_spec_no_device by apply Hidle. exact Hu.
Qed.

Lemma session_no_device calls :
  forall (w : PS) last,
    idle w -> unassigned w -> unassigned (fst (session calls w last)).
Proof.
  induction calls as [|m calls IH]; intros w last Hidle Hu; [assumption|].
  cbn [session]. apply IH.
  - now apply invoke_idle.
  - now apply invoke_no_device.
Qed.

Lemma new_no_device (h : HW drv) : unassigned (snd (Physical.new h)).
Proof.
  unfold Physical.new, Physical.init.
  destruct (locked_assign_returns
              (modify (Physical.set_controlFunctions Physical.control_table))
              (Physical.base_init h)) as (w1 & Hrun & _ & Hw1).
  { split; reflexivity. }
  rewrite Hrun. cbn [modify snd]. rewrite Hw1.
  rewrite locked_assign_no_device by (split; reflexivity).
  repeat split.
Qed.

Lemma accessors_no_device (w : PS) :
  idle w -> unassigned w ->
  fst (Physical.model w) = Ok ""
  /\ fst (Physical.int_time_max w) = Ok 1
  /\ fst (Physical.int_time_min w) = Ok 0
  /\ fst (Physical.get_spectrum w) = Ok ([], []).
Proof.
  intros Hidle Hu. pose proof Hu as (U1 & U2 & U3 & U4 & U5).
  destruct (locked_assign_returns (gets Physical._specmodel) w Hidle)
    as (w1 & Hrun1 & _ & Hw1).
  destruct (locked_assign_returns (gets Physical._int_time_max) w Hidle)
    as (w2 & Hrun2 & _ & Hw2).
  destruct (locked_assign_returns (gets Physical._int_time_min) w Hidle)
    as (w3 & Hrun3 & _ & Hw3).
  unfold Physical.model, Physical.int_time_max, Physical.int_time_min.
  rewrite Hrun1, Hrun2, Hrun3, Hw1, Hw2, Hw3.
  rewrite locked_assign_no_device by assumption.
  rewrite get_spectrum_no_device by assumption.
  cbn. repeat split; congruence.
Qed.

End PhysicalNoDevice.

Lemma empty_bus_never_opens : never_opens empty_bus.
Proof. intros hw. eexists. reflexivity. Qed.

(** X6.  On a driver that never gets a device open, the physical object
    stays as the base initialiser made it through any session of calls:
    no handle, an empty model name, the bounds 0 and 1, an empty spectrum;
    and that is what [model], [int_time_max], [int_time_min] and
    [get_spectrum] return, none of them raising. *)
Theorem without_a_device_the_defaults_remain :
  forall drv (h : HW drv) calls,
    never_opens drv ->
    let w := fst (session calls (snd (Physical.new h)) ([], [])) in
    unassigned w
    /\ fst (Physical.model w) = Ok ""
    /\ fst (Physical.int_time_max w) = Ok 1
    /\ fst (Physical.int_time_min w) = Ok 0
    /\ fst (Physical.get_spectrum w) = Ok ([], []).
Proof.
  intros drv h calls Hno w.
  destruct (Physical_new_ready h) as [_ [Hidle _]].
  pose proof (session_idle calls _ ([], []) Hidle) as Hi.
  pose proof (session_no_device Hno calls _ ([], []) Hidle
                (new_no_device Hno h)) as Hu.
  split; [exact Hu|]. now apply accessors_no_device.
Qed.

Lemma without_a_device_the_defaults_remain_witness :
  let w := fst (session [Get_spectrum; Model;
                         Send_control_values [(integration_time_input, 5)]]
                  (snd (Physical.new (drv := empty_bus) tt)) ([], [])) in
  unassigned w
  /\ fst (Physical.model w) = Ok ""
  /\ fst (Physical.int_time_max w) = Ok 1
  /\ fst (Physical.int_time_min w) = Ok 0
  /\ fst (Physical.get_spectrum w) = Ok ([], []).
Proof.
  apply (without_a_device_the_defaults_remain empty_bus tt).
  exact empty_bus_never_opens.
Defined.

(** ** [str(e).strip('b')] *)

Lemma lstrip_head c l : hd_error (lstrip c l) <> Some c.
Proof.
  induction l as [|x l IH]; cbn; [discriminate|].
  destruct (Ascii.eqb_spec x c) as [->|Hne]; [assumption|].
  cbn. congruence.
Qed.

Lemma lstrip_prefix c l : exists k, l = (repeat c k ++ lstrip c l)%list.
Proof.
  induction l as [|x l [k IH]]; cbn.
  - exists O. reflexivity.
  - destruct (Ascii.eqb_spec x c) as [->|Hne].
    + exists (Datatypes.S k). cbn. now rewrite <- IH.
    + exists O. reflexivity.
Qed.

Lemma rev_repeat_same {A} (x : A) k : rev (repeat x k) = repeat x k.
Proof.
  induction k as [|k IH]; [reflexivity|].
  cbn. rewrite IH. clear IH. induction k as [|k IH]; [reflexivity|].
  cbn. now rewrite IH.
Qed.

(** What [strip('b')] returns: the text without the [b]s at its two
    ends, and with no [b] left at either end. *)
Lemma strip_b_spec s :
  let text := list_ascii_of_string (strip_b s) in
  (exists i j,
      list_ascii_of_string s
      = (repeat "b"%char i ++ text ++ repeat "b"%char j)%list)
  /\ hd_error text <> Some "b"%char
  /\ hd_error (rev text) <> Some "b"%char.
Proof.
  unfold strip_b. cbv zeta. rewrite list_ascii_of_string_of_list_ascii.
  set (c := "b"%char). set (l := list_ascii_of_string s).
  destruct (lstrip_prefix c l) as [i Hi].
  destruct (lstrip_prefix c (rev (lstrip c l))) as [j Hj].
  set (B := lstrip c (rev (lstrip c l))) in *.
  assert (HA : lstrip c l = (rev B ++ repeat c j)%list).
  { rewrite <- (rev_involutive (lstrip c l)), Hj, rev_app_distr.
    now rewrite rev_repeat_same. }
  split; [|split].
  - exists i, j. rewrite Hi at 1. now rewrite HA.
  - pose proof (lstrip_head c l) as Hh. rewrite HA in Hh.
    destruct (rev B) as [|x r]; [discriminate|exact Hh].
  - rewrite rev_involutive. apply lstrip_head.
Qed.

(** X7.  When the setter of the driver refuses a value, the physical
    class reports, under the integration-time id, the text of the error
    with the letters [b] at its two ends removed: what is shown to the
    operator never begins or ends with a [b], whatever the driver said. *)
Theorem driver_refusal_is_reported_stripped :
  forall drv (w : Physical.PhysicalSpectrometer drv) h v e hw',
    physical_ready w ->
    Physical._spec w = Some h ->
    integration_time_micros drv h v (Physical.hw w) = (Failure e, hw') ->
    let text := strip_b (str_exn e) in
    Physical.send_control_values [(integration_time_input, v)] w
    = (Ok ([(integration_time_input, text)], []), Physical.set_hw hw' w)
    /\ (exists i j,
           list_ascii_of_string (str_exn e)
           = (repeat "b"%char i ++ list_ascii_of_string text
              ++ repeat "b"%char j)%list)
    /\ hd_error (list_ascii_of_string text) <> Some "b"%char
    /\ hd_error (rev (list_ascii_of_string text)) <> Some "b"%char.
Proof.
  intros drv w h v e hw' Hr Hh Hfail text.
  destruct (Physical_send_single w h v Hr Hh) as (r & Hrun & Hres).
  rewrite Hfail in Hrun, Hres. cbn in Hrun, Hres. subst r.
  split; [exact Hrun|]. apply strip_b_spec.
Qed.

Lemma driver_refusal_is_reported_stripped_witness :
  let w := snd (Physical.new (drv := bench) (plugged 20)) in
  let text := "integration time out of range" in
  Physical.send_control_values [(integration_time_input, -5)] w
  = (Ok ([(integration_time_input, text)], []),
     Physical.set_hw (drv := bench)
       {| calls_left := 15; received := [-5] |} w)
  /\ (exists i j,
         list_ascii_of_string text
         = (repeat "b"%char i ++ list_ascii_of_string text
            ++ repeat "b"%char j)%list)
  /\ hd_error (list_ascii_of_string text) <> Some "b"%char
  /\ hd_error (rev (list_ascii_of_string text)) <> Some "b"%char.
Proof.
  intros w text.
  apply (driver_refusal_is_reported_stripped bench w tt (-5)
           (DriverError "integration time out of range")
           {| calls_left := 15; received := [-5] |});
    [repeat split|reflexivity|reflexivity].
Defined.

(* ================================================================== *)
(** * Further properties of the simulated class                        *)
(* ================================================================== *)

Lemma Demo_dispatch_other commands k s :
  Demo.controlFunctions s = Demo.control_table ->
  k <> integration_time_input ->
  Demo.dispatch commands k s = (Ok (inr (repr k)), s).
Proof.
  intros Ht Hne. apply Demo_dispatch_unknown. rewrite Ht.
  unfold Demo.control_table. cbn [dict_get].
  destruct (String.eqb_spec integration_time_input k); congruence.
Qed.

Lemma Demo_dispatch_known commands v s :
  Demo.controlFunctions s = Demo.control_table ->
  dict_get commands integration_time_input = Some v ->
  Demo.dispatch commands integration_time_input s
  = (Ok (inl (str v)), Demo.set_sample_data_scale v s).
Proof.
  intros Ht Hv. apply Demo_dispatch_integration_time; [|assumption].
  rewrite Ht. unfold Demo.control_table. cbn [dict_get].
  now rewrite String.eqb_refl.
Qed.

Lemma filter_without_absent id ids :
  ~ In id ids -> filter (fun k => negb (String.eqb k id)) ids = ids.
Proof.
  induction ids as [|x rest IH]; intros Hn; [reflexivity|].
  cbn in Hn |- *. destruct (String.eqb_spec x id) as [->|Hx]; [tauto|].
  cbn. f_equal. apply IH. tauto.
Qed.

(** The loop over ids none of which is the integration-time id. *)
Lemma Demo_loop_others commands ids :
  forall failed succeeded s,
    Demo.controlFunctions s = Demo.control_table ->
    ~ In integration_time_input ids ->
    loop (Demo.dispatch commands) ids failed succeeded s
    = (Ok (fold_left (fun d k => dict_set d k (repr k)) ids failed, succeeded),
       s).
Proof.
  induction ids as [|k rest IH]; intros failed succeeded s Ht Hn;
    [reflexivity|].
  cbn [loop fold_left]. unfold bind. cbn in Hn.
  rewrite Demo_dispatch_other by tauto. apply IH; tauto.
Qed.

(** The loop over distinct ids one of which is the integration-time id. *)
Lemma Demo_loop_with_integration_time commands v ids :
  dict_get commands integration_time_input = Some v ->
  forall failed succeeded s,
    Demo.controlFunctions s = Demo.control_table ->
    NoDup ids ->
    In integration_time_input ids ->
    loop (Demo.dispatch commands) ids failed succeeded s
    = (Ok (fold_left (fun d k => dict_set d k (repr k))
             (filter (fun k => negb (String.eqb k integration_time_input)) ids)
             failed,
           dict_set succeeded integration_time_input (str v)),
       Demo.set_sample_data_scale v s).
Proof.
  intros Hv. induction ids as [|k rest IH]; intros failed succeeded s Ht Hnd Hin;
    [destruct Hin|].
  inversion Hnd as [|? ? Hnotin Hnd']; subst.
  cbn [loop filter]. unfold bind.
  destruct (String.eqb_spec k integration_time_input) as [->|Hne]; cbn [negb].
  - rewrite (Demo_dispatch_known commands v) by assumption.
    rewrite Demo_loop_others by (cbn; assumption).
    now rewrite filter_without_absent.
  - rewrite Demo_dispatch_other by assumption. cbn [fold_left].
    apply IH; auto. destruct Hin; [congruence|assumption].
Qed.

Lemma dict_get_some_in_keys {V} (d : dict V) k v :
  dict_get d k = Some v -> In k (dict_keys d).
Proof.
  induction d as [|[k' v'] d IH]; cbn; [discriminate|].
  destruct (String.eqb_spec k' k) as [->|Hne]; [auto|]. intros H. auto.
Qed.

Lemma Demo_send_control_values_effect commands s :
  Demo.controlFunctions s = Demo.control_table ->
  distinct (dict_keys commands) = true ->
  exists failed,
    Demo.send_control_values commands s
    = (Ok (failed,
           match dict_get commands integration_time_input with
           | Some v => [(integration_time_input, str v)]
           | None => []
           end),
       match dict_get commands integration_time_input with
       | Some v => Demo.set_sample_data_scale v s
       | None => s
       end)
    /\ dict_get failed integration_time_input = None
    /\ forall k,
         In k (dict_keys commands) -> k <> integration_time_input ->
         dict_get failed k = Some (repr k).
Proof.
  intros Ht Hd. apply distinct_NoDup in Hd.
  unfold Demo.send_control_values. rewrite Demo_send_loop_is_loop.
  destruct (dict_get commands integration_time_input) as [v|] eqn:Hv.
  - rewrite (Demo_loop_with_integration_time commands v) by
      eauto using dict_get_some_in_keys.
    eexists. split; [reflexivity|]. split.
    + rewrite dict_get_fold_set_other; [reflexivity|].
      intros Hin. apply filter_In in Hin as [_ Hin].
      now rewrite String.eqb_refl in Hin.
    + intros k Hk Hne. apply dict_get_fold_set. apply filter_In.
      split; [assumption|]. destruct (String.eqb_spec k integration_time_input);
        [contradiction|reflexivity].
  - assert (Hn : ~ In integration_time_input (dict_keys commands)).
    { intros Hin. apply dict_get_in_keys in Hin as [v Hv']. congruence. }
    rewrite Demo_loop_others by assumption.
    eexists. split; [reflexivity|]. split.
    + now rewrite dict_get_fold_set_other.
    + intros k Hk _. now apply dict_get_fold_set.
Qed.

(** X8.  What a batch does to a simulated device (a batch that is a
    dictionary, a device with its table of control functions): when the
    batch has the integration-time id, its value becomes the scale and is
    the only entry of [succeeded]; when it has not, the device is left as
    it was and [succeeded] is empty.  Every other id of the batch is in
    [failed] with the text of its [KeyError], and nothing else is. *)
Theorem simulated_batch_sets_the_scale :
  forall commands s,
    Demo.controlFunctions s = Demo.control_table ->
    distinct (dict_keys commands) = true ->
    exists failed,
      Demo.send_control_values commands s
      = (Ok (failed,
             match dict_get commands integration_time_input with
             | Some v => [(integration_time_input, str v)]
             | None => []
             end),
         match dict_get commands integration_time_input with
         | Some v => Demo.set_sample_data_scale v s
         | None => s
         end)
      /\ dict_get failed integration_time_input = None
      /\ forall k,
           In k (dict_keys commands) -> k <> integration_time_input ->
           dict_get failed k = Some (repr k).
Proof. exact Demo_send_control_values_effect. Qed.

Lemma simulated_batch_sets_the_scale_witness :
  let s := snd (Demo.new zeros) in
  exists failed,
    Demo.send_control_values
      [("gain", 2); (integration_time_input, 40); ("shutter", 1)] s
    = (Ok (failed, [(integration_time_input, "40")]),
       Demo.set_sample_data_scale 40 s)
    /\ dict_get failed integration_time_input = None
    /\ forall k,
         In k ["gain"; integration_time_input; "shutter"] ->
         k <> integration_time_input ->
         dict_get failed k = Some (repr k).
Proof.
  intros s.
  apply (simulated_batch_sets_the_scale
           [("gain", 2); (integration_time_input, 40); ("shutter", 1)] s);
    reflexivity.
Defined.

(** ** Polls of the simulated class *)

Lemma advance_spec k : forall g n, advance k g n = g (k + n)%nat.
Proof.
  induction k as [|k IH]; intros g n; [reflexivity|].
  cbn [advance]. rewrite IH. reflexivity.
Qed.

(** X9.  A poll of a simulated device whose scale and offset have floats
    draws exactly 5000 numbers from the generator and caches what it
    returns; the scale, the offset, the table of control functions, the
    model name and the bounds are as they were.  So the next poll returns
    the same wavelengths, and for its intensity of index [i] it takes the
    draw of index [5000 + i]. *)
Theorem simulated_poll_only_advances_the_generator :
  forall s,
    in_float_range s ->
    exists ys s',
      Demo.get_spectrum s = (Ok (linspace 400 900 5000, ys), s')
      /\ Demo._spectralData s' = (linspace 400 900 5000, ys)
      /\ (forall n, Demo.rng s' n = Demo.rng s (5000 + n)%nat)
      /\ Demo._sample_data_scale s' = Demo._sample_data_scale s
      /\ Demo._sample_data_add s' = Demo._sample_data_add s
      /\ Demo.controlFunctions s' = Demo.controlFunctions s
      /\ Demo._specmodel s' = Demo._specmodel s
      /\ Demo._int_time_min s' = Demo._int_time_min s
      /\ Demo._int_time_max s' = Demo._int_time_max s
      /\ exists ys' s'',
           Demo.get_spectrum s' = (Ok (linspace 400 900 5000, ys'), s'')
           /\ forall i, (i < 5000)%nat ->
                nth i ys' 0%R
                = intensity (Demo._sample_data_scale s)
                    (Demo._sample_data_add s)
                    (nth i (linspace 400 900 5000) 0%R)
                    (Demo.rng s (5000 + i)%nat).
Proof.
  intros s Hr. pose proof (Demo_get_spectrum_state s Hr) as Hrun.
  cbv zeta in Hrun.
  eexists; eexists. split; [exact Hrun|].
  split; [reflexivity|].
  split.
  { intros n. cbn [Demo.rng Demo.set_spectralData Demo.set_rng].
    now rewrite advance_spec, length_linspace. }
  do 6 (split; [reflexivity|]).
  match goal with
  | |- exists ys' s'', Demo.get_spectrum ?s1 = _ /\ _ =>
      pose proof (Demo_get_spectrum_state s1 Hr) as Hrun1; cbv zeta in Hrun1
  end.
  eexists; eexists. split; [exact Hrun1|].
  intros i Hi. rewrite nth_samples by (rewrite length_linspace; lia).
  cbn [Demo.rng Demo._sample_data_scale Demo._sample_data_add
       Demo.set_spectralData Demo.set_rng].
  now rewrite advance_spec, length_linspace.
Qed.

Lemma simulated_poll_only_advances_the_generator_witness :
  exists ys s',
    Demo.get_spectrum (snd (Demo.new zeros))
    = (Ok (linspace 400 900 5000, ys), s')
    /\ Demo._spectralData s' = (linspace 400 900 5000, ys)
    /\ (forall n, Demo.rng s' n = zeros (5000 + n)%nat).
Proof.
  destruct (simulated_poll_only_advances_the_generator (snd (Demo.new zeros)))
    as (ys & s' & Hrun & Hdata & Hrng & _); [split; reflexivity|].
  exists ys, s'. split; [exact Hrun|]. split; [exact Hdata|exact Hrng].
Defined.

Lemma samples_zero wls :
  forall g, Forall (fun y => y = 0%R) (samples 0 0 g wls).
Proof.
  induction wls as [|wl rest IH]; intros g; cbn [samples]; constructor.
  - unfold intensity. lra.
  - apply IH.
Qed.

(** X10.  A simulated device whose scale and offset are 0 returns
    intensities that are all 0, whatever the generator draws; and that is
    the state of every new simulated device, whose scale starts at the
    lower bound 0. *)
Theorem simulated_device_starts_dark :
  (forall s,
      Demo._sample_data_scale s = 0 ->
      Demo._sample_data_add s = 0 ->
      exists ys s',
        Demo.get_spectrum s = (Ok (linspace 400 900 5000, ys), s')
        /\ Forall (fun y => y = 0%R) ys)
  /\ (forall g,
         Demo._sample_data_scale (snd (Demo.new g)) = 0
         /\ Demo._sample_data_add (snd (Demo.new g)) = 0).
Proof.
  split.
  - intros s Hs Ha.
    assert (Hr : in_float_range s)
      by (unfold in_float_range; rewrite Hs, Ha; split; reflexivity).
    destruct (Demo_get_spectrum_eq s Hr) as (s' & Hrun & _).
    rewrite Hs, Ha in Hrun. eexists; eexists. split; [exact Hrun|].
    apply samples_zero.
  - intros g. split; reflexivity.
Qed.

Lemma simulated_device_starts_dark_witness :
  exists ys s',
    Demo.get_spectrum (snd (Demo.new zeros))
    = (Ok (linspace 400 900 5000, ys), s')
    /\ Forall (fun y => y = 0%R) ys.
Proof.
  apply (proj1 simulated_device_starts_dark (snd (Demo.new zeros)));
    reflexivity.
Defined.

Lemma samples_scale k wls :
  forall g,
    samples k 0 g wls = map (fun y => (IZR k * y)%R) (samples 1 0 g wls).
Proof.
  induction wls as [|wl rest IH]; intros g; cbn [samples map]; [reflexivity|].
  rewrite IH. f_equal. unfold intensity. ring.
Qed.

Lemma samples_upper scale wls :
  (0 <= scale)%Z ->
  forall g, unit_interval g ->
    Forall (fun y => (y <= 1.01 * IZR scale)%R) (samples scale 0 g wls).
Proof.
  intros Hs. apply IZR_le in Hs.
  induction wls as [|wl rest IH]; intros g Hg; cbn [samples]; constructor.
  - unfold intensity.
    assert ((exp (-1 * ((wl - 500) / 5) ^ 2) <= 1)%R).
    { rewrite <- exp_0. apply exp_le.
      pose proof (pow2_ge_0 ((wl - 500) / 5)). lra. }
    pose proof (Hg O). nra.
  - apply IH, unit_interval_shift, Hg.
Qed.

(** X11.  The intensities of the simulated device are proportional to its
    scale: with the offset at 0 and the same draws, a device at a scale
    [k] that has a float returns [k] times what a device at scale 1
    returns. *)
Theorem simulated_intensities_scale_linearly :
  forall s,
    Demo._sample_data_add s = 0 ->
    has_float (Demo._sample_data_scale s) = true ->
    exists s',
      Demo.get_spectrum s
      = (Ok (linspace 400 900 5000,
             map (fun y => (IZR (Demo._sample_data_scale s) * y)%R)
                 (samples 1 0 (Demo.rng s) (linspace 400 900 5000))), s').
Proof.
  intros s Ha Hs.
  assert (Hr : in_float_range s)
    by (unfold in_float_range; rewrite Ha; split; [assumption|reflexivity]).
  destruct (Demo_get_spectrum_eq s Hr) as (s' & Hrun & _).
  rewrite Ha, samples_scale in Hrun. eauto.
Qed.

Lemma simulated_intensities_scale_linearly_witness :
  let s := Demo.set_sample_data_scale 1000 (snd (Demo.new zeros)) in
  exists s',
    Demo.get_spectrum s
    = (Ok (linspace 400 900 5000,
           map (fun y => (1000 * y)%R)
               (samples 1 0 zeros (linspace 400 900 5000))), s').
Proof.
  intros s. apply (simulated_intensities_scale_linearly s); reflexivity.
Defined.

(** X12.  With a scale that is not negative and has a float, the offset at
    0 and draws in [[0, 1)], no intensity of the simulated device exceeds
    1.01 times the scale: the Gaussian is at most 1 and the noise below
    one hundredth. *)
Theorem simulated_intensities_are_bounded :
  forall s,
    Demo._sample_data_add s = 0 ->
    0 <= Demo._sample_data_scale s ->
    has_float (Demo._sample_data_scale s) = true ->
    unit_interval (Demo.rng s) ->
    exists ys s',
      Demo.get_spectrum s = (Ok (linspace 400 900 5000, ys), s')
      /\ Forall (fun y => (y <= 1.01 * IZR (Demo._sample_data_scale s))%R) ys.
Proof.
  intros s Ha Hs Hf Hg.
  assert (Hr : in_float_range s)
    by (unfold in_float_range; rewrite Ha; split; [assumption|reflexivity]).
  destruct (Demo_get_spectrum_eq s Hr) as (s' & Hrun & _).
  rewrite Ha in Hrun. eexists; eexists. split; [exact Hrun|].
  now apply samples_upper.
Qed.

Lemma simulated_intensities_are_bounded_witness :
  let s := Demo.set_sample_data_scale 1000 (snd (Demo.new zeros)) in
  exists ys s',
    Demo.get_spectrum s = (Ok (linspace 400 900 5000, ys), s')
    /\ Forall (fun y => (y <= 1.01 * 1000)%R) ys.
Proof.
  intros s. apply (simulated_intensities_are_bounded s);
    [reflexivity|cbn; lia|reflexivity|].
  intros n. change (Demo.rng s n) with 0%R. lra.
Defined.

(** ** Sessions on the simulated class *)

Lemma Demo_send_loop_keeps_fields commands ids :
  forall failed succeeded s,
    let s' := snd (Demo.send_loop commands ids failed succeeded s) in
    Demo.controlFunctions s = Demo.control_table ->
    Demo.controlFunctions s' = Demo.control_table
    /\ Demo._specmodel s' = Demo._specmodel s
    /\ Demo._int_time_min s' = Demo._int_time_min s
    /\ Demo._int_time_max s' = Demo._int_time_max s
    /\ Demo._sample_data_add s' = Demo._sample_data_add s.
Proof.
  induction ids as [|id rest IH]; intros failed succeeded s s' Ht;
    [subst s'; cbn; auto|].
  subst s'. cbn [Demo.send_loop]. unfold bind.
  destruct (String.eqb_spec id integration_time_input) as [->|Hne].
  - destruct (dict_get commands integration_time_input) as [v|] eqn:Hv.
    + rewrite (Demo_dispatch_known commands v) by assumption.
      specialize (IH failed
                    (dict_set succeeded integration_time_input (str v))
                    (Demo.set_sample_data_scale v s) Ht).
      cbv zeta in IH. exact IH.
    + unfold Demo.dispatch, Demo.dispatch_try, try_except, bind, gets,
        subscript. cbn. rewrite Ht. unfold Demo.control_table.
      cbn [dict_get]. rewrite String.eqb_refl. cbn. rewrite Hv. cbn.
      specialize (IH (dict_set failed integration_time_input
                        (repr integration_time_input)) succeeded s Ht).
      cbv zeta in IH. exact IH.
  - rewrite Demo_dispatch_other by assumption.
    specialize (IH (dict_set failed id (repr id)) succeeded s Ht).
    cbv zeta in IH. exact IH.
Qed.

Lemma demo_invoke_keeps m s :
  Demo.controlFunctions s = Demo.control_table ->
  Demo._specmodel s = "USB2000+" ->
  Demo._int_time_min s = 0 ->
  Demo._int_time_max s = 1 ->
  Demo._sample_data_add s = 0 ->
  Demo.controlFunctions (demo_invoke m s) = Demo.control_table
  /\ Demo._specmodel (demo_invoke m s) = "USB2000+"
  /\ Demo._int_time_min (demo_invoke m s) = 0
  /\ Demo._int_time_max (demo_invoke m s) = 1
  /\ Demo._sample_data_add (demo_invoke m s) = 0.
Proof.
  intros Ht Hm Hlo Hhi Ha. destruct m; cbn [demo_invoke].
  - destruct (Demo_get_spectrum_frame s) as (d & g & Hrun).
    rewrite Hrun. cbn. auto.
  - destruct (Demo_send_loop_keeps_fields commands (dict_keys commands) [] []
                s Ht) as (H1 & H2 & H3 & H4 & H5).
    unfold Demo.send_control_values. repeat split; congruence.
  - cbn. auto.
  - cbn. auto.
  - cbn. auto.
  - cbn. auto.
Qed.

Lemma demo_session_keeps calls :
  forall s,
    Demo.controlFunctions s = Demo.control_table ->
    Demo._specmodel s = "USB2000+" ->
    Demo._int_time_min s = 0 ->
    Demo._int_time_max s = 1 ->
    Demo._sample_data_add s = 0 ->
    Demo.controlFunctions (demo_session calls s) = Demo.control_table
    /\ Demo._specmodel (demo_session calls s) = "USB2000+"
    /\ Demo._int_time_min (demo_session calls s) = 0
    /\ Demo._int_time_max (demo_session calls s) = 1
    /\ Demo._sample_data_add (demo_session calls s) = 0.
Proof.
  induction calls as [|m calls IH]; intros s Ht Hm Hlo Hhi Ha; [cbn; auto|].
  cbn [demo_session].
  destruct (demo_invoke_keeps m s Ht Hm Hlo Hhi Ha) as (H1 & H2 & H3 & H4 & H5).
  now apply IH.
Qed.

(** X13.  Whatever is submitted to a simulated device and however often
    it is polled, it stays ready, names itself ["USB2000+"] and reports
    the bounds 0 and 1: the bounds do not follow the values it accepts. *)
Theorem simulated_device_keeps_its_name_and_bounds :
  forall g calls,
    let s := demo_session calls (snd (Demo.new g)) in
    demo_ready s
    /\ fst (Demo.model s) = Ok "USB2000+"
    /\ fst (Demo.int_time_min s) = Ok 0
    /\ fst (Demo.int_time_max s) = Ok 1.
Proof.
  intros g calls s.
  destruct (demo_session_keeps calls (snd (Demo.new g)))
    as (H1 & H2 & H3 & H4 & H5); try reflexivity.
  fold s in H1, H2, H3, H4, H5.
  split; [split; assumption|].
  unfold Demo.model, Demo.int_time_min, Demo.int_time_max, gets. cbn [fst].
  repeat split; congruence.
Qed.

(* ================================================================== *)
(** * The colour file                                                  *)
(* ================================================================== *)

Lemma occurs_append c s1 s2 :
  occurs c (s1 ++ s2) = occurs c s1 || occurs c s2.
Proof.
  induction s1 as [|x s1 IH]; cbn; [reflexivity|].
  now rewrite IH, orb_assoc.
Qed.

Lemma readlines_line w rest :
  occurs newline w = false ->
  readlines (w ++ String newline rest)
  = (w ++ String newline EmptyString) :: readlines rest.
Proof.
  induction w as [|c w IH]; intros Hw.
  - cbn [append readlines]. now rewrite Ascii.eqb_refl.
  - cbn [occurs] in Hw. apply orb_false_elim in Hw as [Hc Hw].
    cbn [append readlines]. rewrite Hc, IH by assumption. reflexivity.
Qed.

Lemma split_space_word s :
  occurs space s = false -> split_space s = [s].
Proof.
  induction s as [|c s IH]; intros Hs; [reflexivity|].
  cbn [occurs] in Hs. apply orb_false_elim in Hs as [Hc Hs].
  cbn [split_space]. rewrite Hc, IH by assumption. reflexivity.
Qed.

Lemma split_space_first k rest :
  occurs space k = false ->
  split_space (k ++ String space rest) = k :: split_space rest.
Proof.
  induction k as [|c k IH]; intros Hk.
  - cbn [append split_space]. now rewrite Ascii.eqb_refl.
  - cbn [occurs] in Hk. apply orb_false_elim in Hk as [Hc Hk].
    cbn [append split_space]. rewrite Hc, IH by assumption. reflexivity.
Qed.

Lemma list_ascii_of_string_append s1 s2 :
  list_ascii_of_string (s1 ++ s2)
  = (list_ascii_of_string s1 ++ list_ascii_of_string s2)%list.
Proof. induction s1 as [|c s1 IH]; cbn; [reflexivity|]. now rewrite IH. Qed.

Lemma occurs_In c s :
  occurs c s = false -> ~ In c (list_ascii_of_string s).
Proof.
  induction s as [|x s IH]; cbn; [tauto|].
  intros H. apply orb_false_elim in H as [Hx Hs]. intros [->|Hin].
  - now rewrite Ascii.eqb_refl in Hx.
  - now apply IH.
Qed.

Lemma lstrip_absent c l m :
  ~ In c l -> l <> [] -> lstrip c (l ++ m) = (l ++ m)%list.
Proof.
  destruct l as [|x l]; [congruence|]. intros Hn _. cbn.
  destruct (Ascii.eqb_spec x c) as [->|Hne]; [cbn in Hn; tauto|reflexivity].
Qed.

Lemma strip_newline_line v :
  occurs newline v = false ->
  strip_newline (v ++ String newline EmptyString) = v.
Proof.
  intros Hv. apply occurs_In in Hv. unfold strip_newline.
  rewrite list_ascii_of_string_append. cbn [list_ascii_of_string].
  rewrite <- (string_of_list_ascii_of_string v) at 2.
  f_equal.
  destruct (list_ascii_of_string v) as [|x l] eqn:E.
  - cbn [app lstrip rev]. now rewrite Ascii.eqb_refl.
  - rewrite lstrip_absent by (auto; discriminate).
    rewrite rev_app_distr. cbn [rev app lstrip]. rewrite Ascii.eqb_refl.
    assert (Hr : ~ In newline (rev (x :: l))) by (rewrite <- in_rev; exact Hv).
    rewrite <- (app_nil_r (rev l ++ [x])).
    rewrite lstrip_absent.
    + rewrite app_nil_r. change (rev l ++ [x])%list with (rev (x :: l)).
      apply rev_involutive.
    + exact Hr.
    + destruct (rev l); discriminate.
Qed.

Lemma load_color_entry k v colors :
  word k = true -> word v = true ->
  load_color (k ++ String space v ++ String newline EmptyString) colors
  = (Ok tt, dict_set colors k v).
Proof.
  unfold word. intros Hk Hv.
  apply andb_prop in Hk as [Hk _]. apply andb_prop in Hk as [Hk _].
  apply andb_prop in Hv as [Hv _]. apply andb_prop in Hv as [Hv Hvn].
  apply negb_true_iff in Hk, Hv, Hvn.
  unfold load_color. cbn [append]. rewrite split_space_first by assumption.
  rewrite split_space_word.
  - cbn. now rewrite strip_newline_line.
  - rewrite occurs_append, Hv. reflexivity.
Qed.

Lemma readlines_entry k v rest :
  occurs newline k = false ->
  occurs newline v = false ->
  readlines (k ++ String space (v ++ String newline rest))
  = (k ++ String space (v ++ String newline EmptyString)) :: readlines rest.
Proof.
  intros Hk Hv. induction k as [|c k IH].
  - cbn [append readlines].
    replace (Ascii.eqb space newline) with false by reflexivity.
    now rewrite readlines_line.
  - cbn [occurs] in Hk. apply orb_false_elim in Hk as [Hc Hk].
    cbn [append readlines]. rewrite Hc, IH by assumption. reflexivity.
Qed.

Lemma load_colour_file d :
  words d = true ->
  forall colors,
    load_lines (readlines (colour_file d)) colors
    = (Ok tt, fold_left (fun a kv => dict_set a (fst kv) (snd kv)) d colors).
Proof.
  induction d as [|[k v] d IH]; intros Hw colors; [reflexivity|].
  cbn [words] in Hw.
  apply andb_prop in Hw as [Hw Hd]. apply andb_prop in Hw as [Hk Hv].
  cbn [colour_file append].
  rewrite readlines_entry.
  - cbn [load_lines]. unfold bind at 1.
    change (String space (v ++ String newline ""))
      with (String space v ++ String newline "").
    rewrite load_color_entry by assumption. cbn [fold_left fst snd].
    now apply IH.
  - unfold word in Hk. apply andb_prop in Hk as [Hk _].
    apply andb_prop in Hk as [_ Hk]. now apply negb_true_iff in Hk.
  - unfold word in Hv. apply andb_prop in Hv as [Hv _].
    apply andb_prop in Hv as [_ Hv]. now apply negb_true_iff in Hv.
Qed.

Lemma fold_set_distinct {V} (d : dict V) :
  forall acc,
    NoDup (dict_keys acc ++ dict_keys d) ->
    fold_left (fun a kv => dict_set a (fst kv) (snd kv)) d acc
    = (acc ++ d)%list.
Proof.
  induction d as [|[k v] d IH]; intros acc Hnd; cbn [fold_left fst snd].
  - now rewrite app_nil_r.
  - assert (Hset : dict_set acc k v = (acc ++ [(k, v)])%list).
    { assert (Hk : ~ In k (dict_keys acc)).
      { intros Hin. apply NoDup_app_remove_r in Hnd as Hacc.
        cbn in Hnd. apply NoDup_remove_2 in Hnd. apply Hnd.
        apply in_or_app. now left. }
      clear Hnd IH. induction acc as [|[k' v'] acc IHa]; [reflexivity|].
      cbn in Hk |- *. destruct (String.eqb_spec k' k); [tauto|].
      rewrite IHa by tauto. reflexivity. }
    rewrite Hset, IH.
    + now rewrite <- app_assoc.
    + unfold dict_keys in *. rewrite map_app. cbn [map fst].
      rewrite <- app_assoc. exact Hnd.
Qed.

Lemma universal_newlines_absent text :
  occurs carriage_return text = false -> universal_newlines text = text.
Proof.
  induction text as [|c text IH]; intros H; [reflexivity|].
  cbn [occurs] in H. apply orb_false_elim in H as [Hc H].
  cbn [universal_newlines]. rewrite Hc, IH by assumption. reflexivity.
Qed.

Lemma colour_file_has_no_carriage_return d :
  words d = true -> occurs carriage_return (colour_file d) = false.
Proof.
  induction d as [|[k v] d IH]; intros Hw; [reflexivity|].
  cbn [words] in Hw.
  apply andb_prop in Hw as [Hw Hd]. apply andb_prop in Hw as [Hk Hv].
  unfold word in Hk, Hv.
  apply andb_prop in Hk as [_ Hk]. apply andb_prop in Hv as [_ Hv].
  apply negb_true_iff in Hk, Hv.
  cbn [colour_file]. rewrite !occurs_append. cbn [occurs].
  rewrite Hk, Hv, IH by assumption. reflexivity.
Qed.

(** X14.  Writing a dictionary of colours out, one [key value] line per
    entry, and loading the text gives the dictionary back, in the same
    order: provided that keys and values have no space, no newline and no
    carriage return in them and that no key is listed twice. *)
Theorem colour_file_round_trip :
  forall d,
    words d = true ->
    distinct (dict_keys d) = true ->
    load_colors (colour_file d) = (Ok tt, d).
Proof.
  intros d Hw Hd. unfold load_colors.
  rewrite universal_newlines_absent
    by now apply colour_file_has_no_carriage_return.
  rewrite load_colour_file by assumption.
  rewrite fold_set_distinct; [reflexivity|]. cbn. now apply distinct_NoDup.
Qed.

Lemma colour_file_round_trip_witness :
  load_colors
    (colour_file [("accent", "#FF9900"); ("background", "#1b1b1b")])
  = (Ok tt, [("accent", "#FF9900"); ("background", "#1b1b1b")]).
Proof. apply colour_file_round_trip; reflexivity. Defined.

Lemma load_color_without_space line colors :
  occurs space line = false ->
  load_color line colors
  = (Raise (IndexError "list index out of range"), colors).
Proof.
  intros Hs. unfold load_color. now rewrite split_space_word.
Qed.

Lemma load_lines_append lines1 lines2 colors :
  fst (load_lines lines1 colors) = Ok tt ->
  load_lines (lines1 ++ lines2) colors
  = load_lines lines2 (snd (load_lines lines1 colors)).
Proof.
  revert colors. induction lines1 as [|line lines1 IH]; intros colors Hok;
    [reflexivity|].
  cbn [app load_lines] in *. unfold bind in *.
  destruct (load_color line colors) as [[[]|e|] colors1]; cbn in Hok;
    try discriminate.
  now apply IH.
Qed.

(** X15.  A line of the colour file with no space in it, an empty line
    for one, stops the loading with an [IndexError]: the colours of the
    lines before it are in [colors], none of the lines after it is
    read. *)
Theorem colour_line_without_space_raises :
  forall lines1 line lines2 colors,
    fst (load_lines lines1 colors) = Ok tt ->
    occurs space line = false ->
    load_lines (lines1 ++ line :: lines2) colors
    = (Raise (IndexError "list index out of range"),
       snd (load_lines lines1 colors)).
Proof.
  intros lines1 line lines2 colors Hok Hs.
  rewrite load_lines_append by assumption. cbn [load_lines]. unfold bind.
  now rewrite load_color_without_space.
Qed.

Lemma colour_line_without_space_raises_witness :
  load_colors
    ("accent #FF9900" ++ String newline (String newline "primary #fff"))
  = (Raise (IndexError "list index out of range"), [("accent", "#FF9900")]).
Proof.
  apply (colour_line_without_space_raises
           ["accent #FF9900" ++ String newline ""] (String newline "")
           ["primary #fff"] []); reflexivity.
Defined.

(* ================================================================== *)
(** * Further properties of the callbacks                              *)
(* ================================================================== *)

Lemma bind_ret_l {W A B} (a : A) (k : A -> M W B) : bind (ret a) k = k a.
Proof. reflexivity. Qed.

Lemma subscript_some {W V} (d : dict V) k v :
  dict_get d k = Some v -> subscript (W := W) d k = ret v.
Proof. intros H. unfold subscript. now rewrite H. Qed.

Lemma subscript_none {W V} (d : dict V) k :
  dict_get d k = None -> subscript (W := W) d k = raise (KeyError k).
Proof. intros H. unfold subscript. now rewrite H. Qed.

Lemma dict_mem_get {V} (d : dict V) k :
  dict_mem d k = true -> exists v, dict_get d k = Some v.
Proof.
  unfold dict_mem. destruct (dict_get d k) as [v|]; [eauto|discriminate].
Qed.

Lemma themed_colours colors :
  themed colors = true ->
  exists secondary tertiary grid accent primary background,
    dict_get colors "secondary" = Some secondary
    /\ dict_get colors "tertiary" = Some tertiary
    /\ dict_get colors "grid-colour" = Some grid
    /\ dict_get colors "accent" = Some accent
    /\ dict_get colors "primary" = Some primary
    /\ dict_get colors "background" = Some background.
Proof.
  unfold themed. cbn [forallb]. rewrite !andb_true_iff.
  intros (H1 & H2 & H3 & H4 & H5 & H6 & _).
  apply dict_mem_get in H1, H2, H3, H4, H5, H6.
  destruct H1 as [v1 H1], H2 as [v2 H2], H3 as [v3 H3], H4 as [v4 H4],
    H5 as [v5 H5], H6 as [v6 H6].
  exists v1, v2, v3, v4, v5, v6. tauto.
Qed.

(** X16.  The update button is shown disabled exactly while its last
    click is less than 500 ms old: with a click at [timestamp > 0] and
    [now - timestamp < 500] the callback returns the accent colour on the
    background with the cursor [not-allowed]; before any click (the
    timestamp 0 of the layout) or from 500 ms on it returns the two
    colours swapped with the cursor [pointer]. *)
Theorem button_is_disabled_for_half_a_second :
  forall W (colors : dict string) now timestamp accent background (w : W),
    dict_get colors "accent" = Some accent ->
    dict_get colors "background" = Some background ->
    (0 < timestamp /\ now - timestamp < 500 ->
     update_button_disable_enable colors now timestamp w
     = (Ok {| style_color := accent; style_backgroundColor := background;
              style_cursor := "not-allowed" |}, w))
    /\ (timestamp <= 0 \/ 500 <= now - timestamp ->
        update_button_disable_enable colors now timestamp w
        = (Ok {| style_color := background; style_backgroundColor := accent;
                 style_cursor := "pointer" |}, w)).
Proof.
  intros W colors now ts a b w Ha Hb.
  unfold update_button_disable_enable.
  rewrite !(subscript_some _ _ _ Ha), !(subscript_some _ _ _ Hb).
  rewrite !bind_ret_l.
  split.
  - intros [H0 H500].
    replace (now - ts <? 500) with true by (symmetry; apply Z.ltb_lt; lia).
    replace (0 <? ts) with true by (symmetry; apply Z.ltb_lt; lia).
    reflexivity.
  - intros [H0 | H500].
    + replace (0 <? ts) with false by (symmetry; apply Z.ltb_ge; lia).
      rewrite andb_false_r. reflexivity.
    + replace (now - ts <? 500) with false by (symmetry; apply Z.ltb_ge; lia).
      reflexivity.
Qed.

Lemma button_is_disabled_for_half_a_second_witness :
  (0 < 1000 /\ 1499 - 1000 < 500 ->
   update_button_disable_enable theme 1499 1000 tt
   = (Ok {| style_color := "#FF9900"; style_backgroundColor := "#1b1b1b";
            style_cursor := "not-allowed" |}, tt))
  /\ (1000 <= 0 \/ 500 <= 1499 - 1000 ->
      update_button_disable_enable theme 1499 1000 tt
      = (Ok {| style_color := "#1b1b1b"; style_backgroundColor := "#FF9900";
               style_cursor := "pointer" |}, tt)).
Proof.
  apply (button_is_disabled_for_half_a_second unit theme 1499 1000
           "#FF9900" "#1b1b1b" tt); reflexivity.
Defined.

Lemma map_const_repeat {A B} (c : B) (l : list A) :
  map (fun _ => c) l = repeat c (List.length l).
Proof. induction l as [|x l IH]; cbn; [reflexivity|]. now rewrite IH. Qed.

Section PlotSteps.
Context {S : Type} {spec : DashOceanOpticsSpectrometer S}.

(** [update_plot] once the colours are found: the reading, then the
    ranges, then the figure. *)
Lemma update_plot_themed colors n on auto_range :
  themed colors = true ->
  exists x_axis y_axis layout,
    axis_range x_axis = None
    /\ axis_range y_axis = None
    /\ (forall axes, layout_xaxis (layout axes) = fst axes
                     /\ layout_yaxis (layout axes) = snd axes)
    /\ update_plot colors n on auto_range
       = (data <- plotted on ;;
          axes <- autoscale on auto_range (fst data) (snd data) x_axis y_axis ;;
          ret {| figure_data :=
                   [ {| scatter_x := fst data;
                        scatter_y := snd data;
                        scatter_name := "Spectrometer readings";
                        scatter_mode := "lines";
                        scatter_line_width := 1;
                        scatter_line_color :=
                          match dict_get colors "accent" with
                          | Some c => c
                          | None => ""
                          end |} ];
                 figure_layout := layout axes |}).
Proof.
  intros Ht.
  destruct (themed_colours _ Ht)
    as (sec & ter & grid & acc & pri & bg & Hsec & Hter & Hgrid & Hacc
        & Hpri & Hbg).
  unfold update_plot.
  rewrite !(subscript_some _ _ _ Hsec), !(subscript_some _ _ _ Hter),
    !(subscript_some _ _ _ Hgrid), !(subscript_some _ _ _ Hacc),
    !(subscript_some _ _ _ Hpri), !(subscript_some _ _ _ Hbg).
  rewrite !bind_ret_l. rewrite Hacc.
  eexists; eexists.
  exists (fun axes =>
            {| layout_height := 600;
               layout_font_family := "Helvetica Neue, sans-serif";
               layout_font_size := 12;
               layout_margin_t := 20;
               layout_titlefont_family := "Helvetica, sans-serif";
               layout_titlefont_color := pri;
               layout_titlefont_size := 26;
               layout_xaxis := fst axes;
               layout_yaxis := snd axes;
               layout_paper_bgcolor := bg;
               layout_plot_bgcolor := bg |}).
  split; [|split; [|split; [|reflexivity]]]; [reflexivity|reflexivity|].
  intros axes. split; reflexivity.
Qed.

End PlotSteps.

(** X18.  With the power off [update_plot] does not touch the device,
    whichever class it is and whatever the autoscale switch: the object is
    left as it was, the figure has one trace of the 5000 wavelengths with
    5000 zeros for intensities, and neither axis is given a range. *)
Theorem plot_with_power_off_leaves_the_device_alone :
  forall S (spec : DashOceanOpticsSpectrometer S) colors n auto_range (s : S),
    themed colors = true ->
    exists fig trace,
      update_plot colors n false auto_range s = (Ok fig, s)
      /\ figure_data fig = [trace]
      /\ scatter_x trace = linspace 400 900 5000
      /\ scatter_y trace = repeat 0%R 5000
      /\ axis_range (layout_xaxis (figure_layout fig)) = None
      /\ axis_range (layout_yaxis (figure_layout fig)) = None.
Proof.
  intros S spec colors n auto_range s Ht.
  destruct (update_plot_themed colors n false auto_range Ht)
    as (x_axis & y_axis & layout & Hx & Hy & Hl & Hrun).
  rewrite Hrun. unfold plotted, autoscale. rewrite !bind_ret_l.
  cbn [fst snd]. unfold ret.
  eexists; eexists. split; [reflexivity|]. cbn [figure_data figure_layout].
  split; [reflexivity|]. cbn [scatter_x scatter_y].
  split; [reflexivity|].
  split; [now rewrite map_const_repeat, length_linspace|].
  destruct (Hl (x_axis, y_axis)) as [-> ->]. cbn [fst snd]. now split.
Qed.

Lemma plot_with_power_off_leaves_the_device_alone_witness :
  exists fig trace,
    update_plot theme 0 false true (snd (Demo.new (fun _ => 0%R)))
    = (Ok fig, snd (Demo.new (fun _ => 0%R)))
    /\ figure_data fig = [trace]
    /\ scatter_x trace = linspace 400 900 5000
    /\ scatter_y trace = repeat 0%R 5000
    /\ axis_range (layout_xaxis (figure_layout fig)) = None
    /\ axis_range (layout_yaxis (figure_layout fig)) = None.
Proof.
  apply (plot_with_power_off_leaves_the_device_alone _ _ theme 0 true
           (snd (Demo.new (fun _ => 0%R)))).
  reflexivity.
Defined.

(** X19.  On a driver that never gets a device open, a poll with the
    power and the autoscale on raises: [get_spectrum] returns the two
    empty rows the object was made with, and [min] of an empty row is a
    [ValueError].  With the autoscale off the same poll returns a figure
    with an empty trace. *)
Theorem autoscale_without_a_device_raises :
  forall drv (w : Physical.PhysicalSpectrometer drv) colors n,
    never_opens drv ->
    idle w ->
    unassigned w ->
    themed colors = true ->
    (exists msg,
        fst (update_plot colors n true true w) = Raise (ValueError msg))
    /\ exists fig trace,
         fst (update_plot colors n true false w) = Ok fig
         /\ figure_data fig = [trace]
         /\ scatter_x trace = []
         /\ scatter_y trace = [].
Proof.
  intros drv w colors n Hno Hidle Hu Ht. split.
  - destruct (update_plot_themed (S := Physical.PhysicalSpectrometer drv) colors n true true Ht)
      as (x_axis & y_axis & layout & _ & _ & _ & Hrun).
    rewrite Hrun. unfold plotted. unfold bind at 1. unfold bind at 1.
    change (get_spectrum w) with (Physical.get_spectrum w).
    rewrite (get_spectrum_no_device Hno w Hidle Hu).
    eexists. reflexivity.
  - destruct (update_plot_themed (S := Physical.PhysicalSpectrometer drv) colors n true false Ht)
      as (x_axis & y_axis & layout & _ & _ & _ & Hrun).
    rewrite Hrun. unfold plotted. unfold bind at 1. unfold bind at 1.
    change (get_spectrum w) with (Physical.get_spectrum w).
    rewrite (get_spectrum_no_device Hno w Hidle Hu).
    eexists; eexists. split; [reflexivity|]. now repeat split.
Qed.

Lemma autoscale_without_a_device_raises_witness :
  (exists msg,
      fst (update_plot theme 0 true true
             (snd (Physical.new (drv := empty_bus) tt)))
      = Raise (ValueError msg))
  /\ exists fig trace,
       fst (update_plot theme 0 true false
              (snd (Physical.new (drv := empty_bus) tt))) = Ok fig
       /\ figure_data fig = [trace]
       /\ scatter_x trace = []
       /\ scatter_y trace = [].
Proof.
  apply (autoscale_without_a_device_raises empty_bus
           (snd (Physical.new (drv := empty_bus) tt)) theme 0).
  - intros hw. exists (IndexError "list index out of range"). reflexivity.
  - split; reflexivity.
  - repeat split; reflexivity.
  - reflexivity.
Defined.

Lemma fold_min_spec rest :
  forall x,
    In (fold_left Rmin rest x) (x :: rest)
    /\ Forall (fun y => (fold_left Rmin rest x <= y)%R) (x :: rest).
Proof.
  induction rest as [|y rest IH]; intros x; cbn [fold_left].
  - split; [now left|]. constructor; [apply Rle_refl|constructor].
  - destruct (IH (Rmin x y)) as [Hin Hall].
    apply Forall_cons_iff in Hall as [Hm Hall].
    pose proof (Rmin_l x y). pose proof (Rmin_r x y).
    split.
    + destruct Hin as [Hin|Hin]; [|now right; right].
      rewrite <- Hin. unfold Rmin. destruct (Rle_dec x y);
        [now left|now right; left].
    + constructor; [lra|]. constructor; [lra|assumption].
Qed.

Lemma fold_max_spec rest :
  forall x,
    In (fold_left Rmax rest x) (x :: rest)
    /\ Forall (fun y => (y <= fold_left Rmax rest x)%R) (x :: rest).
Proof.
  induction rest as [|y rest IH]; intros x; cbn [fold_left].
  - split; [now left|]. constructor; [apply Rle_refl|constructor].
  - destruct (IH (Rmax x y)) as [Hin Hall].
    apply Forall_cons_iff in Hall as [Hm Hall].
    pose proof (Rmax_l x y). pose proof (Rmax_r x y).
    split.
    + destruct Hin as [Hin|Hin]; [|now right; right].
      rewrite <- Hin. unfold Rmax. destruct (Rle_dec x y);
        [now right; left|now left].
    + constructor; [lra|]. constructor; [lra|assumption].
Qed.

Lemma py_min_spec {W} (values : list R) (w : W) :
  values <> [] ->
  exists m,
    py_min values w = (Ok m, w)
    /\ In m values
    /\ Forall (fun y => (m <= y)%R) values.
Proof.
  destruct values as [|x rest]; [congruence|]. intros _.
  exists (fold_left Rmin rest x). split; [reflexivity|].
  apply fold_min_spec.
Qed.

Lemma py_max_spec {W} (values : list R) (w : W) :
  values <> [] ->
  exists m,
    py_max values w = (Ok m, w)
    /\ In m values
    /\ Forall (fun y => (y <= m)%R) values.
Proof.
  destruct values as [|x rest]; [congruence|]. intros _.
  exists (fold_left Rmax rest x). split; [reflexivity|].
  apply fold_max_spec.
Qed.

Lemma linspace_nonempty : linspace 400 900 5000 <> [].
Proof.
  intros H. pose proof (length_linspace 400 900 5000) as Hl.
  rewrite H in Hl. discriminate Hl.
Qed.

Lemma In_wavelength x :
  In x (linspace 400 900 5000) ->
  exists i, (i < 5000)%nat /\ x = (400 + INR i * (500 / 4999))%R.
Proof.
  intros Hin. apply (In_nth _ _ 0%R) in Hin as (i & Hi & Hx).
  rewrite length_linspace in Hi. exists i. split; [assumption|].
  rewrite <- Hx. now apply nth_wavelength.
Qed.

Lemma wavelength_first : In 400%R (linspace 400 900 5000).
Proof.
  assert (In (nth 0 (linspace 400 900 5000) 0%R) (linspace 400 900 5000))
    as H by (apply nth_In; rewrite length_linspace; lia).
  rewrite nth_wavelength in H by lia. cbn [INR] in H.
  replace (400 + 0 * (500 / 4999))%R with 400%R in H by lra. exact H.
Qed.

Lemma wavelength_last : In 900%R (linspace 400 900 5000).
Proof.
  assert (In (nth (5000 - 1) (linspace 400 900 5000) 0%R)
            (linspace 400 900 5000))
    as H by (apply nth_In; rewrite length_linspace; lia).
  rewrite nth_wavelength in H by lia. rewrite INR_4999 in H.
  replace (400 + 4999 * (500 / 4999))%R with 900%R in H by lra. exact H.
Qed.

Lemma wavelengths_within x :
  In x (linspace 400 900 5000) -> (400 <= x <= 900)%R.
Proof.
  intros Hin. apply In_wavelength in Hin as (i & Hi & ->).
  pose proof (pos_INR i) as H0.
  assert (INR i <= 4999)%R as H1.
  { rewrite <- INR_4999. apply le_INR. lia. }
  split; [nra|]. 
  replace 900%R with (400 + 4999 * (500 / 4999))%R by lra. nra.
Qed.

Lemma min_wavelength m :
  In m (linspace 400 900 5000) ->
  Forall (fun y => (m <= y)%R) (linspace 400 900 5000) ->
  m = 400%R.
Proof.
  intros Hin Hle. rewrite Forall_forall in Hle.
  pose proof (Hle _ wavelength_first).
  pose proof (wavelengths_within _ Hin). lra.
Qed.

Lemma max_wavelength m :
  In m (linspace 400 900 5000) ->
  Forall (fun y => (y <= m)%R) (linspace 400 900 5000) ->
  m = 900%R.
Proof.
  intros Hin Hle. rewrite Forall_forall in Hle.
  pose proof (Hle _ wavelength_last).
  pose proof (wavelengths_within _ Hin). lra.
Qed.

Lemma between (lo hi : R) ys :
  Forall (fun y => (lo <= y)%R) ys ->
  Forall (fun y => (y <= hi)%R) ys ->
  Forall (fun y => (lo <= y <= hi)%R) ys.
Proof.
  intros Hlo Hhi. rewrite Forall_forall in *. intros y Hy.
  split; [now apply Hlo|now apply Hhi].
Qed.

(** The ranges [autoscale] gives two rows that are not empty. *)
Lemma autoscale_ranges {S} {spec : DashOceanOpticsSpectrometer S}
  (xs ys : list R) x_axis y_axis (s : S) :
  xs <> [] -> ys <> [] ->
  exists x_lo x_hi y_lo y_hi,
    autoscale true true xs ys x_axis y_axis s
    = (Ok (set_axis_range (x_lo, x_hi) x_axis,
           set_axis_range (y_lo, y_hi) y_axis), s)
    /\ In x_lo xs /\ Forall (fun x => (x_lo <= x)%R) xs
    /\ In x_hi xs /\ Forall (fun x => (x <= x_hi)%R) xs
    /\ In y_lo ys /\ Forall (fun y => (y_lo <= y)%R) ys
    /\ In y_hi ys /\ Forall (fun y => (y <= y_hi)%R) ys.
Proof.
  intros Hxs Hys.
  destruct (py_min_spec xs s Hxs) as (x_lo & Hxlo & Hxlo_in & Hxlo_le).
  destruct (py_max_spec xs s Hxs) as (x_hi & Hxhi & Hxhi_in & Hxhi_le).
  destruct (py_min_spec ys s Hys) as (y_lo & Hylo & Hylo_in & Hylo_le).
  destruct (py_max_spec ys s Hys) as (y_hi & Hyhi & Hyhi_in & Hyhi_le).
  exists x_lo, x_hi, y_lo, y_hi.
  split; [|tauto].
  unfold autoscale. unfold bind at 1. rewrite Hxlo.
  unfold bind at 1. rewrite Hxhi. unfold bind at 1. rewrite Hylo.
  unfold bind at 1. rewrite Hyhi. reflexivity.
Qed.

(** A figure of [update_plot] for a reading [data] scaled to it. *)
Lemma scaled_figure {S} {spec : DashOceanOpticsSpectrometer S}
  (xs ys : list R) x_axis y_axis layout line_color (s' : S) :
  xs <> [] -> ys <> [] ->
  (forall axes, layout_xaxis (layout axes) = fst axes
                /\ layout_yaxis (layout axes) = snd axes) ->
  exists fig trace x_lo x_hi y_lo y_hi,
    (axes <- autoscale true true xs ys x_axis y_axis ;;
     ret {| figure_data :=
              [ {| scatter_x := xs;
                   scatter_y := ys;
                   scatter_name := "Spectrometer readings";
                   scatter_mode := "lines";
                   scatter_line_width := 1;
                   scatter_line_color := line_color |} ];
            figure_layout := layout axes |}) s'
    = (Ok fig, s')
    /\ figure_data fig = [trace]
    /\ scatter_x trace = xs
    /\ scatter_y trace = ys
    /\ axis_range (layout_xaxis (figure_layout fig)) = Some (x_lo, x_hi)
    /\ axis_range (layout_yaxis (figure_layout fig)) = Some (y_lo, y_hi)
    /\ In x_lo xs /\ Forall (fun x => (x_lo <= x)%R) xs
    /\ In x_hi xs /\ Forall (fun x => (x <= x_hi)%R) xs
    /\ In y_lo ys /\ Forall (fun y => (y_lo <= y)%R) ys
    /\ In y_hi ys /\ Forall (fun y => (y <= y_hi)%R) ys.
Proof.
  intros Hxs Hys Hl.
  destruct (autoscale_ranges xs ys x_axis y_axis s' Hxs Hys)
    as (x_lo & x_hi & y_lo & y_hi & Hrun & Hrest).
  unfold bind at 1. rewrite Hrun. unfold ret.
  eexists; eexists; exists x_lo, x_hi, y_lo, y_hi.
  split; [reflexivity|]. cbn [figure_data figure_layout scatter_x scatter_y].
  destruct (Hl (set_axis_range (x_lo, x_hi) x_axis,
                set_axis_range (y_lo, y_hi) y_axis)) as [-> ->].
  cbn [fst snd set_axis_range axis_range]. tauto.
Qed.

Lemma samples_nonempty scale add g :
  samples scale add g (linspace 400 900 5000) <> [].
Proof.
  intros H. pose proof (length_samples scale add g (linspace 400 900 5000))
    as Hlen.
  rewrite H, length_linspace in Hlen. discriminate Hlen.
Qed.

(** X20.  A poll of a simulated device whose scale and offset have floats,
    with the power and the autoscale on, does not raise; the horizontal
    axis runs from 400 to 900 whatever was drawn, and the vertical axis
    from the smallest to the largest of the intensities plotted, both of
    which are among them. *)
Theorem simulated_plot_is_scaled_to_its_data :
  forall colors n (s : Demo.DemoSpectrometer),
    themed colors = true ->
    in_float_range s ->
    exists fig trace lo hi s',
      update_plot colors n true true s = (Ok fig, s')
      /\ figure_data fig = [trace]
      /\ scatter_x trace = linspace 400 900 5000
      /\ axis_range (layout_xaxis (figure_layout fig)) = Some (400, 900)%R
      /\ axis_range (layout_yaxis (figure_layout fig)) = Some (lo, hi)
      /\ In lo (scatter_y trace)
      /\ In hi (scatter_y trace)
      /\ Forall (fun y => (lo <= y <= hi)%R) (scatter_y trace).
Proof.
  intros colors n s Ht Hr.
  destruct (update_plot_themed (S := Demo.DemoSpectrometer) colors n true true
              Ht) as (x_axis & y_axis & layout & _ & _ & Hl & Hrun).
  rewrite Hrun. unfold plotted. unfold bind at 1. unfold bind at 1.
  change (get_spectrum s) with (Demo.get_spectrum s).
  destruct (Demo_get_spectrum_eq s Hr) as (s' & Hget & _).
  rewrite Hget. unfold ret at 1. cbn [fst snd].
  pose proof (scaled_figure (linspace 400 900 5000)
                (samples (Demo._sample_data_scale s) (Demo._sample_data_add s)
                   (Demo.rng s) (linspace 400 900 5000))
                x_axis y_axis layout
                match dict_get colors "accent" with
                | Some c => c
                | None => ""
                end s' linspace_nonempty
                (samples_nonempty (Demo._sample_data_scale s)
                   (Demo._sample_data_add s) (Demo.rng s)) Hl) as Hscaled.
  destruct Hscaled
    as (fig & trace & x_lo & x_hi & y_lo & y_hi & Hfig & Hdata & Hx & Hy
        & Hxr & Hyr & Hxlo_in & Hxlo_le & Hxhi_in & Hxhi_le
        & Hylo_in & Hylo_le & Hyhi_in & Hyhi_le).
  rewrite (min_wavelength _ Hxlo_in Hxlo_le) in Hxr.
  rewrite (max_wavelength _ Hxhi_in Hxhi_le) in Hxr.
  exists fig, trace, y_lo, y_hi, s'.
  split; [exact Hfig|]. split; [exact Hdata|]. split; [exact Hx|].
  split; [exact Hxr|]. split; [exact Hyr|]. rewrite Hy.
  split; [exact Hylo_in|]. split; [exact Hyhi_in|].
  now apply between.
Qed.

Lemma simulated_plot_is_scaled_to_its_data_witness :
  exists fig trace lo hi s',
    update_plot theme 0 true true (snd (Demo.new (fun _ => 0%R)))
    = (Ok fig, s')
    /\ figure_data fig = [trace]
    /\ scatter_x trace = linspace 400 900 5000
    /\ axis_range (layout_xaxis (figure_layout fig)) = Some (400, 900)%R
    /\ axis_range (layout_yaxis (figure_layout fig)) = Some (lo, hi)
    /\ In lo (scatter_y trace)
    /\ In hi (scatter_y trace)
    /\ Forall (fun y => (lo <= y <= hi)%R) (scatter_y trace).
Proof.
  apply (simulated_plot_is_scaled_to_its_data theme 0
           (snd (Demo.new (fun _ => 0%R)))).
  - reflexivity.
  - split; reflexivity.
Defined.

(** ** [update_spec_params] over a registry of several controls *)

Lemma dict_keys_set {V} (d : dict V) k v :
  forall k', In k' (dict_keys (dict_set d k v)) <-> k' = k \/ In k' (dict_keys d).
Proof.
  induction d as [|[k0 v0] d IH]; intros k'; cbn [dict_set].
  - cbn. intuition congruence.
  - destruct (String.eqb_spec k0 k) as [->|Hne]; cbn [dict_keys map fst In].
    + intuition congruence.
    + fold (dict_keys (dict_set d k v)). fold (dict_keys d).
      rewrite IH. intuition congruence.
Qed.

Lemma dict_keys_set_NoDup {V} (d : dict V) k v :
  NoDup (dict_keys d) -> NoDup (dict_keys (dict_set d k v)).
Proof.
  induction d as [|[k0 v0] d IH]; intros Hnd; cbn [dict_set].
  - cbn. constructor; [tauto|constructor].
  - cbn [dict_keys map fst] in Hnd. fold (dict_keys d) in Hnd.
    apply NoDup_cons_iff in Hnd as [Hk0 Hnd].
    destruct (String.eqb_spec k0 k) as [->|Hne]; cbn [dict_keys map fst].
    + fold (dict_keys d). now constructor.
    + fold (dict_keys (dict_set d k v)). constructor; [|now apply IH].
      rewrite dict_keys_set. intros [->|Hin]; tauto.
Qed.

Lemma filter_unique (controls : list Control) f :
  NoDup (map (fun c => attr_id (component_attr c)) controls) ->
  In f (map (fun c => attr_id (component_attr c)) controls) ->
  exists c,
    filter (fun c => String.eqb (attr_id (component_attr c)) f) controls = [c].
Proof.
  induction controls as [|c controls IH]; cbn [map In filter]; [tauto|].
  intros Hnd Hin. apply NoDup_cons_iff in Hnd as [Hc Hnd].
  destruct (String.eqb_spec (attr_id (component_attr c)) f) as [E|Hne].
  - exists c. f_equal. rewrite <- E in *.
    clear IH Hin Hnd. induction controls as [|c' controls IH];
      [reflexivity|].
    cbn [map In filter] in *.
    destruct (String.eqb_spec (attr_id (component_attr c'))
                (attr_id (component_attr c))) as [E'|_]; [tauto|].
    apply IH. tauto.
  - destruct Hin as [Hin|Hin]; [contradiction|]. now apply IH.
Qed.

Section SpecParams.
Context {S : Type} {spec : DashOceanOpticsSpectrometer S}.

Lemma build_commands_keys controls :
  forall values commands (s : S),
    List.length values = List.length controls ->
    NoDup (dict_keys commands) ->
    exists commands',
      build_commands controls values commands s = (Ok commands', s)
      /\ NoDup (dict_keys commands')
      /\ forall k,
           In k (dict_keys commands') <->
           In k (dict_keys commands)
           \/ In k (map (fun c => attr_id (component_attr c)) controls).
Proof.
  induction controls as [|c controls IH]; intros values commands s Hlen Hnd.
  - exists commands. cbn. split; [reflexivity|]. split; [assumption|].
    intros k. tauto.
  - destruct values as [|v values]; [discriminate|].
    cbn [build_commands].
    destruct (IH values (dict_set commands (attr_id (component_attr c)) v) s)
      as (commands' & Hrun & Hnd' & Hkeys).
    + cbn in Hlen. lia.
    + now apply dict_keys_set_NoDup.
    + exists commands'. split; [assumption|]. split; [assumption|].
      intros k. rewrite Hkeys, dict_keys_set. cbn [map In].
      intuition congruence.
Qed.

Lemma report_returns controls entries :
  (forall f, In f (dict_keys entries) ->
     exists c,
       filter (fun c => String.eqb (attr_id (component_attr c)) f) controls
       = [c]) ->
  forall summary (s : S),
    exists summary', report controls entries summary s = (Ok summary', s).
Proof.
  induction entries as [|[f text] rest IH]; intros Hall summary s.
  - exists summary. reflexivity.
  - cbn [report]. unfold bind at 1. unfold the_ctrl_name.
    destruct (Hall f) as [c Hc]; [now left|]. rewrite Hc.
    unfold ret at 1. apply IH. intros f' Hf'. apply Hall. now right.
Qed.

Lemma report_failed_returns controls failed :
  (forall f, In f (dict_keys failed) ->
     exists c,
       filter (fun c => String.eqb (attr_id (component_attr c)) f) controls
       = [c]) ->
  forall summary (s : S),
    exists summary', report_failed controls failed summary s = (Ok summary', s).
Proof.
  intros Hall summary s. unfold report_failed.
  destruct failed as [|x failed]; [now exists summary|].
  destruct (report_returns controls (x :: failed) Hall
              (summary ++ [Text not_updated_message; Br; Br])%list s)
    as [summary1 Hrun].
  unfold bind. rewrite Hrun. eexists. reflexivity.
Qed.

Lemma report_succeeded_returns controls succeeded :
  (forall f, In f (dict_keys succeeded) ->
     exists c,
       filter (fun c => String.eqb (attr_id (component_attr c)) f) controls
       = [c]) ->
  forall summary (s : S),
    exists summary',
      report_succeeded controls succeeded summary s = (Ok summary', s).
Proof.
  intros Hall summary s. unfold report_succeeded.
  destruct succeeded as [|x succeeded]; [now exists summary|].
  now apply report_returns.
Qed.

Lemma recorded_keys ids r f :
  recorded_once ids r ->
  In f (dict_keys (failed_of r)) \/ In f (dict_keys (succeeded_of r)) ->
  In f ids.
Proof.
  intros Hrec Hin. destruct (in_dec string_dec f ids) as [|Hout];
    [assumption|].
  destruct (Hrec f) as [_ Hnone]. destruct (Hnone Hout) as [Hf Hs].
  unfold dict_mem in Hf, Hs.
  destruct Hin as [Hin|Hin]; apply dict_get_in_keys in Hin as [v Hv];
    [rewrite Hv in Hf|rewrite Hv in Hs]; discriminate.
Qed.

(** The callback returns once the device has recorded each id of the
    batch once. *)
Lemma update_spec_params_returns controls n values (s : S) :
  distinct (map (fun c => attr_id (component_attr c)) controls) = true ->
  List.length values = List.length controls ->
  (forall commands,
     NoDup (dict_keys commands) ->
     exists r s',
       send_control_values commands s = (Ok r, s')
       /\ recorded_once (dict_keys commands) r) ->
  exists summary,
    fst (update_spec_params controls n values true s) = Ok (Div summary).
Proof.
  intros Hd Hlen Hsend. apply distinct_NoDup in Hd.
  unfold update_spec_params. cbn [negb].
  destruct (build_commands_keys controls values [] s Hlen (NoDup_nil _))
    as (commands & Hbuild & Hnd & Hkeys).
  unfold bind at 1. rewrite Hbuild.
  destruct (Hsend commands Hnd) as ([failed succeeded] & s' & Hrun & Hrec).
  unfold bind at 1. rewrite Hrun.
  assert (forall f,
            In f (dict_keys failed) \/ In f (dict_keys succeeded) ->
            exists c,
              filter (fun c => String.eqb (attr_id (component_attr c)) f)
                controls = [c]) as Hone.
  { intros f Hf. apply filter_unique; [assumption|].
    pose proof (recorded_keys _ _ f Hrec Hf) as Hin.
    apply Hkeys in Hin as [Hin|Hin]; [destruct Hin|assumption]. }
  destruct (report_failed_returns controls failed
              (fun f Hf => Hone f (or_introl Hf)) [] s') as [summary1 H1].
  unfold bind at 1. rewrite H1.
  destruct (report_succeeded_returns controls succeeded
              (fun f Hf => Hone f (or_intror Hf)) summary1 s')
    as [summary2 H2].
  unfold bind at 1. rewrite H2. exists summary2. reflexivity.
Qed.

End SpecParams.

(** X21.  With one value per control and no two controls sharing a
    component id, [update_spec_params] with the power on never raises: on
    the simulated class, and on the physical class whenever the
    communication lock is free, it returns a [Div], whatever the values
    and whatever the driver does with them. *)
Theorem update_spec_params_returns_a_summary :
  forall controls n values,
    distinct (map (fun c => attr_id (component_attr c)) controls) = true ->
    List.length values = List.length controls ->
    (forall s : Demo.DemoSpectrometer,
       exists summary,
         fst (update_spec_params controls n values true s)
         = Ok (Div summary))
    /\ (forall drv (w : Physical.PhysicalSpectrometer drv),
          Physical.comm_lock w = false ->
          exists summary,
            fst (update_spec_params controls n values true w)
            = Ok (Div summary)).
Proof.
  intros controls n values Hd Hlen. split.
  - intros s. apply update_spec_params_returns; [assumption|assumption|].
    intros commands Hnd.
    apply (Demo_send_control_values_records_once commands s Hnd).
  - intros drv w Hfree.
    apply update_spec_params_returns; [assumption|assumption|].
    intros commands Hnd.
    destruct (Physical_send_control_values_records_once commands w Hfree Hnd)
      as (r & w' & Hrun & _ & Hrec).
    exists r, w'. now split.
Qed.

Lemma update_spec_params_returns_a_summary_witness :
  (forall s : Demo.DemoSpectrometer,
     exists summary,
       fst (update_spec_params
              [int_time 1 0 0;
               update_value 3 {| ctrl_id := "averages";
                                 ctrl_name := "averages";
                                 component_type := "NumericInput";
                                 component_attr :=
                                   {| attr_id := "averages-input";
                                      attr_max := 10; attr_min := 1;
                                      attr_size := 150;
                                      attr_value := 1 |} |}]
              1 [2000; 3] true s)
       = Ok (Div summary))
  /\ (forall drv (w : Physical.PhysicalSpectrometer drv),
        Physical.comm_lock w = false ->
        exists summary,
          fst (update_spec_params
                 [int_time 1 0 0;
                  update_value 3 {| ctrl_id := "averages";
                                    ctrl_name := "averages";
                                    component_type := "NumericInput";
                                    component_attr :=
                                      {| attr_id := "averages-input";
                                         attr_max := 10; attr_min := 1;
                                         attr_size := 150;
                                         attr_value := 1 |} |}]
                 1 [2000; 3] true w)
          = Ok (Div summary)).
Proof.
  apply update_spec_params_returns_a_summary; reflexivity.
Defined.

Section SharedId.
Context {S : Type} {spec : DashOceanOpticsSpectrometer S}.

Lemma report_first_shared c1 c2 entries summary (s : S) :
  attr_id (component_attr c1) = attr_id (component_attr c2) ->
  entries <> [] ->
  (forall f, In f (dict_keys entries) -> f = attr_id (component_attr c1)) ->
  report [c1; c2] entries summary s
  = (Raise (ValueError "too many values to unpack (expected 1)"), s).
Proof.
  intros Hid Hne Hkeys. destruct entries as [|[f text] rest]; [congruence|].
  cbn [report]. unfold bind at 1, the_ctrl_name.
  rewrite (Hkeys f) by now left.
  cbn [filter]. rewrite <- Hid, String.eqb_refl. reflexivity.
Qed.

(** Two controls with one component id: the batch has one entry, with the
    second value, and the summary cannot name the control. *)
Lemma update_spec_params_shared_id c1 c2 n v1 v2 (s : S) r s' :
  attr_id (component_attr c1) = attr_id (component_attr c2) ->
  send_control_values [(attr_id (component_attr c1), v2)] s = (Ok r, s') ->
  recorded_once [attr_id (component_attr c1)] r ->
  update_spec_params [c1; c2] n [v1; v2] true s
  = (Raise (ValueError "too many values to unpack (expected 1)"), s').
Proof.
  intros Hid Hrun Hrec. unfold update_spec_params.
  cbn [negb build_commands dict_set]. rewrite <- Hid, String.eqb_refl.
  unfold bind at 1. unfold ret at 1. unfold bind at 1. rewrite Hrun.
  destruct r as [failed succeeded].
  assert (forall f,
            In f (dict_keys failed) \/ In f (dict_keys succeeded) ->
            f = attr_id (component_attr c1)) as Hkeys.
  { intros f Hf. pose proof (recorded_keys _ _ f Hrec Hf) as [<-|[]].
    reflexivity. }
  unfold bind at 1. unfold report_failed.
  destruct failed as [|x failed].
  - unfold ret at 1. unfold bind at 1. unfold report_succeeded.
    destruct succeeded as [|y succeeded].
    + destruct (Hrec (attr_id (component_attr c1))) as [Hin _].
      specialize (Hin (or_introl eq_refl)). discriminate Hin.
    + rewrite (report_first_shared c1 c2) ; [reflexivity|assumption| |].
      * discriminate.
      * intros f Hf. apply Hkeys. now right.
  - unfold bind at 1.
    rewrite (report_first_shared c1 c2); [reflexivity|assumption| |].
    + discriminate.
    + intros f Hf. apply Hkeys. now left.
Qed.

End SharedId.

(** X22.  Two controls registered with the same component id break the
    summary, not the dispatch: the batch keeps one entry for the id, with
    the value of the second control; the device is given that entry as by
    [send_control_values]; and the callback then raises [ValueError] when
    it looks up the name of the control.  This holds on the simulated
    class, and on the physical class with the communication lock free. *)
Theorem shared_component_id_raises_after_the_dispatch :
  forall c1 c2 n v1 v2,
    attr_id (component_attr c1) = attr_id (component_attr c2) ->
    exists msg,
      (forall s : Demo.DemoSpectrometer,
         update_spec_params [c1; c2] n [v1; v2] true s
         = (Raise (ValueError msg),
            snd (Demo.send_control_values
                   [(attr_id (component_attr c1), v2)] s)))
      /\ (forall drv (w : Physical.PhysicalSpectrometer drv),
            Physical.comm_lock w = false ->
            update_spec_params [c1; c2] n [v1; v2] true w
            = (Raise (ValueError msg),
               snd (Physical.send_control_values
                      [(attr_id (component_attr c1), v2)] w))).
Proof.
  intros c1 c2 n v1 v2 Hid.
  assert (NoDup (dict_keys [(attr_id (component_attr c1), v2)])) as Hnd.
  { cbn. constructor; [tauto|constructor]. }
  exists "too many values to unpack (expected 1)". split.
  - intros s.
    destruct (Demo_send_control_values_records_once _ s Hnd)
      as (r & s' & Hrun & Hrec).
    rewrite Hrun. cbn [snd].
    now apply (update_spec_params_shared_id c1 c2 n v1 v2 s r s').
  - intros drv w Hfree.
    destruct (Physical_send_control_values_records_once _ w Hfree Hnd)
      as (r & w' & Hrun & _ & Hrec).
    rewrite Hrun. cbn [snd].
    now apply (update_spec_params_shared_id c1 c2 n v1 v2 w r w').
Qed.

Lemma shared_component_id_raises_after_the_dispatch_witness :
  exists msg,
    (forall s : Demo.DemoSpectrometer,
       update_spec_params [int_time 1 0 0; int_time 9 5 5] 1 [2000; 3000]
         true s
       = (Raise (ValueError msg),
          snd (Demo.send_control_values
                 [(attr_id (component_attr (int_time 1 0 0)), 3000)] s)))
    /\ (forall drv (w : Physical.PhysicalSpectrometer drv),
          Physical.comm_lock w = false ->
          update_spec_params [int_time 1 0 0; int_time 9 5 5] 1 [2000; 3000]
            true w
          = (Raise (ValueError msg),
             snd (Physical.send_control_values
                    [(attr_id (component_attr (int_time 1 0 0)), 3000)] w))).
Proof.
  apply (shared_component_id_raises_after_the_dispatch
           (int_time 1 0 0) (int_time 9 5 5) 1 2000 3000).
  reflexivity.
Defined.
